(** * A console contact manager: validated fields, records, the address book
    and the upcoming-birthday query of [dz01.py], embedded in Rocq.

    Python values are modelled as follows.
    - [str] is a list of Unicode code points ([Z]); [py "..."] injects an
      ASCII literal.
    - An exception is a kind and the text that [str(e)] renders; a call that
      may raise returns a [result].
    - [datetime.date] is a record of year, month and day with the arithmetic
      of CPython's [datetime] module (proleptic Gregorian ordinals).
    - [AddressBook.data] is an insertion-ordered association list.
    - A command is a function of the address book that returns its outcome
      together with the address book it leaves behind. *)

From Stdlib Require Import String Ascii DecimalString.
From Stdlib Require Import ZArith List Bool Lia.
Import ListNotations.

Open Scope Z_scope.

(** ** Python strings *)

Definition char := Z.
Definition str := list char.

Definition py (s : string) : str :=
  map (fun a => Z.of_N (N_of_ascii a)) (list_ascii_of_string s).

Fixpoint str_eqb (a b : str) : bool :=
  match a, b with
  | [], [] => true
  | x :: a', y :: b' => (x =? y) && str_eqb a' b'
  | _, _ => false
  end.

(** [sep.join(parts)] *)
Fixpoint join (sep : str) (parts : list str) : str :=
  match parts with
  | [] => []
  | [p] => p
  | p :: rest => p ++ sep ++ join sep rest
  end.

(** *** The Unicode character database (version 14.0, as shipped with
    CPython 3.11).  Every run of decimal digits (category Nd) is ten
    consecutive code points for the values 0 to 9; the table lists the code
    point of each zero. *)
Definition decimal_zeros : list Z :=
  [ 0x30; 0x660; 0x6f0; 0x7c0; 0x966; 0x9e6; 0xa66; 0xae6; 0xb66; 0xbe6;
    0xc66; 0xce6; 0xd66; 0xde6; 0xe50; 0xed0; 0xf20; 0x1040; 0x1090; 0x17e0;
    0x1810; 0x1946; 0x19d0; 0x1a80; 0x1a90; 0x1b50; 0x1bb0; 0x1c40; 0x1c50;
    0xa620; 0xa8d0; 0xa900; 0xa9d0; 0xa9f0; 0xaa50; 0xabf0; 0xff10; 0x104a0;
    0x10d30; 0x11066; 0x110f0; 0x11136; 0x111d0; 0x112f0; 0x11450; 0x114d0;
    0x11650; 0x116c0; 0x11730; 0x118e0; 0x11950; 0x11c50; 0x11d50; 0x11da0;
    0x16a60; 0x16ac0; 0x16b50; 0x1d7ce; 0x1d7d8; 0x1d7e2; 0x1d7ec; 0x1d7f6;
    0x1e140; 0x1e2f0; 0x1e950; 0x1fbf0 ].

(** [unicodedata.decimal(c)], [None] when [c] is no decimal digit. *)
Definition decimal (c : char) : option Z :=
  match find (fun z => (z <=? c) && (c <? z + 10)) decimal_zeros with
  | Some z => Some (c - z)
  | None => None
  end.

(** The class [\d] of [re] on [str] patterns; [\D] is its complement. *)
Definition isdigit (c : char) : bool :=
  match decimal c with Some _ => true | None => false end.

(** [str.isspace] on one character (what [str.strip()] and [int()] skip). *)
Definition isspace (c : char) : bool :=
  ((0x09 <=? c) && (c <=? 0x0d)) || ((0x1c <=? c) && (c <=? 0x20))
  || (c =? 0x85) || (c =? 0xa0) || (c =? 0x1680)
  || ((0x2000 <=? c) && (c <=? 0x200a))
  || (c =? 0x2028) || (c =? 0x2029) || (c =? 0x202f) || (c =? 0x205f)
  || (c =? 0x3000).

Fixpoint lstrip (s : str) : str :=
  match s with
  | c :: s' => if isspace c then lstrip s' else s
  | [] => []
  end.

(** [s.strip()] *)
Definition strip (s : str) : str := rev (lstrip (rev (lstrip s))).

(** [re.sub(r'\D', '', s)]: every character outside [\d] is replaced by the
    empty string. *)
Definition re_sub_non_digits (s : str) : str := filter isdigit s.

(** [str(n)] for an integer. *)
Definition str_of_int (n : Z) : str :=
  match n with
  | Zneg p => py "-" ++ py (NilZero.string_of_uint (Pos.to_uint p))
  | _ => py (NilZero.string_of_uint (N.to_uint (Z.to_N n)))
  end.

(** ** Exceptions *)

Inductive exn_kind := ValueError | IndexError | KeyError | OverflowError.

Record exn := Raise { kind : exn_kind; message : str }.

Inductive result (A : Type) :=
| Ok (a : A)
| Err (e : exn).
Arguments Ok {A} a.
Arguments Err {A} e.

Definition bind {A B} (r : result A) (k : A -> result B) : result B :=
  match r with
  | Ok a => k a
  | Err e => Err e
  end.

Declare Scope py_scope.
Notation "x <- r ;; k" := (bind r (fun x => k))
  (at level 61, r at next level, right associativity) : py_scope.
Open Scope py_scope.

Definition raise {A} (k : exn_kind) (m : string) : result A :=
  Err (Raise k (py m)).

(** ** Fields *)

Record Name := mkName { Name_value : str }.

Definition Name_init (name : str) : result Name :=
  match name with
  | [] => raise ValueError "Name cannot be empty."
  | _ => Ok (mkName name)
  end.

Record Phone := mkPhone { Phone_value : str }.

Definition is_valid (number : str) : bool :=
  (Z.of_nat (length number) =? 10).

Definition InvalidPhone : exn :=
  Raise ValueError (py "Phone number must contain exactly 10 digits.").

Definition Phone_init (number : str) : result Phone :=
  let number := re_sub_non_digits number in
  if negb (is_valid number) then Err InvalidPhone
  else Ok (mkPhone number).

(** ** [datetime.date]

    The calendar arithmetic follows CPython's [datetime] module; error texts
    are those of the C implementation, which is the one a program imports. *)

Record date := mkdate { year : Z; month : Z; day : Z }.

Definition MINYEAR := 1.
Definition MAXYEAR := 9999.
Definition MAXORDINAL := 3652059.

Definition DAYS_IN_MONTH : list Z :=
  [-1; 31; 28; 31; 30; 31; 30; 31; 31; 30; 31; 30; 31].

Definition DAYS_BEFORE_MONTH : list Z :=
  [-1; 0; 31; 59; 90; 120; 151; 181; 212; 243; 273; 304; 334].

Definition index (l : list Z) (i : Z) : Z := nth (Z.to_nat i) l (-1).

Definition is_leap (y : Z) : bool :=
  (y mod 4 =? 0) && (negb (y mod 100 =? 0) || (y mod 400 =? 0)).

Definition days_before_year (y : Z) : Z :=
  let y := y - 1 in
  y * 365 + y / 4 - y / 100 + y / 400.

Definition days_in_month (y m : Z) : Z :=
  if (m =? 2) && is_leap y then 29 else index DAYS_IN_MONTH m.

Definition days_before_month (y m : Z) : Z :=
  index DAYS_BEFORE_MONTH m + (if (2 <? m) && is_leap y then 1 else 0).

Definition ymd2ord (y m d : Z) : Z :=
  days_before_year y + days_before_month y m + d.

Definition DI400Y := 146097.
Definition DI100Y := 36524.
Definition DI4Y := 1461.

Definition ord2ymd (n : Z) : date :=
  let n := n - 1 in
  let n400 := n / DI400Y in
  let n := n mod DI400Y in
  let y := n400 * 400 + 1 in
  let n100 := n / DI100Y in
  let n := n mod DI100Y in
  let n4 := n / DI4Y in
  let n := n mod DI4Y in
  let n1 := n / 365 in
  let n := n mod 365 in
  let y := y + n100 * 100 + n4 * 4 + n1 in
  if (n1 =? 4) || (n100 =? 4) then mkdate (y - 1) 12 31
  else
    let leapyear := (n1 =? 3) && (negb (n4 =? 24) || (n100 =? 3)) in
    let m := Z.shiftr (n + 50) 5 in
    let preceding :=
      index DAYS_BEFORE_MONTH m + (if (2 <? m) && leapyear then 1 else 0) in
    if n <? preceding then
      let m := m - 1 in
      let preceding :=
        preceding
        - (index DAYS_IN_MONTH m + (if (m =? 2) && leapyear then 1 else 0)) in
      mkdate y m (n - preceding + 1)
    else mkdate y m (n - preceding + 1).

(** The range checks of the [date] constructor. *)
Definition date_new (y m d : Z) : result date :=
  if negb ((MINYEAR <=? y) && (y <=? MAXYEAR)) then
    Err (Raise ValueError
           (py "year " ++ str_of_int y ++ py " is out of range"))
  else if negb ((1 <=? m) && (m <=? 12)) then
    raise ValueError "month must be in 1..12"
  else if negb ((1 <=? d) && (d <=? days_in_month y m)) then
    raise ValueError "day is out of range for month"
  else Ok (mkdate y m d).

(** [d.replace(year=y)] builds a new date from the replaced fields. *)
Definition replace_year (d : date) (y : Z) : result date :=
  date_new y (month d) (day d).

Definition toordinal (d : date) : Z := ymd2ord (year d) (month d) (day d).

(** [a < b] compares (year, month, day) lexicographically. *)
Definition date_ltb (a b : date) : bool :=
  (year a <? year b)
  || ((year a =? year b)
      && ((month a <? month b)
          || ((month a =? month b) && (day a <? day b)))).

(** [(a - b).days] *)
Definition days_between (a b : date) : Z := toordinal a - toordinal b.

(** [d.weekday()]: Monday is 0, Saturday 5, Sunday 6. *)
Definition weekday (d : date) : Z := (toordinal d + 6) mod 7.

(** [d + timedelta(days=n)] *)
Definition add_days (d : date) (n : Z) : result date :=
  let o := toordinal d + n in
  if (0 <? o) && (o <=? MAXORDINAL) then Ok (ord2ymd o)
  else raise OverflowError "date value out of range".

(** The [w] low-order decimal digits of [n], the highest first: what the
    conversions %02d and %04d print for a number of at most [w] digits. *)
Fixpoint zero_padded (w : nat) (n : Z) : str :=
  match w with
  | O => []
  | S w' => zero_padded w' (n / 10) ++ [48 + n mod 10]
  end.

(** The decimal digits of a number from 0 to 9999 without leading zeros:
    what the conversion %d prints for it. *)
Definition unpadded (n : Z) : str :=
  if n <? 10 then zero_padded 1 n
  else if n <? 100 then zero_padded 2 n
  else if n <? 1000 then zero_padded 3 n
  else zero_padded 4 n.

(** [d.strftime("%d.%m.%Y")] as CPython 3.11 computes it, with the
    [strftime] of the C library (glibc): day and month as two digits,
    zero-filled, and the year as a decimal number that is not filled, so that
    a year before 1000 has fewer than four digits (999, not 0999). *)
Definition strftime_dmY (d : date) : str :=
  zero_padded 2 (day d) ++ py "." ++ zero_padded 2 (month d)
  ++ py "." ++ unpadded (year d).

(** *** [datetime.strptime(text, "%d.%m.%Y")]

    [_strptime] compiles the format to the regular expression
    [(?P<d>3[0-1]|[1-2]\d|0[1-9]|[1-9]| [1-9])\.(?P<m>1[0-2]|0[1-9]|[1-9])\.(?P<Y>\d\d\d\d)],
    matches it at the start of the text, and refuses a match that does not
    reach the end of the text.  A matcher lists, in the order in which the
    backtracking engine tries them, the ways a pattern matches a prefix of
    its input: the matched text and the input that remains.  (The expression
    is compiled with IGNORECASE, which changes nothing for digits, the dot
    and the space.) *)

Definition matcher := str -> list (str * str).

Definition cls (p : char -> bool) : matcher := fun s =>
  match s with
  | c :: r => if p c then [([c], r)] else []
  | [] => []
  end.

Definition range (lo hi : string) : char -> bool := fun c =>
  match py lo, py hi with
  | [l], [h] => (l <=? c) && (c <=? h)
  | _, _ => false
  end.

Definition lit (a : string) : matcher := cls (range a a).

Definition cat (a b : matcher) : matcher := fun s =>
  flat_map (fun xr => map (fun yr => (fst xr ++ fst yr, snd yr)) (b (snd xr)))
           (a s).

Definition alt (a b : matcher) : matcher := fun s => a s ++ b s.

Definition re_d : matcher :=
  alt (cat (lit "3") (cls (range "0" "1")))
 (alt (cat (cls (range "1" "2")) (cls isdigit))
 (alt (cat (lit "0") (cls (range "1" "9")))
 (alt (cls (range "1" "9"))
      (cat (lit " ") (cls (range "1" "9")))))).

Definition re_m : matcher :=
  alt (cat (lit "1") (cls (range "0" "2")))
 (alt (cat (lit "0") (cls (range "1" "9")))
      (cls (range "1" "9"))).

Definition re_Y : matcher :=
  cat (cls isdigit) (cat (cls isdigit) (cat (cls isdigit) (cls isdigit))).

(** The groups d, m and Y of each match, with the input left after it. *)
Definition re_dmY (s : str) : list ((str * str * str) * str) :=
  flat_map (fun d =>
    flat_map (fun dot1 =>
      flat_map (fun m =>
        flat_map (fun dot2 =>
          map (fun Y => ((fst d, fst m, fst Y), snd Y)) (re_Y (snd dot2)))
          (lit "." (snd m)))
        (re_m (snd dot1)))
      (lit "." (snd d)))
    (re_d s).

(** [int(s)] on the text of a group: surrounding white space is skipped and
    the rest must be decimal digits.  (Signs and underscores, which [int]
    also reads, cannot occur in a group of the pattern above.) *)
Definition int_of_str (s : str) : result Z :=
  match strip s with
  | [] => raise ValueError "invalid literal for int() with base 10"
  | ds =>
      fold_left
        (fun acc c =>
           a <- acc ;;
           match decimal c with
           | Some v => Ok (10 * a + v)
           | None => raise ValueError "invalid literal for int() with base 10"
           end)
        ds (Ok 0)
  end.

(** The first message of [_strptime] quotes [repr(text)]: the text between
    single quotes when it holds no quote, backslash or unprintable
    character, as every text that [strftime] writes.  [Birthday] replaces
    both messages by its own. *)
Definition strptime_dmY (text : str) : result date :=
  match re_dmY text with
  | [] =>
      Err (Raise ValueError
             (py "time data '" ++ text
              ++ py "' does not match format '%d.%m.%Y'"))
  | (d, m, Y, rest) :: _ =>
      match rest with
      | _ :: _ =>
          Err (Raise ValueError (py "unconverted data remains: " ++ rest))
      | [] =>
          y <- int_of_str Y ;;
          m <- int_of_str m ;;
          d <- int_of_str d ;;
          date_new y m d
      end
  end.

(** ** The Birthday field: [self.date] and [self.value] *)

Record Birthday := mkBirthday { Birthday_date : date; Birthday_value : str }.

Definition InvalidBirthday : exn :=
  Raise ValueError (py "Invalid date format. Use DD.MM.YYYY").

Definition Birthday_init (value : str) : result Birthday :=
  match strptime_dmY value with
  | Ok d => Ok (mkBirthday d value)
  | Err e =>
      match kind e with
      | ValueError => Err InvalidBirthday
      | _ => Err e
      end
  end.

(** ** Record *)

(** The class [Record]: a method that mutates [self] returns the record it
    leaves, or the exception it raises before it changes anything. *)
Record ContactRecord := mkRecord {
  name : Name;
  phones : list Phone;
  birthday : option Birthday
}.

Definition Record_init (n : str) : result ContactRecord :=
  nm <- Name_init n ;;
  Ok (mkRecord nm [] None).

Definition set_phones (self : ContactRecord) (ps : list Phone) :=
  mkRecord (name self) ps (birthday self).

Definition add_phone (self : ContactRecord) (phone_number : str)
  : result ContactRecord :=
  phone <- Phone_init phone_number ;;
  Ok (set_phones self (phones self ++ [phone])).

Definition remove_phone (self : ContactRecord) (phone_number : str)
  : result ContactRecord :=
  let clean_number := re_sub_non_digits phone_number in
  Ok (set_phones self
        (filter (fun phone => negb (str_eqb (Phone_value phone) clean_number))
                (phones self))).

Fixpoint enumerate_from {A} (i : nat) (l : list A) : list (nat * A) :=
  match l with
  | [] => []
  | x :: l' => (i, x) :: enumerate_from (S i) l'
  end.

Definition enumerate {A} (l : list A) := enumerate_from 0 l.

(** [l[idx] = x] for an index within the list. *)
Fixpoint setitem {A} (l : list A) (idx : nat) (x : A) : list A :=
  match l, idx with
  | [], _ => []
  | _ :: l', O => x :: l'
  | y :: l', S i => y :: setitem l' i x
  end.

Definition PhoneNotFound : exn :=
  Raise ValueError (py "Old phone number not found.").

(** The loop returns at the first phone whose value is [clean_old]; the
    method yields the mutated record and the returned [True]. *)
Definition edit_phone (self : ContactRecord) (old_number new_number : str)
  : result (ContactRecord * bool) :=
  let clean_old := re_sub_non_digits old_number in
  match find (fun ip => str_eqb (Phone_value (snd ip)) clean_old)
             (enumerate (phones self)) with
  | Some (idx, _) =>
      phone <- Phone_init new_number ;;
      Ok (set_phones self (setitem (phones self) idx phone), true)
  | None => Err PhoneNotFound
  end.

Definition find_phone (self : ContactRecord) (phone_number : str)
  : option Phone :=
  let clean_number := re_sub_non_digits phone_number in
  find (fun phone => str_eqb (Phone_value phone) clean_number) (phones self).

(** The method [Record.add_birthday]; the command of that name is below. *)
Definition add_birthday_to (self : ContactRecord) (date_str : str)
  : result ContactRecord :=
  b <- Birthday_init date_str ;;
  Ok (mkRecord (name self) (phones self) (Some b)).

(** [str(record)] *)
Definition Record_str (self : ContactRecord) : str :=
  let phones := join (py "; ") (map Phone_value (phones self)) in
  let bday :=
    match birthday self with
    | Some b => py ", birthday: " ++ Birthday_value b
    | None => []
    end in
  py "Contact name: " ++ Name_value (name self) ++ py ", phones: "
  ++ phones ++ bday.

(** ** AddressBook

    [self.data] is a [dict]: keys are unique and kept in the order of their
    first insertion; assigning to a present key keeps its place. *)

Definition AddressBook := list (str * ContactRecord).

Fixpoint dict_get (k : str) (d : AddressBook) : option ContactRecord :=
  match d with
  | [] => None
  | (k', v) :: d' => if str_eqb k' k then Some v else dict_get k d'
  end.

Fixpoint dict_set (k : str) (v : ContactRecord) (d : AddressBook)
  : AddressBook :=
  match d with
  | [] => [(k, v)]
  | (k', v') :: d' =>
      if str_eqb k' k then (k', v) :: d' else (k', v') :: dict_set k v d'
  end.

Fixpoint dict_del (k : str) (d : AddressBook) : AddressBook :=
  match d with
  | [] => []
  | (k', v') :: d' => if str_eqb k' k then d' else (k', v') :: dict_del k d'
  end.

Definition keys (d : AddressBook) : list str := map fst d.
Definition values (d : AddressBook) : list ContactRecord := map snd d.

Definition add_record (record : ContactRecord) (self : AddressBook)
  : AddressBook :=
  dict_set (Name_value (name record)) record self.

Definition find (nm : str) (self : AddressBook) : option ContactRecord :=
  dict_get nm self.

Definition delete (nm : str) (self : AddressBook) : AddressBook :=
  match dict_get nm self with
  | Some _ => dict_del nm self
  | None => self
  end.

(** One element of the list the query returns: the dictionary with the keys
    "name" and "congratulation_date". *)
Record Upcoming := mkUpcoming {
  up_name : str;
  up_congratulation_date : str
}.

(** The body of the loop of [get_upcoming_birthdays] for one record;
    [upcoming_birthdays] is the list built so far. *)
Definition upcoming_step (today : date) (record : ContactRecord)
  (upcoming_birthdays : list Upcoming) : result (list Upcoming) :=
  match birthday record with
  | None => Ok upcoming_birthdays
  | Some b =>
      let birthday_str := strftime_dmY (Birthday_date b) in
      bday <- strptime_dmY birthday_str ;;
      birthday_this_year <- replace_year bday (year today) ;;
      birthday_this_year <-
        (if date_ltb birthday_this_year today
         then replace_year birthday_this_year (year today + 1)
         else Ok birthday_this_year) ;;
      let days_diffrence := days_between birthday_this_year today in
      if (0 <=? days_diffrence) && (days_diffrence <=? 7) then
        let congratulation_date := birthday_this_year in
        congratulation_date <-
          (if weekday congratulation_date =? 5
           then add_days congratulation_date 2
           else if weekday congratulation_date =? 6
           then add_days congratulation_date 1
           else Ok congratulation_date) ;;
        Ok (upcoming_birthdays
              ++ [mkUpcoming (Name_value (name record))
                             (strftime_dmY congratulation_date)])
      else Ok upcoming_birthdays
  end.

Fixpoint upcoming_loop (today : date) (records : list ContactRecord)
  (upcoming_birthdays : list Upcoming) : result (list Upcoming) :=
  match records with
  | [] => Ok upcoming_birthdays
  | record :: rest =>
      acc <- upcoming_step today record upcoming_birthdays ;;
      upcoming_loop today rest acc
  end.

(** [today] is what [datetime.today().date()] reads from the clock. *)
Definition get_upcoming_birthdays (today : date) (self : AddressBook)
  : result (list Upcoming) :=
  upcoming_loop today (values self) [].

(** ** Commands

    A command receives the argument list and the address book and returns a
    string; it may mutate the address book, and what it did before an
    exception stays done.  A record object is reached through the entry of
    the address book that holds it, so a method that mutates the record
    rewrites that entry in place. *)

Definition outcome := (result str * AddressBook)%type.

(** The decorator: [except (KeyError, ValueError, IndexError) as e]. *)
Definition input_error (func : AddressBook -> outcome)
  : AddressBook -> outcome := fun book =>
  match func book with
  | (Ok s, book') => (Ok s, book')
  | (Err e, book') =>
      match kind e with
      | KeyError | ValueError | IndexError =>
          (Ok (py "Error: " ++ message e), book')
      | OverflowError => (Err e, book')
      end
  end.

Definition nl : str := [10].

Definition not_enough_values (expected : string) (got : nat) : exn :=
  Raise ValueError
    (py "not enough values to unpack (expected " ++ py expected
     ++ py ", got " ++ str_of_int (Z.of_nat got) ++ py ")").

Definition too_many_values (expected : string) : exn :=
  Raise ValueError
    (py "too many values to unpack (expected " ++ py expected ++ py ")").

Definition list_index_out_of_range : exn :=
  Raise IndexError (py "list index out of range").

(** The record object held under [key] after a call of a mutating method
    that produced [r]: replaced on success, untouched on an exception. *)
Definition mutated (key : str) (r : result ContactRecord)
  (message : str) (book : AddressBook) : outcome :=
  match r with
  | Ok record' => (Ok message, dict_set key record' book)
  | Err e => (Err e, book)
  end.

Definition add_contact_body (args : list str) (book : AddressBook)
  : outcome :=
  match args with
  | nm :: phone :: _ =>
      match find nm book with
      | Some record =>
          let message := py "Contact updated." in
          match phone with
          | [] => (Ok message, book)
          | _ => mutated nm (add_phone record phone) message book
          end
      | None =>
          match Record_init nm with
          | Err e => (Err e, book)
          | Ok record =>
              let book := add_record record book in
              let message := py "Contact added." in
              match phone with
              | [] => (Ok message, book)
              | _ =>
                  mutated (Name_value (name record))
                          (add_phone record phone) message book
              end
          end
      end
  | _ =>
      (Err (not_enough_values "at least 2" (List.length args)), book)
  end.

Definition add_contact (args : list str) := input_error (add_contact_body args).

Definition change_contact_body (args : list str) (book : AddressBook)
  : outcome :=
  match args with
  | [nm; old; new] =>
      match find nm book with
      | None => (Ok (py "Contact not found."), book)
      | Some record =>
          mutated nm
            (r <- edit_phone record old new ;; Ok (fst r))
            (py "Phone number updated.") book
      end
  | _ :: _ :: _ :: _ :: _ => (Err (too_many_values "3"), book)
  | _ => (Err (not_enough_values "3" (List.length args)), book)
  end.

Definition change_contact (args : list str) :=
  input_error (change_contact_body args).

Definition show_phones_body (args : list str) (book : AddressBook)
  : outcome :=
  match args with
  | nm :: _ =>
      match find nm book with
      | Some record =>
          (Ok (py "Phone numbers for " ++ nm ++ py ": "
               ++ join (py ", ") (map Phone_value (phones record))), book)
      | None => (Ok (py "Contact not found."), book)
      end
  | [] => (Err list_index_out_of_range, book)
  end.

Definition show_phones (args : list str) :=
  input_error (show_phones_body args).

Definition show_all_body (book : AddressBook) : outcome :=
  match join nl (map Record_str (values book)) with
  | [] => (Ok (py "Address book is empty."), book)
  | s => (Ok s, book)
  end.

Definition show_all := input_error show_all_body.

Definition add_birthday_body (args : list str) (book : AddressBook)
  : outcome :=
  match args with
  | [nm; date_str] =>
      match find nm book with
      | None => (Ok (py "Contact not found."), book)
      | Some record =>
          mutated nm (add_birthday_to record date_str)
                  (py "Birthday added.") book
      end
  | _ :: _ :: _ :: _ => (Err (too_many_values "2"), book)
  | _ => (Err (not_enough_values "2" (List.length args)), book)
  end.

Definition add_birthday (args : list str) :=
  input_error (add_birthday_body args).

Definition show_birthday_body (args : list str) (book : AddressBook)
  : outcome :=
  match args with
  | nm :: _ =>
      match find nm book with
      | None => (Ok (py "Contact not found."), book)
      | Some record =>
          match birthday record with
          | None => (Ok (py "Birthday not set."), book)
          | Some b =>
              (Ok (nm ++ py "'s birthday: " ++ Birthday_value b), book)
          end
      end
  | [] => (Err list_index_out_of_range, book)
  end.

Definition show_birthday (args : list str) :=
  input_error (show_birthday_body args).

Definition birthdays_body (today : date) (args : list str)
  (book : AddressBook) : outcome :=
  match get_upcoming_birthdays today book with
  | Err e => (Err e, book)
  | Ok [] => (Ok (py "No upcoming birthdays this week."), book)
  | Ok upcoming =>
      let result :=
        fold_left
          (fun result user =>
             result ++ up_name user ++ py " - "
             ++ up_congratulation_date user ++ nl)
          upcoming (py "Upcoming birthdays:" ++ nl) in
      (Ok (strip result), book)
  end.

Definition birthdays (today : date) (args : list str) :=
  input_error (birthdays_body today args).

(** ** The interpreter *)

(** [s.split()]: the maximal runs of characters that are not white space. *)
Fixpoint split (s : str) : list str :=
  match s with
  | [] => []
  | c :: s' =>
      if isspace c then split s'
      else
        match s' with
        | [] => [[c]]
        | c' :: _ =>
            if isspace c' then [c] :: split s'
            else
              match split s' with
              | w :: ws => (c :: w) :: ws
              | [] => [[c]]
              end
        end
  end.

(** [parts[0], parts[1:]] of the split line; [parts[0]] of an empty list
    raises [IndexError]. *)
Definition parse_input (user_input : str) : result (str * list str) :=
  match split (strip user_input) with
  | [] => Err list_index_out_of_range
  | command :: args => Ok (command, args)
  end.

(** One turn of the loop of [main] on the line that [input] returned: the
    line it prints and the address book it goes on with, the end of the loop
    after "Good bye!", or an exception that nothing catches. *)
Inductive turn :=
| Continue (printed : str) (book : AddressBook)
| Break (printed : str)
| Uncaught (e : exn) (book : AddressBook).

Definition print_result (o : outcome) : turn :=
  match o with
  | (Ok s, book) => Continue s book
  | (Err e, book) => Uncaught e book
  end.

Definition main_turn (today : date) (user_input : str) (book : AddressBook)
  : turn :=
  match parse_input user_input with
  | Err e => Uncaught e book
  | Ok (command, args) =>
      if str_eqb command (py "close") || str_eqb command (py "exit") then
        Break (py "Good bye!")
      else if str_eqb command (py "hello") then
        Continue (py "How can I help you?") book
      else if str_eqb command (py "add") then
        print_result (add_contact args book)
      else if str_eqb command (py "change") then
        print_result (change_contact args book)
      else if str_eqb command (py "phone") then
        print_result (show_phones args book)
      else if str_eqb command (py "all") then
        print_result (show_all book)
      else if str_eqb command (py "add-birthday") then
        print_result (add_birthday args book)
      else if str_eqb command (py "show-birthday") then
        print_result (show_birthday args book)
      else if str_eqb command (py "birthdays") then
        print_result (birthdays today args book)
      else Continue (py "Invalid command.") book
  end.

(** How a run of [main] stands once the lines typed so far are used up. *)
Inductive run_state :=
| Waiting (book : AddressBook)
| Finished
| Failed (e : exn).

(** The loop of [main] on the lines that [input] returns, one after the
    other: the lines printed and the state reached.  [today] is the date of
    the clock during the run. *)
Fixpoint main_loop (today : date) (inputs : list str) (book : AddressBook)
  : list str * run_state :=
  match inputs with
  | [] => ([], Waiting book)
  | user_input :: rest =>
      match main_turn today user_input book with
      | Continue printed book' =>
          let (out, st) := main_loop today rest book' in
          (printed :: out, st)
      | Break printed => ([printed], Finished)
      | Uncaught e _ => ([], Failed e)
      end
  end.

Definition main (today : date) (inputs : list str) : list str * run_state :=
  let (out, st) := main_loop today inputs [] in
  (py "Welcome to the assistant bot!" :: out, st).

(** * Vocabulary of the properties *)

(** What stripping the non-digits of a text leaves: the digits of the text,
    each kept, in their order. *)
Inductive digits_of : str -> str -> Prop :=
| digits_nil : digits_of [] []
| digits_keep c s t :
    isdigit c = true -> digits_of s t -> digits_of (c :: s) (c :: t)
| digits_drop c s t :
    isdigit c = false -> digits_of s t -> digits_of (c :: s) t.


(** A date that the [date] constructor accepts. *)
Definition date_ok (d : date) : bool :=
  (MINYEAR <=? year d) && (year d <=? MAXYEAR)
  && ((1 <=? month d) && (month d <=? 12))
  && ((1 <=? day d) && (day d <=? days_in_month (year d) (month d))).

(** The month and the day that [ord2ymd] finds for the day [n] (counted from
    0) of a year, and the check that they are the right ones. *)
Definition month_day (leapyear : bool) (n : Z) : Z * Z :=
  let m := Z.shiftr (n + 50) 5 in
  let preceding :=
    index DAYS_BEFORE_MONTH m + (if (2 <? m) && leapyear then 1 else 0) in
  if n <? preceding then
    let m := m - 1 in
    let preceding :=
      preceding
      - (index DAYS_IN_MONTH m + (if (m =? 2) && leapyear then 1 else 0)) in
    (m, n - preceding + 1)
  else (m, n - preceding + 1).

Definition month_day_ok (leapyear : bool) (n : Z) : bool :=
  let (m, d) := month_day leapyear n in
  (1 <=? m) && (m <=? 12) && (1 <=? d)
  && (d <=? (if (m =? 2) && leapyear then 29 else index DAYS_IN_MONTH m))
  && (index DAYS_BEFORE_MONTH m + (if (2 <? m) && leapyear then 1 else 0) + d
      =? n + 1).

(** The code point of a one-character ASCII literal. *)
Definition ch (s : string) : char := hd 0 (py s).

(** [c] is the ASCII digit of the value [v], which lies between [lo] and
    [hi]. *)
Definition ascii_digit (c : char) (lo hi v : Z) : Prop :=
  c = ch "0" + v /\ lo <= v <= hi.

(** The texts that [strptime] reads as a day, a month and a year, with the
    number each stands for. *)
Inductive day_field : str -> Z -> Prop :=
| day_thirties c v :
    ascii_digit c 0 1 v -> day_field [ch "3"; c] (30 + v)
| day_tens c1 t c2 v :
    ascii_digit c1 1 2 t -> decimal c2 = Some v ->
    day_field [c1; c2] (10 * t + v)
| day_zero c v : ascii_digit c 1 9 v -> day_field [ch "0"; c] v
| day_single c v : ascii_digit c 1 9 v -> day_field [c] v
| day_space c v : ascii_digit c 1 9 v -> day_field [ch " "; c] v.

Inductive month_field : str -> Z -> Prop :=
| month_tens c v : ascii_digit c 0 2 v -> month_field [ch "1"; c] (10 + v)
| month_zero c v : ascii_digit c 1 9 v -> month_field [ch "0"; c] v
| month_single c v : ascii_digit c 1 9 v -> month_field [c] v.

Inductive year_field : str -> Z -> Prop :=
| year_four c1 c2 c3 c4 v1 v2 v3 v4 :
    decimal c1 = Some v1 -> decimal c2 = Some v2 ->
    decimal c3 = Some v3 -> decimal c4 = Some v4 ->
    year_field [c1; c2; c3; c4] (1000 * v1 + 100 * v2 + 10 * v3 + v4).

(** A text that [Birthday] accepts, with the date it stands for. *)
Definition birthday_text (text : str) (d : date) : Prop :=
  exists dt mt yt,
    text = dt ++ py "." ++ mt ++ py "." ++ yt
    /\ day_field dt (day d) /\ month_field mt (month d)
    /\ year_field yt (year d) /\ date_ok d = true.

(** The code points that [str.isspace] accepts. *)
Definition whitespace : list char :=
  [9; 10; 11; 12; 13; 28; 29; 30; 31; 32; 133; 160; 5760; 8192; 8193; 8194;
   8195; 8196; 8197; 8198; 8199; 8200; 8201; 8202; 8232; 8233; 8239; 8287;
   12288].

(** The text DD.MM.YYYY of a date: two digits, a dot, two digits, a dot and
    four digits. *)
Definition digit (v : Z) : char := ch "0" + v.

Definition dd_mm_yyyy (d : date) : str :=
  [digit (day d / 10); digit (day d mod 10); ch ".";
   digit (month d / 10); digit (month d mod 10); ch ".";
   digit (year d / 1000); digit (year d / 100 mod 10);
   digit (year d / 10 mod 10); digit (year d mod 10)].

(** The anniversary of a birthday as seen from [today]: its month and day in
    the year of [today], or in the year after when that falls strictly before
    [today].  (Month and day need not exist in that year.) *)
Definition anniversary (today b : date) : date :=
  let this_year := mkdate (year today) (month b) (day b) in
  if date_ltb this_year today
  then mkdate (year today + 1) (month b) (day b)
  else this_year.

(** The days by which a congratulation moves off the weekend: two from a
    Saturday (weekday 5), one from a Sunday (weekday 6). *)
Definition weekend_shift (w : Z) : Z :=
  if w =? 5 then 2 else if w =? 6 then 1 else 0.

(** What the loop does for a record once its anniversary [a] is known. *)
Definition congratulate (today : date) (record : ContactRecord)
  (acc : list Upcoming) (a : date) : result (list Upcoming) :=
  if (0 <=? days_between a today) && (days_between a today <=? 7) then
    c <- (if weekday a =? 5 then add_days a 2
          else if weekday a =? 6 then add_days a 1 else Ok a) ;;
    Ok (acc ++ [mkUpcoming (Name_value (name record)) (strftime_dmY c)])
  else Ok acc.

(** Records and address books of the examples. *)

Definition two_phones : ContactRecord :=
  mkRecord (mkName (py "Ann"))
           [mkPhone (py "1111111111"); mkPhone (py "2222222222")] None.

Definition three_phones : ContactRecord :=
  mkRecord (mkName (py "Ann"))
    [mkPhone (py "1111111111"); mkPhone (py "2222222222");
     mkPhone (py "1111111111")] None.

Definition ann_with_birthday (text : string) (d : date) : ContactRecord :=
  mkRecord (mkName (py "Ann")) [] (Some (mkBirthday d (py text))).

Definition bob_with_birthday (text : string) (d : date) : ContactRecord :=
  mkRecord (mkName (py "Bob")) [] (Some (mkBirthday d (py text))).

(** The commands on an argument list, each as the function the decorator
    wraps and as the decorated function. *)
Definition commands (today : date) (args : list str)
  : list ((AddressBook -> outcome) * (AddressBook -> outcome)) :=
  [ (add_contact_body args, add_contact args);
    (change_contact_body args, change_contact args);
    (show_phones_body args, show_phones args);
    (show_all_body, show_all);
    (add_birthday_body args, add_birthday args);
    (show_birthday_body args, show_birthday args);
    (birthdays_body today args, birthdays today args) ].

(** A decorated command returns a string, and the string is the error text
    whenever the wrapped function raises. *)
Definition returns_string (book : AddressBook)
  (c : (AddressBook -> outcome) * (AddressBook -> outcome)) : Prop :=
  (exists s book', snd c book = (Ok s, book'))
  /\ (forall e book',
         fst c book = (Err e, book') ->
         snd c book = (Ok (py "Error: " ++ message e), book')).

Definition ann_book : AddressBook := [(py "Ann", two_phones)].

(** A phone as [Phone] builds it: ten characters, all of them digits. *)
Definition phone_ok (p : Phone) : Prop :=
  List.length (Phone_value p) = 10%nat
  /\ forallb isdigit (Phone_value p) = true.

(** A birthday as [Birthday] builds it: the text it was given, with the
    date the text stands for. *)
Definition birthday_ok (b : Birthday) : Prop :=
  birthday_text (Birthday_value b) (Birthday_date b).

(** A record as the methods of [Record] leave it. *)
Definition record_ok (r : ContactRecord) : Prop :=
  Name_value (name r) <> []
  /\ Forall phone_ok (phones r)
  /\ (forall b, birthday r = Some b -> birthday_ok b).

(** An address book as the commands leave it: every key once, every record
    under its own name. *)
Definition book_ok (book : AddressBook) : Prop :=
  NoDup (keys book)
  /\ Forall (fun kv => Name_value (name (snd kv)) = fst kv
                       /\ record_ok (snd kv)) book.

(** A word of a line: not empty and without white space. *)
Definition word (w : str) : Prop :=
  w <> [] /\ forallb (fun c => negb (isspace c)) w = true.

(** An entry of the query's answer for an address book: the name of one of
    its records, and as DD.MM.YYYY a working day from 0 to 9 days after
    [today]. *)
Definition entry_ok (today : date) (book : AddressBook) (e : Upcoming)
  : Prop :=
  exists r c,
    In r (values book)
    /\ up_name e = Name_value (name r)
    /\ up_congratulation_date e = dd_mm_yyyy c
    /\ date_ok c = true
    /\ 0 <= weekday c <= 4
    /\ 0 <= days_between c today <= 9.

(** A record without birthday, or with a birthday of the calendar. *)
Definition birthday_valid (r : ContactRecord) : Prop :=
  forall b, birthday r = Some b -> date_ok (Birthday_date b) = true.

(** A record without birthday, or with a birthday of the calendar in a
    year of four digits, other than 29 February. *)
Definition birthday_plain (r : ContactRecord) : Prop :=
  forall b, birthday r = Some b ->
            date_ok (Birthday_date b) = true
            /\ 1000 <= year (Birthday_date b)
            /\ ~ (month (Birthday_date b) = 2 /\ day (Birthday_date b) = 29).

Definition has_birthday (kv : str * ContactRecord) : bool :=
  match birthday (snd kv) with Some _ => true | None => false end.

(** A candidate of the query: a record with a birthday whose anniversary is
    a date of the calendar from 0 to 7 days after [today]. *)
Definition candidate (today : date) (r : ContactRecord) : bool :=
  match birthday r with
  | Some b =>
      let a := anniversary today (Birthday_date b) in
      date_ok a && (0 <=? days_between a today) && (days_between a today <=? 7)
  | None => false
  end.

(** The pair that congratulates a record: its name and, as DD.MM.YYYY, the
    date [c] that is the anniversary [a] of its birthday moved on by two days
    from a Saturday, by one day from a Sunday, and [a] itself otherwise. *)
Definition congratulation (today : date) (r : ContactRecord) (e : Upcoming)
  : Prop :=
  exists b c,
    birthday r = Some b
    /\ date_ok c = true
    /\ toordinal c
       = toordinal (anniversary today (Birthday_date b))
         + weekend_shift (weekday (anniversary today (Birthday_date b)))
    /\ (weekend_shift (weekday (anniversary today (Birthday_date b))) = 0 ->
        c = anniversary today (Birthday_date b))
    /\ e = mkUpcoming (Name_value (name r)) (dd_mm_yyyy c).

(** A record with a birthday whose anniversary is at most 7 days after
    [today]. *)
Definition within_week (today : date) (r : ContactRecord) : bool :=
  match birthday r with
  | Some b => days_between (anniversary today (Birthday_date b)) today <=? 7
  | None => false
  end.

(** * Properties *)

(** ** Strings and lists *)

Lemma str_eqb_eq (a b : str) : str_eqb a b = true <-> a = b.
Proof.
  revert b; induction a as [|x a IH]; intros [|y b]; simpl;
    try (split; [discriminate | congruence]); try tauto.
  rewrite andb_true_iff, Z.eqb_eq, IH.
  split; [intros [-> ->]; reflexivity | intros [= -> ->]; auto].
Qed.

Lemma str_eqb_refl (a : str) : str_eqb a a = true.
Proof. apply str_eqb_eq; reflexivity. Qed.

Lemma str_eqb_neq (a b : str) : str_eqb a b = false <-> a <> b.
Proof.
  rewrite <- str_eqb_eq; destruct (str_eqb a b); split;
    congruence.
Qed.

(** ** Phone *)

Lemma re_sub_non_digits_spec (s : str) : digits_of s (re_sub_non_digits s).
Proof.
  induction s as [|c s IH]; simpl; [constructor|].
  destruct (isdigit c) eqn:E; constructor; assumption.
Qed.

Lemma digits_of_fun (s t : str) : digits_of s t -> t = re_sub_non_digits s.
Proof.
  induction 1 as [|c s t E _ IH|c s t E _ IH]; simpl; try rewrite E; congruence.
Qed.

(** C4: Phone construction strips the non-digits of the text, fails with
    InvalidPhone exactly when the digits left are not 10, and otherwise
    holds these 10 digits; "(123) 456-7890" gives "1234567890" and "12345"
    fails. *)
Theorem Phone_init_spec :
  (forall text : str,
      exists digits : str,
        digits_of text digits /\
        ((List.length digits <> 10%nat /\ Phone_init text = Err InvalidPhone)
         \/ (List.length digits = 10%nat
             /\ Phone_init text = Ok (mkPhone digits))))
  /\ Phone_init (py "(123) 456-7890") = Ok (mkPhone (py "1234567890"))
  /\ Phone_init (py "12345") = Err InvalidPhone.
Proof.
  split; [|split; reflexivity].
  intros text. exists (re_sub_non_digits text).
  split; [apply re_sub_non_digits_spec|].
  unfold Phone_init, is_valid.
  destruct (Z.eqb_spec (Z.of_nat (List.length (re_sub_non_digits text))) 10)
    as [E|E]; simpl; [right | left]; split; auto; lia.
Qed.

(** ** Record *)

Lemma find_enumerate_none {A} (f : A -> bool) (l : list A) (i : nat) :
  List.find (fun ip => f (snd ip)) (enumerate_from i l) = None <->
  (forall x, In x l -> f x = false).
Proof.
  revert i; induction l as [|x l IH]; intros i; simpl.
  - split; [intros _ y [] | reflexivity].
  - destruct (f x) eqn:E.
    + split; [discriminate|]. intros H. specialize (H x (or_introl eq_refl)).
      congruence.
    + rewrite IH. split.
      * intros H y [<-|Hy]; auto.
      * intros H y Hy; apply H; right; assumption.
Qed.

Lemma find_enumerate_first {A} (f : A -> bool) (before after : list A)
  (x : A) (i : nat) :
  (forall y, In y before -> f y = false) -> f x = true ->
  List.find (fun ip => f (snd ip)) (enumerate_from i (before ++ x :: after))
  = Some ((i + List.length before)%nat, x).
Proof.
  revert i; induction before as [|y before IH]; intros i Hb Hx; simpl.
  - rewrite Hx, Nat.add_0_r; reflexivity.
  - rewrite (Hb y (or_introl eq_refl)).
    rewrite IH; auto.
    + f_equal; f_equal; lia.
    + intros z Hz; apply Hb; right; assumption.
Qed.

Lemma setitem_middle {A} (before after : list A) (x y : A) :
  setitem (before ++ x :: after) (List.length before) y = before ++ y :: after.
Proof. induction before as [|z before IH]; simpl; congruence. Qed.

(** C6: [edit_phone] fails with PhoneNotFound exactly when no phone of the
    record equals the digits of the old text; otherwise the first phone that
    equals them is replaced by the Phone built from the new text, whose
    failure is the failure of the edit, and every other phone keeps its
    value and place. *)
Theorem edit_phone_spec :
  (forall (self : ContactRecord) (old_text new_text : str),
      let clean_old := re_sub_non_digits old_text in
      ((forall p, In p (phones self) -> Phone_value p <> clean_old) <->
       edit_phone self old_text new_text = Err PhoneNotFound)
      /\
      (forall before p after,
          phones self = before ++ p :: after ->
          (forall q, In q before -> Phone_value q <> clean_old) ->
          Phone_value p = clean_old ->
          edit_phone self old_text new_text =
          match Phone_init new_text with
          | Ok new_phone =>
              Ok (set_phones self (before ++ new_phone :: after), true)
          | Err e => Err e
          end))
  /\ edit_phone two_phones (py "111-111-1111") (py "3333333333")
     = Ok (set_phones two_phones
             [mkPhone (py "3333333333"); mkPhone (py "2222222222")], true)
  /\ edit_phone
       (set_phones two_phones
          [mkPhone (py "3333333333"); mkPhone (py "2222222222")])
       (py "1111111111") (py "3333333333")
     = Err PhoneNotFound
  /\ edit_phone two_phones (py "1111111111") (py "12345") = Err InvalidPhone.
Proof.
  split; [|repeat split; reflexivity].
  intros self old_text new_text clean_old.
  assert (Hfirst : forall before p after,
             phones self = before ++ p :: after ->
             (forall q, In q before -> Phone_value q <> clean_old) ->
             Phone_value p = clean_old ->
             edit_phone self old_text new_text =
             match Phone_init new_text with
             | Ok new_phone =>
                 Ok (set_phones self (before ++ new_phone :: after), true)
             | Err e => Err e
             end).
  { intros before p after Hphones Hbefore Hp.
    unfold edit_phone, enumerate. fold clean_old. rewrite Hphones.
    rewrite (find_enumerate_first
               (fun ph => str_eqb (Phone_value ph) clean_old)).
    - simpl. destruct (Phone_init new_text); simpl; [|reflexivity].
      rewrite setitem_middle; reflexivity.
    - intros q Hq. apply str_eqb_neq. auto.
    - apply str_eqb_eq; assumption. }
  split; [|exact Hfirst].
  split.
  - intros Hnone. unfold edit_phone, enumerate. fold clean_old.
    assert (E : List.find
                  (fun ip => str_eqb (Phone_value (snd ip)) clean_old)
                  (enumerate_from 0 (phones self)) = None).
    { apply (find_enumerate_none
               (fun ph => str_eqb (Phone_value ph) clean_old)).
      intros p Hp. apply str_eqb_neq. auto. }
    rewrite E; reflexivity.
  - intros Herr p Hp Hval.
    (* some phone matches: split the list at the first one *)
    assert (Hsplit : exists before q after,
               phones self = before ++ q :: after /\
               (forall x, In x before -> Phone_value x <> clean_old) /\
               Phone_value q = clean_old).
    { clear Herr Hfirst. induction (phones self) as [|x l IH]; [destruct Hp|].
      destruct (str_eqb (Phone_value x) clean_old) eqn:E.
      - exists [], x, l. split; [reflexivity|].
        split; [intros ? []|apply str_eqb_eq; assumption].
      - destruct Hp as [->|Hp].
        + apply str_eqb_neq in E; contradiction.
        + destruct (IH Hp) as (before & q & after & -> & Hb & Hq).
          exists (x :: before), q, after. split; [reflexivity|].
          split; [|assumption].
          intros y [<-|Hy]; [apply str_eqb_neq; assumption|auto]. }
    destruct Hsplit as (before & q & after & Hphones & Hb & Hq).
    rewrite (Hfirst _ _ _ Hphones Hb Hq) in Herr.
    unfold Phone_init in Herr.
    destruct (negb (is_valid (re_sub_non_digits new_text)));
      discriminate Herr.
Qed.




(** ** AddressBook *)

Lemma dict_get_set_same (k : str) (v : ContactRecord) (d : AddressBook) :
  dict_get k (dict_set k v d) = Some v.
Proof.
  induction d as [|[k' v'] d IH]; simpl.
  - rewrite str_eqb_refl; reflexivity.
  - destruct (str_eqb k' k) eqn:E; simpl; rewrite E; auto.
Qed.

Lemma dict_get_set_other (k k0 : str) (v : ContactRecord) (d : AddressBook) :
  k0 <> k -> dict_get k0 (dict_set k v d) = dict_get k0 d.
Proof.
  intros Hne. induction d as [|[k' v'] d IH]; simpl.
  - destruct (str_eqb k k0) eqn:E; [|reflexivity].
    apply str_eqb_eq in E; congruence.
  - destruct (str_eqb k' k) eqn:E; simpl.
    + apply str_eqb_eq in E; subst k'.
      destruct (str_eqb k k0) eqn:E0; [|reflexivity].
      apply str_eqb_eq in E0; congruence.
    + rewrite IH; reflexivity.
Qed.

Lemma dict_get_none (k : str) (d : AddressBook) :
  dict_get k d = None <-> ~ In k (keys d).
Proof.
  induction d as [|[k' v'] d IH]; simpl.
  - tauto.
  - destruct (str_eqb k' k) eqn:E.
    + apply str_eqb_eq in E. split; [discriminate | intros H; tauto].
    + apply str_eqb_neq in E. rewrite IH. tauto.
Qed.

Lemma dict_set_absent (k : str) (v : ContactRecord) (d : AddressBook) :
  dict_get k d = None -> dict_set k v d = d ++ [(k, v)].
Proof.
  induction d as [|[k' v'] d IH]; simpl; [reflexivity|].
  destruct (str_eqb k' k); [discriminate|].
  intros H; rewrite IH; auto.
Qed.

Lemma dict_set_present (k : str) (v : ContactRecord) (d : AddressBook) :
  dict_get k d <> None -> keys (dict_set k v d) = keys d.
Proof.
  induction d as [|[k' v'] d IH]; simpl; [congruence|].
  destruct (str_eqb k' k); simpl; [reflexivity|].
  intros H; rewrite IH; auto.
Qed.

Lemma dict_set_In (k : str) (v v0 : ContactRecord) (d : AddressBook) :
  NoDup (keys d) -> In (k, v0) (dict_set k v d) -> v0 = v.
Proof.
  induction d as [|[k' v'] d IH]; simpl; intros ND Hin.
  - destruct Hin as [[= <-]|[]]; reflexivity.
  - inversion ND as [|? ? Hnot ND']; subst.
    destruct (str_eqb k' k) eqn:E; simpl in Hin.
    + apply str_eqb_eq in E; subst k'.
      destruct Hin as [[= <-]|Hin]; [reflexivity|].
      exfalso; apply Hnot. apply (in_map fst) in Hin; exact Hin.
    + apply str_eqb_neq in E.
      destruct Hin as [[= -> _]|Hin]; [congruence|auto].
Qed.

Lemma dict_set_keys (k : str) (v : ContactRecord) (d : AddressBook) :
  forall k0, In k0 (keys (dict_set k v d)) -> k0 = k \/ In k0 (keys d).
Proof.
  induction d as [|[k' v'] d IH]; simpl; intros k0 H.
  - destruct H as [<-|[]]; auto.
  - destruct (str_eqb k' k); simpl in H; [auto|].
    destruct H as [<-|H]; [auto|].
    destruct (IH k0 H); auto.
Qed.

Lemma dict_set_NoDup (k : str) (v : ContactRecord) (d : AddressBook) :
  NoDup (keys d) -> NoDup (keys (dict_set k v d)).
Proof.
  induction d as [|[k' v'] d IH]; simpl; intros ND.
  - constructor; [intros [] | constructor].
  - inversion ND as [|? ? Hnot ND']; subst.
    destruct (str_eqb k' k) eqn:E; simpl; [constructor; assumption|].
    constructor; [|auto].
    intros Hin. apply dict_set_keys in Hin. destruct Hin as [->|Hin].
    + rewrite str_eqb_refl in E; discriminate.
    + contradiction.
Qed.

(** C8: after [add_record r] the lookup of [r]'s name returns [r] itself,
    the entry under that key holds nothing of an earlier record, every key
    still occurs once, and the other keys are untouched. *)
Theorem add_record_find (book : AddressBook) (r : ContactRecord) :
  NoDup (keys book) ->
  let key := Name_value (name r) in
  let book' := add_record r book in
  find key book' = Some r
  /\ (forall r', In (key, r') book' -> r' = r)
  /\ NoDup (keys book')
  /\ (forall k, k <> key -> find k book' = find k book).
Proof.
  intros ND key book'. unfold book', add_record, find. fold key.
  split; [apply dict_get_set_same|].
  split; [intros r'; apply dict_set_In; assumption|].
  split; [apply dict_set_NoDup; assumption|].
  intros k Hk; apply dict_get_set_other; assumption.
Qed.

Lemma add_record_find_witness :
  NoDup (keys [(py "Ann", two_phones); (py "Bob", two_phones)])
  /\ find (py "Ann")
       (add_record three_phones
          [(py "Ann", two_phones); (py "Bob", two_phones)])
     = Some three_phones.
Proof.
  assert (ND : NoDup (keys [(py "Ann", two_phones); (py "Bob", two_phones)])).
  { repeat constructor; simpl; intuition discriminate. }
  split; [exact ND|].
  exact (proj1 (add_record_find
                  [(py "Ann", two_phones); (py "Bob", two_phones)]
                  three_phones ND)).
Defined.

(** ** The add command *)

(** C10, as the code has it: with a name and a phone text that are not
    empty, a name the address book does not hold and a phone text whose
    digits are not 10, the add command returns the error string of the
    phone validation and leaves the address book with a new record under the
    name, without phones and without a birthday. *)
Theorem add_contact_not_atomic (book : AddressBook) (N phone : str)
  (rest : list str) :
  N <> [] -> phone <> [] ->
  find N book = None ->
  List.length (re_sub_non_digits phone) <> 10%nat ->
  let fresh := mkRecord (mkName N) [] None in
  add_contact (N :: phone :: rest) book
  = (Ok (py "Error: " ++ message InvalidPhone), book ++ [(N, fresh)])
  /\ find N (book ++ [(N, fresh)]) = Some fresh.
Proof.
  intros HN Hphone Hfind Hlen fresh.
  assert (Hset : add_record fresh book = book ++ [(N, fresh)]).
  { unfold add_record; simpl. apply dict_set_absent; exact Hfind. }
  split.
  - unfold add_contact, input_error, add_contact_body. rewrite Hfind.
    destruct N as [|c N]; [congruence|].
    change (Record_init (c :: N)) with (Ok fresh). cbv iota beta.
    rewrite Hset.
    destruct phone as [|p phone]; [congruence|].
    unfold add_phone, Phone_init, is_valid.
    destruct (Z.eqb_spec
                (Z.of_nat (List.length (re_sub_non_digits (p :: phone)))) 10)
      as [E|E]; [lia|].
    reflexivity.
  - rewrite <- Hset. unfold add_record, find; simpl.
    apply dict_get_set_same.
Qed.

Lemma add_contact_not_atomic_witness :
  py "Bob" <> [] /\ py "12345" <> []
  /\ find (py "Bob") [(py "Ann", two_phones)] = None
  /\ List.length (re_sub_non_digits (py "12345")) <> 10%nat
  /\ add_contact [py "Bob"; py "12345"] [(py "Ann", two_phones)]
     = (Ok (py "Error: Phone number must contain exactly 10 digits."),
        [(py "Ann", two_phones);
         (py "Bob", mkRecord (mkName (py "Bob")) [] None)])
  /\ find (py "Bob")
       [(py "Ann", two_phones);
        (py "Bob", mkRecord (mkName (py "Bob")) [] None)]
     = Some (mkRecord (mkName (py "Bob")) [] None).
Proof.
  assert (HN : py "Bob" <> []) by discriminate.
  assert (Hp : py "12345" <> []) by discriminate.
  assert (Hf : find (py "Bob") [(py "Ann", two_phones)] = None)
    by reflexivity.
  assert (Hl : List.length (re_sub_non_digits (py "12345")) <> 10%nat)
    by (vm_compute; discriminate).
  repeat (split; [assumption|]).
  exact (add_contact_not_atomic
           [(py "Ann", two_phones)] (py "Bob") (py "12345") [] HN Hp Hf Hl).
Defined.

(** C10 as stated fails for an empty phone text (its digits are not 10, yet
    the validation is skipped and the command reports success) and for an
    empty name (the error comes before anything is stored). *)
Lemma add_contact_empty_texts :
  (find (py "Bob") [] = None
   /\ List.length (re_sub_non_digits []) = 0%nat
   /\ add_contact [py "Bob"; []] []
      = (Ok (py "Contact added."),
         [(py "Bob", mkRecord (mkName (py "Bob")) [] None)]))
  /\ (find [] [] = None
      /\ add_contact [[]; py "12345"] []
         = (Ok (py "Error: Name cannot be empty."), [])).
Proof. repeat split. Qed.

(** ** Dates *)

Ltac bool_to_prop :=
  repeat match goal with
    | H : _ && _ = true |- _ => apply andb_true_iff in H; destruct H
    | H : _ || _ = false |- _ => apply orb_false_iff in H; destruct H
    | H : negb _ = true |- _ => apply negb_true_iff in H
    | H : negb _ = false |- _ => apply negb_false_iff in H
    | H : (_ <=? _) = true |- _ => apply Z.leb_le in H
    | H : (_ <=? _) = false |- _ => apply Z.leb_gt in H
    | H : (_ <? _) = true |- _ => apply Z.ltb_lt in H
    | H : (_ <? _) = false |- _ => apply Z.ltb_ge in H
    | H : (_ =? _) = true |- _ => apply Z.eqb_eq in H
    | H : (_ =? _) = false |- _ => apply Z.eqb_neq in H
    end.

Ltac case_month m :=
  let H := fresh in
  assert (H : m = 1 \/ m = 2 \/ m = 3 \/ m = 4 \/ m = 5 \/ m = 6 \/ m = 7
              \/ m = 8 \/ m = 9 \/ m = 10 \/ m = 11 \/ m = 12) by lia;
  repeat (destruct H as [H|H]); subst m.

Ltac eval_closed t :=
  let v := eval vm_compute in t in
  lazymatch v with
  | true => change t with true
  | false => change t with false
  end.

Ltac eval_tables :=
  repeat match goal with
    | |- context [index ?l ?i] =>
        let v := eval vm_compute in (index l i) in
        change (index l i) with v
    | |- context [?a <? ?b] => eval_closed (a <? b)
    | |- context [?a =? ?b] => eval_closed (a =? b)
    | |- context [?a <=? ?b] => eval_closed (a <=? b)
    end;
  cbn [andb orb negb].

Lemma is_leap_spec (y : Z) :
  is_leap y = true <-> (y mod 4 = 0 /\ (y mod 100 <> 0 \/ y mod 400 = 0)).
Proof.
  unfold is_leap.
  rewrite andb_true_iff, orb_true_iff, negb_true_iff, Z.eqb_neq, !Z.eqb_eq.
  tauto.
Qed.

Lemma div_pred (k y : Z) :
  0 < k -> y / k = (y - 1) / k + (if y mod k =? 0 then 1 else 0).
Proof.
  intros Hk.
  pose proof (Z.div_mod y k ltac:(lia)) as Ey.
  pose proof (Z.mod_pos_bound y k Hk) as By.
  destruct (Z.eqb_spec (y mod k) 0) as [E|E].
  - assert (y / k - 1 = (y - 1) / k)
      by (apply (Z.div_unique (y - 1) k (y / k - 1) (k - 1)); lia).
    lia.
  - assert (y / k = (y - 1) / k)
      by (apply (Z.div_unique (y - 1) k (y / k) (y mod k - 1)); lia).
    lia.
Qed.

Lemma days_before_year_succ (y : Z) :
  days_before_year (y + 1)
  = days_before_year y + 365 + (if is_leap y then 1 else 0).
Proof.
  unfold days_before_year, is_leap.
  replace (y + 1 - 1) with y by lia.
  rewrite (div_pred 4 y), (div_pred 100 y), (div_pred 400 y) by lia.
  pose proof (Z.rem_mul_r y 100 4 ltac:(lia) ltac:(lia)) as R400.
  pose proof (Z.rem_mul_r y 4 25 ltac:(lia) ltac:(lia)) as R100.
  change (100 * 4) with 400 in R400. change (4 * 25) with 100 in R100.
  pose proof (Z.mod_pos_bound (y / 100) 4 ltac:(lia)).
  pose proof (Z.mod_pos_bound (y / 4) 25 ltac:(lia)).
  pose proof (Z.mod_pos_bound y 4 ltac:(lia)).
  pose proof (Z.mod_pos_bound y 100 ltac:(lia)).
  destruct (Z.eqb_spec (y mod 4) 0) as [E4|E4];
    destruct (Z.eqb_spec (y mod 100) 0) as [E100|E100];
    destruct (Z.eqb_spec (y mod 400) 0) as [E400|E400]; simpl; lia.
Qed.

Lemma days_before_year_mono (a b : Z) :
  a <= b -> days_before_year a <= days_before_year b.
Proof.
  unfold days_before_year; intros H.
  pose proof (Z.div_le_mono (a - 1) (b - 1) 4 ltac:(lia) ltac:(lia)).
  pose proof (Z.div_le_mono (a - 1) (b - 1) 400 ltac:(lia) ltac:(lia)).
  pose proof (Z.div_mod (a - 1) 100 ltac:(lia)).
  pose proof (Z.div_mod (b - 1) 100 ltac:(lia)).
  pose proof (Z.mod_pos_bound (a - 1) 100 ltac:(lia)).
  pose proof (Z.mod_pos_bound (b - 1) 100 ltac:(lia)).
  destruct (Z.eq_dec a b) as [->|Hne]; lia.
Qed.

Lemma date_new_inv (y m d : Z) (x : date) :
  date_new y m d = Ok x -> x = mkdate y m d /\ date_ok x = true.
Proof.
  unfold date_new, date_ok.
  destruct ((MINYEAR <=? y) && (y <=? MAXYEAR)) eqn:Ey; simpl;
    [|discriminate].
  destruct ((1 <=? m) && (m <=? 12)) eqn:Em; simpl; [|discriminate].
  destruct ((1 <=? d) && (d <=? days_in_month y m)) eqn:Ed; simpl;
    [|discriminate].
  intros [= <-]; simpl. rewrite Ey, Em, Ed; auto.
Qed.

Lemma date_new_ok (d : date) :
  date_ok d = true -> date_new (year d) (month d) (day d) = Ok d.
Proof.
  unfold date_new, date_ok. intros H.
  apply andb_true_iff in H; destruct H as [H Hd].
  apply andb_true_iff in H; destruct H as [Hy Hm].
  rewrite Hy, Hm, Hd; simpl. destruct d; reflexivity.
Qed.

Lemma date_new_err (y m d : Z) (e : exn) :
  date_new y m d = Err e -> kind e = ValueError.
Proof.
  unfold date_new.
  destruct (negb ((MINYEAR <=? y) && (y <=? MAXYEAR)));
    [intros [= <-]; reflexivity|].
  destruct (negb ((1 <=? m) && (m <=? 12))); [intros [= <-]; reflexivity|].
  destruct (negb ((1 <=? d) && (d <=? days_in_month y m)));
    [intros [= <-]; reflexivity | discriminate].
Qed.

Lemma date_ok_fields (d : date) :
  date_ok d = true ->
  1 <= year d <= 9999 /\ 1 <= month d <= 12
  /\ 1 <= day d <= days_in_month (year d) (month d).
Proof.
  unfold date_ok, MINYEAR, MAXYEAR. intros H. bool_to_prop. lia.
Qed.

Lemma day_of_year_bounds (y m d : Z) :
  1 <= m <= 12 -> 1 <= d <= days_in_month y m ->
  1 <= days_before_month y m + d <= 365 + (if is_leap y then 1 else 0).
Proof.
  intros Hm. unfold days_in_month, days_before_month.
  case_month m; destruct (is_leap y); eval_tables; lia.
Qed.

Lemma toordinal_bounds (d : date) :
  date_ok d = true -> 1 <= toordinal d <= MAXORDINAL.
Proof.
  intros H. apply date_ok_fields in H. destruct H as (Hy & Hm & Hd).
  unfold toordinal, ymd2ord.
  pose proof (day_of_year_bounds _ _ _ Hm Hd) as Hdoy.
  pose proof (days_before_year_succ (year d)) as Hs.
  pose proof (days_before_year_mono 1 (year d) ltac:(lia)) as H1.
  pose proof (days_before_year_mono (year d + 1) 10000 ltac:(lia)) as H2.
  change (days_before_year 1) with 0 in H1.
  change (days_before_year 10000) with 3652059 in H2.
  unfold MAXORDINAL. lia.
Qed.

Lemma month_day_all :
  forallb (fun i => month_day_ok true (Z.of_nat i)
                    && month_day_ok false (Z.of_nat i))
          (seq 0 365) = true.
Proof. vm_compute; reflexivity. Qed.

Lemma month_day_spec (leapyear : bool) (n : Z) :
  0 <= n < 365 -> month_day_ok leapyear n = true.
Proof.
  intros Hn.
  pose proof (proj1 (forallb_forall _ _) month_day_all (Z.to_nat n)) as H.
  cbv beta in H. rewrite Z2Nat.id in H by lia.
  assert (Hin : In (Z.to_nat n) (seq 0 365)) by (apply in_seq; lia).
  specialize (H Hin). apply andb_true_iff in H.
  destruct leapyear; tauto.
Qed.

Lemma days_before_year_cycle (a b c e : Z) :
  0 <= b <= 3 -> 0 <= c <= 24 -> 0 <= e <= 3 ->
  days_before_year (400 * a + 100 * b + 4 * c + e + 1)
  = 146097 * a + 36524 * b + 1461 * c + 365 * e.
Proof.
  intros Hb Hc He. unfold days_before_year.
  replace (400 * a + 100 * b + 4 * c + e + 1 - 1)
    with (400 * a + 100 * b + 4 * c + e) by lia.
  set (Y := 400 * a + 100 * b + 4 * c + e).
  assert (E4 : 100 * a + 25 * b + c = Y / 4)
    by (apply (Z.div_unique Y 4 _ e); subst Y; lia).
  assert (E100 : 4 * a + b = Y / 100)
    by (apply (Z.div_unique Y 100 _ (4 * c + e)); subst Y; lia).
  assert (E400 : a = Y / 400)
    by (apply (Z.div_unique Y 400 _ (100 * b + 4 * c + e)); subst Y; lia).
  rewrite <- E4, <- E100, <- E400. subst Y. lia.
Qed.

Lemma is_leap_cycle (a b c e : Z) :
  0 <= b <= 3 -> 0 <= c <= 24 -> 0 <= e <= 3 ->
  is_leap (400 * a + 100 * b + 4 * c + e + 1)
  = (e =? 3) && (negb (c =? 24) || (b =? 3)).
Proof.
  intros Hb Hc He. unfold is_leap.
  set (y := 400 * a + 100 * b + 4 * c + e + 1).
  assert (M4 : y mod 4 = (e + 1) mod 4).
  { subst y. replace (400 * a + 100 * b + 4 * c + e + 1)
      with (e + 1 + (100 * a + 25 * b + c) * 4) by lia.
    apply Z.mod_add; lia. }
  assert (M100 : y mod 100 = (4 * c + e + 1) mod 100).
  { subst y. replace (400 * a + 100 * b + 4 * c + e + 1)
      with (4 * c + e + 1 + (4 * a + b) * 100) by lia.
    apply Z.mod_add; lia. }
  assert (M400 : y mod 400 = (100 * b + 4 * c + e + 1) mod 400).
  { subst y. replace (400 * a + 100 * b + 4 * c + e + 1)
      with (100 * b + 4 * c + e + 1 + a * 400) by lia.
    apply Z.mod_add; lia. }
  rewrite M4, M100, M400. clearbody y.
  assert (e = 0 \/ e = 1 \/ e = 2 \/ e = 3) as [-> | [-> | [-> | ->]]] by lia;
    try reflexivity.
  change ((3 + 1) mod 4 =? 0) with true.
  change (3 =? 3) with true. cbv beta iota delta [andb].
  destruct (Z.eqb_spec c 24) as [->|Hc24]; cbv beta iota delta [negb orb].
  - change ((4 * 24 + 3 + 1) mod 100 =? 0) with true.
    cbv beta iota delta [negb orb].
    destruct (Z.eqb_spec b 3) as [->|Hb3]; [reflexivity|].
    rewrite Z.mod_small by lia.
    apply Z.eqb_neq. lia.
  - assert (E : ((4 * c + 3 + 1) mod 100 =? 0) = false).
    { apply Z.eqb_neq. rewrite Z.mod_small by lia. lia. }
    rewrite E; reflexivity.
Qed.

Lemma ord2ymd_unfold (n : Z) :
  ord2ymd n =
  let n400 := (n - 1) / DI400Y in
  let r400 := (n - 1) mod DI400Y in
  let n100 := r400 / DI100Y in
  let r100 := r400 mod DI100Y in
  let n4 := r100 / DI4Y in
  let r4 := r100 mod DI4Y in
  let n1 := r4 / 365 in
  let r1 := r4 mod 365 in
  let y := n400 * 400 + 1 + n100 * 100 + n4 * 4 + n1 in
  if (n1 =? 4) || (n100 =? 4) then mkdate (y - 1) 12 31
  else
    let md :=
      month_day ((n1 =? 3) && (negb (n4 =? 24) || (n100 =? 3))) r1 in
    mkdate y (fst md) (snd md).
Proof.
  unfold ord2ymd, month_day. cbv zeta.
  destruct (_ || _); [reflexivity|].
  destruct (_ <? _); reflexivity.
Qed.

(** [ord2ymd] inverts [toordinal] on the ordinals of the calendar. *)
Lemma ord2ymd_spec (n : Z) :
  1 <= n <= MAXORDINAL ->
  date_ok (ord2ymd n) = true /\ toordinal (ord2ymd n) = n.
Proof.
  unfold MAXORDINAL. intros Hn. rewrite ord2ymd_unfold.
  unfold DI400Y, DI100Y, DI4Y. cbv zeta.
  pose proof (Z.div_mod (n - 1) 146097 ltac:(lia)) as E400.
  pose proof (Z.mod_pos_bound (n - 1) 146097 ltac:(lia)) as B400.
  set (a := (n - 1) / 146097) in *. set (r400 := (n - 1) mod 146097) in *.
  pose proof (Z.div_mod r400 36524 ltac:(lia)) as E100.
  pose proof (Z.mod_pos_bound r400 36524 ltac:(lia)) as B100.
  set (b := r400 / 36524) in *. set (r100 := r400 mod 36524) in *.
  pose proof (Z.div_mod r100 1461 ltac:(lia)) as E4.
  pose proof (Z.mod_pos_bound r100 1461 ltac:(lia)) as B4.
  set (c := r100 / 1461) in *. set (r4 := r100 mod 1461) in *.
  pose proof (Z.div_mod r4 365 ltac:(lia)) as E1.
  pose proof (Z.mod_pos_bound r4 365 ltac:(lia)) as B1.
  set (e := r4 / 365) in *. set (r1 := r4 mod 365) in *.
  clearbody a r400 b r100 c r4 e r1.
  assert (Ha : 0 <= a <= 24) by lia.
  assert (Hb : 0 <= b <= 4) by lia.
  assert (Hc : 0 <= c <= 24) by lia.
  assert (He : 0 <= e <= 4) by lia.
  destruct (Z.eqb_spec b 4) as [Eb|Nb].
  { (* the last day of a cycle of 400 years *)
    rewrite orb_true_r.
    assert (c = 0 /\ e = 0 /\ r1 = 0) as (-> & -> & ->) by lia. subst b.
    replace (a * 400 + 1 + 4 * 100 + 0 * 4 + 0 - 1)
      with (400 * a + 100 * 3 + 4 * 24 + 3 + 1) by lia.
    unfold date_ok, toordinal, ymd2ord, days_in_month, days_before_month.
    cbn [year month day].
    rewrite is_leap_cycle, days_before_year_cycle by lia.
    eval_tables. unfold MINYEAR, MAXYEAR. split; [|lia].
    rewrite !andb_true_iff, !Z.leb_le. lia. }
  rewrite orb_false_r.
  destruct (Z.eqb_spec e 4) as [Ee|Ne].
  { (* the last day of a cycle of 4 years *)
    subst e. assert (r1 = 0 /\ c <= 23) as (-> & Hc') by lia.
    replace (a * 400 + 1 + b * 100 + c * 4 + 4 - 1)
      with (400 * a + 100 * b + 4 * c + 3 + 1) by lia.
    unfold date_ok, toordinal, ymd2ord, days_in_month, days_before_month.
    cbn [year month day].
    rewrite is_leap_cycle, days_before_year_cycle by lia.
    replace (c =? 24) with false by (symmetry; apply Z.eqb_neq; lia).
    eval_tables. unfold MINYEAR, MAXYEAR. split; [|lia].
    rewrite !andb_true_iff, !Z.leb_le. lia. }
  replace (a * 400 + 1 + b * 100 + c * 4 + e)
    with (400 * a + 100 * b + 4 * c + e + 1) by lia.
  set (leapyear := (e =? 3) && (negb (c =? 24) || (b =? 3))).
  pose proof (month_day_spec leapyear r1 B1) as Hmd.
  unfold month_day_ok in Hmd.
  destruct (month_day leapyear r1) as [m d]. cbn [fst snd].
  unfold date_ok, toordinal, ymd2ord, days_in_month, days_before_month.
  cbn [year month day].
  rewrite is_leap_cycle, days_before_year_cycle by lia. fold leapyear.
  apply andb_true_iff in Hmd. destruct Hmd as [Hmd Hsum].
  apply andb_true_iff in Hmd. destruct Hmd as [Hmd Hdim].
  apply Z.eqb_eq in Hsum.
  unfold MINYEAR, MAXYEAR. split; [|lia].
  rewrite Hdim, andb_true_r.
  rewrite !andb_true_iff in Hmd. rewrite !andb_true_iff, !Z.leb_le in *.
  lia.
Qed.

(** ** The pattern of [strptime] *)

Lemma In_cls (p : char -> bool) (s x r : str) :
  In (x, r) (cls p s) <-> exists c, x = [c] /\ p c = true /\ s = c :: r.
Proof.
  unfold cls. destruct s as [|c s].
  - split; [intros [] | intros (c & _ & _ & [=])].
  - destruct (p c) eqn:E; simpl.
    + split.
      * intros [[= <- <-]|[]]. exists c; auto.
      * intros (c' & -> & _ & [= -> ->]); auto.
    + split; [intros [] | intros (c' & _ & Hp & [= -> _]); congruence].
Qed.

Lemma In_cat (a b : matcher) (s x r : str) :
  In (x, r) (cat a b s) <->
  exists x1 r1 x2,
    In (x1, r1) (a s) /\ In (x2, r) (b r1) /\ x = x1 ++ x2.
Proof.
  unfold cat. rewrite in_flat_map. split.
  - intros ([x1 r1] & Ha & Hb). apply in_map_iff in Hb.
    destruct Hb as ([x2 r2] & [= <- <-] & Hb). simpl in *.
    exists x1, r1, x2; auto.
  - intros (x1 & r1 & x2 & Ha & Hb & ->).
    exists (x1, r1). split; [assumption|].
    apply in_map_iff. exists (x2, r); auto.
Qed.

Lemma In_alt (a b : matcher) (s : str) (xr : str * str) :
  In xr (alt a b s) <-> In xr (a s) \/ In xr (b s).
Proof. unfold alt; apply in_app_iff. Qed.

Lemma range_iff (lo hi : string) (c : char) :
  range lo hi c = true <->
  match py lo, py hi with
  | [l], [h] => l <= c <= h
  | _, _ => False
  end.
Proof.
  unfold range. destruct (py lo) as [|l [|? ?]]; try (split; [discriminate|tauto]).
  destruct (py hi) as [|h [|? ?]]; try (split; [discriminate|tauto]).
  rewrite andb_true_iff, !Z.leb_le; tauto.
Qed.

Lemma decimal_ascii (c : char) :
  48 <= c <= 57 -> decimal c = Some (c - 48).
Proof.
  intros H. unfold decimal, decimal_zeros. cbn [List.find].
  replace ((48 <=? c) && (c <? 48 + 10)) with true; [reflexivity|].
  symmetry. apply andb_true_iff. rewrite Z.leb_le, Z.ltb_lt. lia.
Qed.

Lemma isspace_whitespace (c : char) : isspace c = true -> In c whitespace.
Proof.
  unfold isspace, whitespace.
  rewrite !orb_true_iff, !andb_true_iff, !Z.leb_le, !Z.eqb_eq.
  intros H. cbn [In]. lia.
Qed.

Lemma whitespace_not_decimal :
  forallb (fun c => negb (isdigit c)) whitespace = true.
Proof. vm_compute; reflexivity. Qed.

Lemma decimal_not_space (c : char) (v : Z) :
  decimal c = Some v -> isspace c = false.
Proof.
  intros Hd. destruct (isspace c) eqn:E; [|reflexivity].
  apply isspace_whitespace in E.
  pose proof (proj1 (forallb_forall _ _) whitespace_not_decimal c E) as H.
  unfold isdigit in H. rewrite Hd in H. discriminate.
Qed.

Lemma dot_not_decimal : decimal (ch ".") = None.
Proof. vm_compute; reflexivity. Qed.

Ltac break_matches :=
  repeat match goal with
    | H : In _ (alt _ _ _) |- _ => apply In_alt in H; destruct H as [H|H]
    | H : In _ (cat _ _ _) |- _ =>
        apply In_cat in H; destruct H as (? & ? & ? & ? & ? & ?)
    | H : In _ (lit _ _) |- _ => unfold lit in H
    | H : In _ (cls _ _) |- _ =>
        apply In_cls in H; destruct H as (? & ? & ? & ?)
    | H : range _ _ _ = true |- _ => apply range_iff in H; cbn in H
    | H : isdigit ?c = true |- _ =>
        unfold isdigit in H; destruct (decimal c) eqn:?; [clear H|discriminate H]
    end; subst.

Ltac digit_value := unfold ascii_digit; change (ch "0") with 48; lia.

Lemma In_cls_intro (p : char -> bool) (c : char) (r : str) :
  p c = true -> In ([c], r) (cls p (c :: r)).
Proof. intros H. apply In_cls. exists c; auto. Qed.

Lemma In_lit_intro (a : string) (r : str) :
  py a = [ch a] -> In ([ch a], r) (lit a (ch a :: r)).
Proof.
  intros H. apply In_cls_intro. apply range_iff. rewrite H. lia.
Qed.

Lemma In_range_intro (lo hi : string) (l h c : char) (r : str) :
  py lo = [l] -> py hi = [h] -> l <= c <= h ->
  In ([c], r) (cls (range lo hi) (c :: r)).
Proof.
  intros Hl Hh Hc. apply In_cls_intro. apply range_iff.
  rewrite Hl, Hh. exact Hc.
Qed.

Lemma In_isdigit_intro (c : char) (v : Z) (r : str) :
  decimal c = Some v -> In ([c], r) (cls isdigit (c :: r)).
Proof.
  intros H. apply In_cls_intro. unfold isdigit. rewrite H. reflexivity.
Qed.

Lemma In_cat_intro (a b : matcher) (s x1 r1 x2 r : str) :
  In (x1, r1) (a s) -> In (x2, r) (b r1) -> In (x1 ++ x2, r) (cat a b s).
Proof. intros Ha Hb. apply In_cat. exists x1, r1, x2; auto. Qed.

Lemma re_d_spec (s x r : str) :
  In (x, r) (re_d s) <-> s = x ++ r /\ exists d, day_field x d.
Proof.
  unfold re_d. split.
  - intros H. break_matches; (split; [reflexivity|]).
    + assert (x4 = ch "3") by (change (ch "3") with 51; lia). subst x4.
      exists (30 + (x3 - 48)). apply day_thirties. digit_value.
    + exists (10 * (x4 - 48) + z). apply day_tens; [digit_value|assumption].
    + assert (x4 = ch "0") by (change (ch "0") with 48; lia). subst x4.
      exists (x3 - 48). apply day_zero. digit_value.
    + exists (x0 - 48). apply day_single. digit_value.
    + assert (x4 = ch " ") by (change (ch " ") with 32; lia). subst x4.
      exists (x3 - 48). apply day_space. digit_value.
  - intros (-> & d & Hd).
    destruct Hd as [c v [-> Hv]|c1 t c2 v [-> Ht] Hc2|c v [-> Hv]
                   |c v [-> Hv]|c v [-> Hv]];
      change (ch "0") with 48 in *.
    + apply In_alt; left.
      apply (In_cat_intro _ _ _ [ch "3"] ((48 + v) :: r) [48 + v]).
      * apply In_lit_intro; reflexivity.
      * apply (In_range_intro "0" "1" 48 49); try reflexivity; lia.
    + apply In_alt; right; apply In_alt; left.
      apply (In_cat_intro _ _ _ [48 + t] (c2 :: r) [c2]).
      * apply (In_range_intro "1" "2" 49 50); try reflexivity; lia.
      * apply (In_isdigit_intro _ v); assumption.
    + do 2 (apply In_alt; right). apply In_alt; left.
      apply (In_cat_intro _ _ _ [ch "0"] ((48 + v) :: r) [48 + v]).
      * apply In_lit_intro; reflexivity.
      * apply (In_range_intro "1" "9" 49 57); try reflexivity; lia.
    + do 3 (apply In_alt; right). apply In_alt; left.
      apply (In_range_intro "1" "9" 49 57); try reflexivity; lia.
    + do 4 (apply In_alt; right).
      apply (In_cat_intro _ _ _ [ch " "] ((48 + v) :: r) [48 + v]).
      * apply In_lit_intro; reflexivity.
      * apply (In_range_intro "1" "9" 49 57); try reflexivity; lia.
Qed.

Lemma re_m_spec (s x r : str) :
  In (x, r) (re_m s) <-> s = x ++ r /\ exists m, month_field x m.
Proof.
  unfold re_m. split.
  - intros H. break_matches; (split; [reflexivity|]).
    + assert (x4 = ch "1") by (change (ch "1") with 49; lia). subst x4.
      exists (10 + (x3 - 48)). apply month_tens. digit_value.
    + assert (x4 = ch "0") by (change (ch "0") with 48; lia). subst x4.
      exists (x3 - 48). apply month_zero. digit_value.
    + exists (x0 - 48). apply month_single. digit_value.
  - intros (-> & m & Hm).
    destruct Hm as [c v [-> Hv]|c v [-> Hv]|c v [-> Hv]];
      change (ch "0") with 48 in *.
    + apply In_alt; left.
      apply (In_cat_intro _ _ _ [ch "1"] ((48 + v) :: r) [48 + v]).
      * apply In_lit_intro; reflexivity.
      * apply (In_range_intro "0" "2" 48 50); try reflexivity; lia.
    + apply In_alt; right; apply In_alt; left.
      apply (In_cat_intro _ _ _ [ch "0"] ((48 + v) :: r) [48 + v]).
      * apply In_lit_intro; reflexivity.
      * apply (In_range_intro "1" "9" 49 57); try reflexivity; lia.
    + do 2 (apply In_alt; right).
      apply (In_range_intro "1" "9" 49 57); try reflexivity; lia.
Qed.

Lemma re_Y_spec (s x r : str) :
  In (x, r) (re_Y s) <-> s = x ++ r /\ exists y, year_field x y.
Proof.
  unfold re_Y. split.
  - intros H. break_matches. split; [reflexivity|].
    eexists. apply year_four; eassumption.
  - intros (-> & y & Hy). destruct Hy as [c1 c2 c3 c4 v1 v2 v3 v4 H1 H2 H3 H4].
    apply (In_cat_intro _ _ _ [c1] (c2 :: c3 :: c4 :: r) [c2; c3; c4]);
      [apply (In_isdigit_intro _ v1); assumption|].
    apply (In_cat_intro _ _ _ [c2] (c3 :: c4 :: r) [c3; c4]);
      [apply (In_isdigit_intro _ v2); assumption|].
    apply (In_cat_intro _ _ _ [c3] (c4 :: r) [c4]);
      [apply (In_isdigit_intro _ v3); assumption|].
    apply (In_isdigit_intro _ v4); assumption.
Qed.

Lemma re_dmY_spec (s dt mt yt rest : str) :
  In (dt, mt, yt, rest) (re_dmY s) <->
  s = dt ++ py "." ++ mt ++ py "." ++ yt ++ rest
  /\ (exists d, day_field dt d) /\ (exists m, month_field mt m)
  /\ (exists y, year_field yt y).
Proof.
  unfold re_dmY. split.
  - intros H.
    apply in_flat_map in H. destruct H as ([dt' r1] & Hd & H).
    apply in_flat_map in H. destruct H as ([x1 r2] & Hdot1 & H).
    apply in_flat_map in H. destruct H as ([mt' r3] & Hm & H).
    apply in_flat_map in H. destruct H as ([x2 r4] & Hdot2 & H).
    apply in_map_iff in H. destruct H as ([yt' r5] & [= <- <- <- <-] & HY).
    cbn [fst snd] in *.
    apply re_d_spec in Hd. destruct Hd as (-> & Hd).
    apply re_m_spec in Hm. destruct Hm as (-> & Hm).
    apply re_Y_spec in HY. destruct HY as (-> & HY).
    unfold lit in Hdot1, Hdot2.
    apply In_cls in Hdot1. destruct Hdot1 as (c1 & -> & Hc1 & ->).
    apply In_cls in Hdot2. destruct Hdot2 as (c2 & -> & Hc2 & ->).
    apply range_iff in Hc1, Hc2. cbn in Hc1, Hc2.
    assert (c1 = 46) by lia. assert (c2 = 46) by lia. subst c1 c2.
    repeat split; assumption.
  - intros (-> & Hd & Hm & HY).
    apply in_flat_map.
    exists (dt, py "." ++ mt ++ py "." ++ yt ++ rest).
    split; [apply re_d_spec; auto|]. cbn [fst snd].
    apply in_flat_map. exists ([ch "."], mt ++ py "." ++ yt ++ rest).
    split; [apply In_lit_intro; reflexivity|]. cbn [fst snd].
    apply in_flat_map. exists (mt, py "." ++ yt ++ rest).
    split; [apply re_m_spec; auto|]. cbn [fst snd].
    apply in_flat_map. exists ([ch "."], yt ++ rest).
    split; [apply In_lit_intro; reflexivity|]. cbn [fst snd].
    apply in_map_iff. exists (yt, rest).
    split; [reflexivity|]. apply re_Y_spec; auto.
Qed.

Lemma day_field_no_dot (x : str) (d : Z) : day_field x d -> ~ In (ch ".") x.
Proof.
  change (ch ".") with 46.
  destruct 1 as [c v [-> Hv]|c1 t c2 v [-> Ht] Hc2|c v [-> Hv]
                |c v [-> Hv]|c v [-> Hv]];
    change (ch "0") with 48; change (ch "3") with 51;
    change (ch " ") with 32; cbn [In]; intros H;
    repeat (destruct H as [H|H]); try lia.
  subst c2. change 46 with (ch ".") in Hc2.
  rewrite dot_not_decimal in Hc2. discriminate.
Qed.

Lemma month_field_no_dot (x : str) (m : Z) :
  month_field x m -> ~ In (ch ".") x.
Proof.
  change (ch ".") with 46.
  destruct 1 as [c v [-> Hv]|c v [-> Hv]|c v [-> Hv]];
    change (ch "0") with 48; change (ch "1") with 49; cbn [In]; intros H;
    repeat (destruct H as [H|H]); lia.
Qed.

Lemma split_at_first (c : char) (x1 x2 t1 t2 : str) :
  ~ In c x1 -> ~ In c x2 -> x1 ++ c :: t1 = x2 ++ c :: t2 ->
  x1 = x2 /\ t1 = t2.
Proof.
  revert x2. induction x1 as [|a x1 IH]; intros [|b x2] H1 H2 E;
    cbn in *.
  - injection E as ->; auto.
  - injection E as -> _. tauto.
  - injection E as -> _. tauto.
  - injection E as -> E. destruct (IH x2) as [-> ->]; auto.
Qed.

Lemma app_same_length {A} (a b r r' : list A) :
  List.length a = List.length b -> a ++ r = b ++ r' -> a = b /\ r = r'.
Proof.
  revert b. induction a as [|x a IH]; intros [|y b] Hl E; cbn in *;
    try discriminate; auto.
  injection E as -> E. injection Hl as Hl.
  destruct (IH b Hl E) as [-> ->]; auto.
Qed.

Lemma year_field_length (x : str) (y : Z) :
  year_field x y -> List.length x = 4%nat.
Proof. destruct 1; reflexivity. Qed.

(** The pattern matches a text in at most one way. *)
Lemma re_dmY_unique (s : str) (g1 g2 : str * str * str) (r1 r2 : str) :
  In (g1, r1) (re_dmY s) -> In (g2, r2) (re_dmY s) -> g1 = g2 /\ r1 = r2.
Proof.
  destruct g1 as [[d1 m1] y1], g2 as [[d2 m2] y2]. intros H1 H2.
  apply re_dmY_spec in H1, H2.
  destruct H1 as (-> & [? Hd1] & [? Hm1] & [? Hy1]).
  destruct H2 as (E & [? Hd2] & [? Hm2] & [? Hy2]).
  change (py ".") with [ch "."] in E. cbn [app] in E.
  apply split_at_first in E;
    eauto using day_field_no_dot. destruct E as [-> E].
  apply split_at_first in E;
    eauto using month_field_no_dot. destruct E as [-> E].
  apply app_same_length in E.
  - destruct E as [-> ->]; auto.
  - rewrite (year_field_length _ _ Hy1), (year_field_length _ _ Hy2).
    reflexivity.
Qed.

Lemma ascii_digit_decimal (c : char) (lo hi v : Z) :
  0 <= lo -> hi <= 9 -> ascii_digit c lo hi v -> decimal c = Some v.
Proof.
  intros Hlo Hhi [-> Hv]. change (ch "0") with 48.
  rewrite decimal_ascii by lia. f_equal; lia.
Qed.

Lemma strip_no_space (c : char) (s : str) (c' : char) :
  isspace c = false -> isspace c' = false ->
  strip (c :: s ++ [c']) = c :: s ++ [c'].
Proof.
  intros Hc Hc'. unfold strip. cbn [lstrip]. rewrite Hc.
  change (c :: s ++ [c']) with ((c :: s) ++ [c']).
  rewrite rev_unit. cbn [lstrip]. rewrite Hc'.
  rewrite <- rev_unit. apply rev_involutive.
Qed.

Lemma int_of_digit (c : char) (v : Z) :
  decimal c = Some v -> int_of_str [c] = Ok v.
Proof.
  intros H. pose proof (decimal_not_space _ _ H) as Hs.
  unfold int_of_str, strip. cbn [lstrip]. rewrite Hs.
  cbn [rev app lstrip]. rewrite Hs. cbn [rev app fold_left bind].
  rewrite H. f_equal; lia.
Qed.

Lemma int_of_space_digit (c : char) (v : Z) :
  decimal c = Some v -> int_of_str [ch " "; c] = Ok v.
Proof.
  intros H. pose proof (decimal_not_space _ _ H) as Hs.
  unfold int_of_str, strip. cbn [lstrip].
  change (isspace (ch " ")) with true. cbv iota. rewrite Hs.
  cbn [rev app lstrip]. rewrite Hs. cbn [rev app fold_left bind].
  rewrite H. f_equal; lia.
Qed.

Lemma int_of_digits2 (c1 c2 : char) (v1 v2 : Z) :
  decimal c1 = Some v1 -> decimal c2 = Some v2 ->
  int_of_str [c1; c2] = Ok (10 * v1 + v2).
Proof.
  intros H1 H2. unfold int_of_str.
  pose proof (strip_no_space c1 [] c2 (decimal_not_space _ _ H1)
                (decimal_not_space _ _ H2)) as Hs.
  cbn [app] in Hs. rewrite Hs.
  cbn [fold_left bind]. rewrite H1. cbn [bind]. rewrite H2. cbn [bind].
  f_equal; lia.
Qed.

Lemma int_of_digits4 (c1 c2 c3 c4 : char) (v1 v2 v3 v4 : Z) :
  decimal c1 = Some v1 -> decimal c2 = Some v2 ->
  decimal c3 = Some v3 -> decimal c4 = Some v4 ->
  int_of_str [c1; c2; c3; c4] = Ok (1000 * v1 + 100 * v2 + 10 * v3 + v4).
Proof.
  intros H1 H2 H3 H4. unfold int_of_str.
  pose proof (strip_no_space c1 [c2; c3] c4 (decimal_not_space _ _ H1)
                (decimal_not_space _ _ H4)) as Hs.
  cbn [app] in Hs. rewrite Hs.
  cbn [fold_left bind]. rewrite H1. cbn [bind]. rewrite H2. cbn [bind].
  rewrite H3. cbn [bind]. rewrite H4. cbn [bind].
  f_equal; lia.
Qed.

Lemma int_of_day (x : str) (d : Z) : day_field x d -> int_of_str x = Ok d.
Proof.
  destruct 1 as [c v Hv|c1 t c2 v Ht Hc2|c v Hv|c v Hv|c v Hv].
  - apply (int_of_digits2 (ch "3") c 3 v); [reflexivity|].
    apply (ascii_digit_decimal c 0 1); [lia | lia | assumption].
  - apply int_of_digits2; [|assumption].
    apply (ascii_digit_decimal c1 1 2); [lia | lia | assumption].
  - replace v with (10 * 0 + v) at 2 by lia.
    apply (int_of_digits2 (ch "0") c 0 v); [reflexivity|].
    apply (ascii_digit_decimal c 1 9); [lia | lia | assumption].
  - apply int_of_digit.
    apply (ascii_digit_decimal c 1 9); [lia | lia | assumption].
  - apply int_of_space_digit.
    apply (ascii_digit_decimal c 1 9); [lia | lia | assumption].
Qed.

Lemma int_of_month (x : str) (m : Z) :
  month_field x m -> int_of_str x = Ok m.
Proof.
  destruct 1 as [c v Hv|c v Hv|c v Hv].
  - apply (int_of_digits2 (ch "1") c 1 v); [reflexivity|].
    apply (ascii_digit_decimal c 0 2); [lia | lia | assumption].
  - replace v with (10 * 0 + v) at 2 by lia.
    apply (int_of_digits2 (ch "0") c 0 v); [reflexivity|].
    apply (ascii_digit_decimal c 1 9); [lia | lia | assumption].
  - apply int_of_digit.
    apply (ascii_digit_decimal c 1 9); [lia | lia | assumption].
Qed.

Lemma int_of_year (x : str) (y : Z) : year_field x y -> int_of_str x = Ok y.
Proof. destruct 1. apply int_of_digits4; assumption. Qed.

Lemma day_field_fun (x : str) (d d' : Z) :
  day_field x d -> day_field x d' -> d = d'.
Proof.
  intros H H'. apply int_of_day in H, H'. congruence.
Qed.

(** [strptime] returns exactly the dates of the texts it accepts. *)
Lemma strptime_dmY_accepts (text : str) (d : date) :
  birthday_text text d -> strptime_dmY text = Ok d.
Proof.
  intros (dt & mt & yt & E & Hd & Hm & Hy & Hok).
  assert (Hin : In (dt, mt, yt, []) (re_dmY text)).
  { apply re_dmY_spec. rewrite app_nil_r. eauto 10. }
  unfold strptime_dmY.
  destruct (re_dmY text) as [|[[[dt' mt'] yt'] rest'] l] eqn:El;
    [destruct Hin|].
  destruct (re_dmY_unique text (dt', mt', yt') (dt, mt, yt) rest' [])
    as [[= -> -> ->] ->]; [rewrite El; left; reflexivity | rewrite El; assumption |].
  rewrite (int_of_year _ _ Hy), (int_of_month _ _ Hm), (int_of_day _ _ Hd).
  cbn [bind]. apply date_new_ok; assumption.
Qed.

Lemma strptime_dmY_sound (text : str) (d : date) :
  strptime_dmY text = Ok d -> birthday_text text d.
Proof.
  unfold strptime_dmY.
  destruct (re_dmY text) as [|[[[dt mt] yt] rest] l] eqn:El; [discriminate|].
  assert (Hin : In (dt, mt, yt, rest) (re_dmY text))
    by (rewrite El; left; reflexivity).
  apply re_dmY_spec in Hin.
  destruct Hin as (E & [dv Hd] & [mv Hm] & [yv Hy]).
  destruct rest; [|discriminate].
  rewrite (int_of_year _ _ Hy), (int_of_month _ _ Hm), (int_of_day _ _ Hd).
  cbn [bind]. intros Hnew. apply date_new_inv in Hnew.
  destruct Hnew as [-> Hok]. rewrite app_nil_r in E.
  exists dt, mt, yt. auto.
Qed.

Lemma strptime_dmY_err (text : str) (e : exn) :
  strptime_dmY text = Err e -> kind e = ValueError.
Proof.
  unfold strptime_dmY.
  destruct (re_dmY text) as [|[[[dt mt] yt] rest] l] eqn:El;
    [intros [= <-]; reflexivity|].
  assert (Hin : In (dt, mt, yt, rest) (re_dmY text))
    by (rewrite El; left; reflexivity).
  apply re_dmY_spec in Hin.
  destruct Hin as (E & [dv Hd] & [mv Hm] & [yv Hy]).
  destruct rest; [|intros [= <-]; reflexivity].
  rewrite (int_of_year _ _ Hy), (int_of_month _ _ Hm), (int_of_day _ _ Hd).
  cbn [bind]. apply date_new_err.
Qed.

(** ** Birthday *)

(** C5, as the code has it: Birthday construction succeeds exactly on the
    texts day.month.year that [strptime] accepts (a day of one or two
    digits, a month of one or two digits, a year of four digits, a date of
    the calendar) and then holds the date and the text as given; otherwise it
    fails with InvalidBirthday. *)
Theorem Birthday_init_spec :
  (forall text : str,
      match Birthday_init text with
      | Ok b => Birthday_value b = text /\ birthday_text text (Birthday_date b)
      | Err e => e = InvalidBirthday /\ forall d, ~ birthday_text text d
      end)
  /\ Birthday_init (py "29.02.2024")
     = Ok (mkBirthday (mkdate 2024 2 29) (py "29.02.2024"))
  /\ Birthday_init (py "31.02.2024") = Err InvalidBirthday
  /\ Birthday_init (py "2024-02-29") = Err InvalidBirthday.
Proof.
  split; [|repeat split; reflexivity].
  intros text. unfold Birthday_init.
  destruct (strptime_dmY text) as [d|e] eqn:E.
  - cbn. split; [reflexivity|]. apply strptime_dmY_sound; assumption.
  - rewrite (strptime_dmY_err _ _ E). split; [reflexivity|].
    intros d Hd. apply strptime_dmY_accepts in Hd. congruence.
Qed.

(** C5 as stated fails: a day and a month of one digit are accepted, in a
    text of 8 characters. *)
Lemma Birthday_init_one_digit :
  Birthday_init (py "1.2.2024")
  = Ok (mkBirthday (mkdate 2024 2 1) (py "1.2.2024"))
  /\ List.length (py "1.2.2024") = 8%nat.
Proof. split; reflexivity. Qed.

(** ** The order of dates *)

Lemma days_before_month_next (y m : Z) :
  1 <= m <= 11 ->
  days_before_month y (m + 1) = days_before_month y m + days_in_month y m.
Proof.
  intros Hm. unfold days_before_month, days_in_month.
  case_month m; destruct (is_leap y); eval_tables; lia.
Qed.

Lemma days_before_month_mono (y m m' : Z) :
  1 <= m -> m < m' -> m' <= 12 ->
  days_before_month y m + days_in_month y m <= days_before_month y m'.
Proof.
  intros H1 H2 H3. unfold days_before_month, days_in_month.
  case_month m; case_month m'; try lia;
    destruct (is_leap y); eval_tables; lia.
Qed.

Lemma date_ltb_spec (a b : date) :
  date_ltb a b = true <->
  (year a < year b
   \/ (year a = year b
       /\ (month a < month b \/ (month a = month b /\ day a < day b)))).
Proof.
  unfold date_ltb.
  rewrite orb_true_iff, andb_true_iff, orb_true_iff, andb_true_iff.
  rewrite !Z.ltb_lt, !Z.eqb_eq. tauto.
Qed.

(** [a < b] on dates of the calendar is the order of their ordinals. *)
Lemma date_ltb_toordinal (a b : date) :
  date_ok a = true -> date_ok b = true ->
  date_ltb a b = true <-> toordinal a < toordinal b.
Proof.
  intros Ha Hb. rewrite date_ltb_spec.
  pose proof (date_ok_fields _ Ha) as (Hya & Hma & Hda).
  pose proof (date_ok_fields _ Hb) as (Hyb & Hmb & Hdb).
  pose proof (day_of_year_bounds _ _ _ Hma Hda) as Da.
  pose proof (day_of_year_bounds _ _ _ Hmb Hdb) as Db.
  assert (Years : forall y y', y < y' ->
             days_before_year y + 365 + (if is_leap y then 1 else 0)
             <= days_before_year y').
  { intros y y' Hlt. rewrite <- days_before_year_succ.
    apply days_before_year_mono. lia. }
  unfold toordinal, ymd2ord.
  destruct a as [ya ma da], b as [yb mb db]. cbn [year month day] in *.
  destruct (Z.lt_trichotomy ya yb) as [Hy|[Hy|Hy]].
  - pose proof (Years _ _ Hy). lia.
  - subst yb.
    destruct (Z.lt_trichotomy ma mb) as [Hm|[Hm|Hm]].
    + pose proof (days_before_month_mono ya ma mb ltac:(lia) Hm ltac:(lia)).
      lia.
    + subst mb. lia.
    + pose proof (days_before_month_mono ya mb ma ltac:(lia) Hm ltac:(lia)).
      lia.
  - pose proof (Years _ _ Hy). lia.
Qed.

(** An anniversary that is a date is never before today. *)
Lemma anniversary_not_before (today b : date) :
  date_ok today = true -> date_ok b = true ->
  date_ok (mkdate (year today) (month b) (day b)) = true ->
  date_ok (anniversary today b) = true ->
  0 <= days_between (anniversary today b) today.
Proof.
  intros Htoday Hb Hthis. unfold anniversary, days_between.
  destruct (date_ltb _ today) eqn:E; intros Ha.
  - apply (date_ltb_toordinal _ _ Hthis Htoday) in E.
    assert (L : date_ltb (mkdate (year today) (month b) (day b))
                  (mkdate (year today + 1) (month b) (day b)) = true).
    { unfold date_ltb; cbn [year month day].
      apply orb_true_iff; left. apply Z.ltb_lt. lia. }
    apply (date_ltb_toordinal _ _ Hthis Ha) in L.
    pose proof (date_ok_fields _ Htoday) as (Hy & Hm & Hd).
    pose proof (day_of_year_bounds _ _ _ Hm Hd) as Dt.
    pose proof (date_ok_fields _ Ha) as (Hya & Hma & Hda).
    pose proof (day_of_year_bounds _ _ _ Hma Hda) as Da.
    pose proof (days_before_year_succ (year today)) as Hs.
    cbn [year month day] in *.
    unfold toordinal, ymd2ord in *. cbn [year month day] in *. lia.
  - destruct (date_ltb_toordinal _ _ Hthis Htoday) as [_ H].
    destruct (Z.lt_ge_cases (toordinal (mkdate (year today) (month b) (day b)))
                (toordinal today)) as [Hlt|Hge]; [|lia].
    rewrite (H Hlt) in E. discriminate.
Qed.

(** ** Formatting a date and reading it back *)

Lemma days_in_month_le (y m : Z) : days_in_month y m <= 31.
Proof.
  unfold days_in_month, index.
  destruct ((m =? 2) && is_leap y); [lia|].
  destruct (Z.to_nat m) as [|[|[|[|[|[|[|[|[|[|[|[|[|[|k]]]]]]]]]]]]]];
    cbn; lia.
Qed.

Lemma zero_padded_length (w : nat) (n : Z) :
  List.length (zero_padded w n) = w.
Proof.
  revert n. induction w as [|w IH]; intros n; cbn [zero_padded];
    [reflexivity|].
  rewrite length_app, IH. cbn. lia.
Qed.

Lemma unpadded_four (n : Z) : 1000 <= n -> unpadded n = zero_padded 4 n.
Proof.
  intros H. unfold unpadded.
  destruct (Z.ltb_spec n 10); [lia|]. destruct (Z.ltb_spec n 100); [lia|].
  destruct (Z.ltb_spec n 1000); [lia | reflexivity].
Qed.

Lemma unpadded_short (n : Z) :
  n < 1000 -> (List.length (unpadded n) < 4)%nat.
Proof.
  intros H. unfold unpadded.
  destruct (Z.ltb_spec n 10); [rewrite zero_padded_length; lia|].
  destruct (Z.ltb_spec n 100); [rewrite zero_padded_length; lia|].
  destruct (Z.ltb_spec n 1000); [rewrite zero_padded_length; lia | lia].
Qed.

(** Day and month as [strftime] writes them. *)
Lemma strftime_dmY_fields (d : date) :
  date_ok d = true ->
  strftime_dmY d
  = [digit (day d / 10); digit (day d mod 10)] ++ py "."
    ++ [digit (month d / 10); digit (month d mod 10)] ++ py "."
    ++ unpadded (year d).
Proof.
  intros H. apply date_ok_fields in H. destruct H as (Hy & Hm & Hd).
  pose proof (days_in_month_le (year d) (month d)).
  assert (D : forall n, 0 <= n < 100 -> n / 10 mod 10 = n / 10).
  { intros n Hn. apply Z.mod_small.
    pose proof (Z.div_pos n 10 ltac:(lia) ltac:(lia)).
    pose proof (Z.div_lt_upper_bound n 10 10 ltac:(lia) ltac:(lia)). lia. }
  unfold strftime_dmY, digit. cbn [zero_padded app].
  rewrite (D (day d)), (D (month d)) by lia. reflexivity.
Qed.

(** A year of four digits is written as DD.MM.YYYY. *)
Lemma strftime_dmY_format (d : date) :
  date_ok d = true -> 1000 <= year d -> strftime_dmY d = dd_mm_yyyy d.
Proof.
  intros H H1000. rewrite (strftime_dmY_fields _ H).
  apply date_ok_fields in H. destruct H as (Hy & Hm & Hd).
  assert (Y : year d / 10 / 10 / 10 mod 10 = year d / 1000).
  { rewrite !Z.div_div by lia. apply Z.mod_small.
    pose proof (Z.div_pos (year d) 1000 ltac:(lia) ltac:(lia)).
    pose proof (Z.div_lt_upper_bound (year d) 1000 10 ltac:(lia) ltac:(lia)).
    change (10 * 10 * 10) with 1000. lia. }
  rewrite (unpadded_four _ H1000).
  unfold dd_mm_yyyy, digit. cbn [zero_padded app].
  rewrite Y. rewrite (Z.div_div (year d) 10 10) by lia. reflexivity.
Qed.

Lemma decimal_digit (v : Z) : 0 <= v <= 9 -> decimal (digit v) = Some v.
Proof.
  intros H. unfold digit. change (ch "0") with 48.
  rewrite decimal_ascii by lia. f_equal; lia.
Qed.

Lemma day_field_dd (n : Z) :
  1 <= n <= 31 -> day_field [digit (n / 10); digit (n mod 10)] n.
Proof.
  intros Hn.
  pose proof (Z.div_mod n 10 ltac:(lia)) as E.
  pose proof (Z.mod_pos_bound n 10 ltac:(lia)) as B.
  set (t := n / 10) in *. set (v := n mod 10) in *. clearbody t v.
  assert (Ht : t = 0 \/ t = 1 \/ t = 2 \/ t = 3) by lia.
  destruct Ht as [-> | [-> | [-> | ->]]].
  - replace n with v by lia. apply day_zero. unfold ascii_digit, digit. lia.
  - rewrite E. apply day_tens; [unfold ascii_digit, digit; lia|].
    apply decimal_digit; lia.
  - rewrite E. apply day_tens; [unfold ascii_digit, digit; lia|].
    apply decimal_digit; lia.
  - replace n with (30 + v) by lia. apply day_thirties.
    unfold ascii_digit, digit. lia.
Qed.

Lemma month_field_dd (n : Z) :
  1 <= n <= 12 -> month_field [digit (n / 10); digit (n mod 10)] n.
Proof.
  intros Hn.
  pose proof (Z.div_mod n 10 ltac:(lia)) as E.
  pose proof (Z.mod_pos_bound n 10 ltac:(lia)) as B.
  set (t := n / 10) in *. set (v := n mod 10) in *. clearbody t v.
  assert (Ht : t = 0 \/ t = 1) by lia.
  destruct Ht as [-> | ->].
  - replace n with v by lia. apply month_zero. unfold ascii_digit, digit. lia.
  - replace n with (10 + v) by lia. apply month_tens.
    unfold ascii_digit, digit. lia.
Qed.

Lemma year_field_dddd (n : Z) :
  0 <= n <= 9999 ->
  year_field [digit (n / 1000); digit (n / 100 mod 10);
              digit (n / 10 mod 10); digit (n mod 10)] n.
Proof.
  intros Hn.
  assert (E : n = 1000 * (n / 1000) + 100 * (n / 100 mod 10)
                  + 10 * (n / 10 mod 10) + n mod 10).
  { replace (n / 1000) with (n / 10 / 10 / 10)
      by (rewrite !Z.div_div by lia; reflexivity).
    replace (n / 100) with (n / 10 / 10)
      by (rewrite !Z.div_div by lia; reflexivity).
    pose proof (Z.div_mod n 10 ltac:(lia)).
    pose proof (Z.div_mod (n / 10) 10 ltac:(lia)).
    pose proof (Z.div_mod (n / 10 / 10) 10 ltac:(lia)).
    lia. }
  rewrite E at 5.
  apply year_four; apply decimal_digit.
  - pose proof (Z.div_lt_upper_bound n 1000 10 ltac:(lia) ltac:(lia)).
    pose proof (Z.div_pos n 1000 ltac:(lia) ltac:(lia)). lia.
  - pose proof (Z.mod_pos_bound (n / 100) 10 ltac:(lia)). lia.
  - pose proof (Z.mod_pos_bound (n / 10) 10 ltac:(lia)). lia.
  - pose proof (Z.mod_pos_bound n 10 ltac:(lia)). lia.
Qed.

Lemma dd_mm_yyyy_text (d : date) :
  date_ok d = true -> birthday_text (dd_mm_yyyy d) d.
Proof.
  intros Hok. pose proof (date_ok_fields _ Hok) as (Hy & Hm & Hd).
  pose proof (days_in_month_le (year d) (month d)).
  exists [digit (day d / 10); digit (day d mod 10)],
         [digit (month d / 10); digit (month d mod 10)],
         [digit (year d / 1000); digit (year d / 100 mod 10);
          digit (year d / 10 mod 10); digit (year d mod 10)].
  split; [reflexivity|].
  split; [apply day_field_dd; lia|].
  split; [apply month_field_dd; lia|].
  split; [apply year_field_dddd; lia | assumption].
Qed.

(** Reading back the text that [strftime] wrote gives the date again when
    the year has four digits. *)
Lemma strptime_strftime (d : date) :
  date_ok d = true -> 1000 <= year d -> strptime_dmY (strftime_dmY d) = Ok d.
Proof.
  intros H H1000. rewrite strftime_dmY_format by assumption.
  apply strptime_dmY_accepts, dd_mm_yyyy_text, H.
Qed.

(** The text of a year before 1000 is too short for the four digits that
    the pattern asks for: the pattern does not match. *)
Lemma strptime_strftime_short (d : date) :
  date_ok d = true -> year d < 1000 ->
  strptime_dmY (strftime_dmY d)
  = Err (Raise ValueError
           (py "time data '" ++ strftime_dmY d
            ++ py "' does not match format '%d.%m.%Y'")).
Proof.
  intros Hok Hshort. unfold strptime_dmY.
  destruct (re_dmY (strftime_dmY d)) as [|[[[dt mt] yt] rest] l] eqn:El;
    [reflexivity|].
  assert (Hin : In (dt, mt, yt, rest) (re_dmY (strftime_dmY d)))
    by (rewrite El; left; reflexivity).
  apply re_dmY_spec in Hin.
  destruct Hin as (E & [dv Hd] & [mv Hm] & [yv Hy]).
  rewrite (strftime_dmY_fields _ Hok) in E.
  pose proof (date_ok_fields _ Hok) as (_ & Hmonth & Hday).
  pose proof (days_in_month_le (year d) (month d)).
  destruct (split_at_first (ch ".")
              [digit (day d / 10); digit (day d mod 10)] dt
              ([digit (month d / 10); digit (month d mod 10)]
               ++ ch "." :: unpadded (year d))
              (mt ++ ch "." :: yt ++ rest)) as [_ E1];
    [eapply day_field_no_dot, day_field_dd; lia
    |eapply day_field_no_dot; eassumption
    |exact E|].
  destruct (split_at_first (ch ".")
              [digit (month d / 10); digit (month d mod 10)] mt
              (unpadded (year d)) (yt ++ rest)) as [_ E2];
    [eapply month_field_no_dot, month_field_dd; lia
    |eapply month_field_no_dot; eassumption
    |exact E1|].
  pose proof (unpadded_short _ Hshort) as L.
  rewrite E2, length_app, (year_field_length _ _ Hy) in L. lia.
Qed.

(** ** The upcoming-birthday query *)

Lemma date_new_bad (y m d : Z) :
  date_ok (mkdate y m d) = false ->
  exists e, date_new y m d = Err e /\ kind e = ValueError.
Proof.
  intros H. destruct (date_new y m d) as [x|e] eqn:E.
  - apply date_new_inv in E. destruct E as [-> E]. congruence.
  - exists e. split; [reflexivity | eapply date_new_err; eassumption].
Qed.

Lemma add_days_spec (d : date) (n : Z) :
  1 <= toordinal d + n <= MAXORDINAL ->
  exists c, add_days d n = Ok c /\ date_ok c = true
            /\ toordinal c = toordinal d + n.
Proof.
  intros H. unfold add_days.
  replace ((0 <? toordinal d + n) && (toordinal d + n <=? MAXORDINAL))
    with true
    by (symmetry; apply andb_true_iff; rewrite Z.ltb_lt, Z.leb_le; lia).
  exists (ord2ymd (toordinal d + n)).
  destruct (ord2ymd_spec _ H); auto.
Qed.

(** A Saturday or Sunday of the calendar is followed by its Monday: the last
    date, 31.12.9999, is a Friday. *)
Lemma weekend_shift_spec (a : date) :
  date_ok a = true ->
  exists c,
    (if weekday a =? 5 then add_days a 2
     else if weekday a =? 6 then add_days a 1 else Ok a) = Ok c
    /\ date_ok c = true
    /\ toordinal c = toordinal a + weekend_shift (weekday a)
    /\ (weekend_shift (weekday a) = 0 -> c = a).
Proof.
  intros Hok. pose proof (toordinal_bounds _ Hok) as B.
  unfold weekend_shift, weekday, MAXORDINAL in *.
  pose proof (Z.div_mod (toordinal a + 6) 7 ltac:(lia)) as Hdm.
  destruct (Z.eqb_spec ((toordinal a + 6) mod 7) 5) as [E5|N5].
  - destruct (add_days_spec a 2) as (c & -> & Hc & Ho);
      [unfold MAXORDINAL; lia|].
    exists c. repeat split; auto. discriminate.
  - destruct (Z.eqb_spec ((toordinal a + 6) mod 7) 6) as [E6|N6].
    + destruct (add_days_spec a 1) as (c & -> & Hc & Ho);
        [unfold MAXORDINAL; lia|].
      exists c. repeat split; auto. discriminate.
    + exists a. repeat split; auto. lia.
Qed.

Lemma upcoming_step_no_birthday (today : date) (record : ContactRecord)
  (acc : list Upcoming) :
  birthday record = None -> upcoming_step today record acc = Ok acc.
Proof. intros H. unfold upcoming_step. rewrite H. reflexivity. Qed.

(** A birthday before the year 1000 stops the query where it reads back
    the text it wrote. *)
Lemma upcoming_step_short_year (today : date) (record : ContactRecord)
  (b : Birthday) (acc : list Upcoming) :
  birthday record = Some b -> date_ok (Birthday_date b) = true ->
  year (Birthday_date b) < 1000 ->
  upcoming_step today record acc
  = Err (Raise ValueError
           (py "time data '" ++ strftime_dmY (Birthday_date b)
            ++ py "' does not match format '%d.%m.%Y'")).
Proof.
  intros Hb Hok Hshort. unfold upcoming_step. rewrite Hb. cbv zeta.
  rewrite strptime_strftime_short by assumption. reflexivity.
Qed.

Lemma upcoming_step_eval (today : date) (record : ContactRecord)
  (b : Birthday) (acc : list Upcoming) :
  birthday record = Some b -> date_ok (Birthday_date b) = true ->
  1000 <= year (Birthday_date b) ->
  let this_year :=
    mkdate (year today) (month (Birthday_date b)) (day (Birthday_date b)) in
  let a := anniversary today (Birthday_date b) in
  upcoming_step today record acc =
  (_ <- date_new (year this_year) (month this_year) (day this_year) ;;
   a' <- date_new (year a) (month a) (day a) ;;
   congratulate today record acc a').
Proof.
  intros Hb Hok H1000 this_year a. unfold upcoming_step. rewrite Hb.
  rewrite strptime_strftime by assumption. cbn [bind].
  unfold replace_year. subst a this_year. unfold anniversary.
  cbn [year month day].
  destruct (date_new (year today) (month (Birthday_date b))
              (day (Birthday_date b))) as [x|e] eqn:E; [|reflexivity].
  apply date_new_inv in E. destruct E as [-> Hthis].
  cbn [bind year month day].
  destruct (date_ltb _ today).
  - reflexivity.
  - rewrite (date_new_ok _ Hthis). reflexivity.
Qed.

(** Month and day of a date exist in every year but for 29 February. *)
Lemma leap_day_only (y : Z) (b : date) :
  date_ok b = true -> 1 <= y <= 9999 ->
  date_ok (mkdate y (month b) (day b)) = false ->
  month b = 2 /\ day b = 29.
Proof.
  intros Hb Hy Hbad. apply date_ok_fields in Hb.
  destruct Hb as (_ & Hm & Hd).
  unfold date_ok, MINYEAR, MAXYEAR in Hbad. cbn [year month day] in Hbad.
  replace ((1 <=? y) && (y <=? 9999)) with true in Hbad
    by (symmetry; apply andb_true_iff; rewrite !Z.leb_le; lia).
  replace ((1 <=? month b) && (month b <=? 12)) with true in Hbad
    by (symmetry; apply andb_true_iff; rewrite !Z.leb_le; lia).
  cbn [andb] in Hbad. apply andb_false_iff in Hbad.
  rewrite !Z.leb_gt in Hbad.
  revert Hd Hbad. unfold days_in_month.
  generalize (month b) Hm. intros m Hm'.
  case_month m; destruct (is_leap (year b)); destruct (is_leap y);
    eval_tables; lia.
Qed.

(** The query handles the records in the order of the address book: on an
    address book with one more record it is the query on the address book
    followed by the step for that record. *)
Lemma upcoming_loop_app (today : date) (records : list ContactRecord)
  (record : ContactRecord) (acc : list Upcoming) :
  upcoming_loop today (records ++ [record]) acc
  = (acc' <- upcoming_loop today records acc ;;
     upcoming_step today record acc').
Proof.
  revert acc. induction records as [|r rest IH]; intros acc; cbn.
  - destruct (upcoming_step today record acc); reflexivity.
  - destruct (upcoming_step today r acc); cbn; [apply IH | reflexivity].
Qed.

Lemma get_upcoming_birthdays_app (today : date) (book : AddressBook)
  (key : str) (record : ContactRecord) :
  get_upcoming_birthdays today (book ++ [(key, record)])
  = (acc <- get_upcoming_birthdays today book ;;
     upcoming_step today record acc).
Proof.
  unfold get_upcoming_birthdays, values. rewrite map_app.
  apply upcoming_loop_app.
Qed.

Lemma year_le_toordinal (a c : date) :
  date_ok a = true -> date_ok c = true -> toordinal a <= toordinal c ->
  year a <= year c.
Proof.
  intros Ha Hc H.
  destruct (Z.le_gt_cases (year a) (year c)) as [|Hgt]; [assumption|].
  assert (L : date_ltb c a = true) by (apply date_ltb_spec; left; lia).
  apply (date_ltb_toordinal _ _ Hc Ha) in L. lia.
Qed.

Lemma anniversary_year (today b : date) :
  year today <= year (anniversary today b).
Proof.
  unfold anniversary. destruct (date_ltb _ today); cbn [year]; lia.
Qed.

Lemma weekend_shift_nonneg (w : Z) : 0 <= weekend_shift w.
Proof.
  unfold weekend_shift. destruct (w =? 5); [lia|]. destruct (w =? 6); lia.
Qed.

(** What the loop has done for a record with a birthday once it goes on:
    the birthday has a year of four digits, its anniversary is a date not
    before [today], and the entry was appended exactly when the anniversary
    is at most 7 days away. *)
Lemma upcoming_step_returns (today : date) (record : ContactRecord)
  (b : Birthday) (acc acc' : list Upcoming) :
  date_ok today = true ->
  birthday record = Some b -> date_ok (Birthday_date b) = true ->
  upcoming_step today record acc = Ok acc' ->
  let a := anniversary today (Birthday_date b) in
  1000 <= year (Birthday_date b) /\ date_ok a = true
  /\ 0 <= days_between a today
  /\ ((days_between a today <= 7
       /\ exists c,
            date_ok c = true
            /\ toordinal c = toordinal a + weekend_shift (weekday a)
            /\ (weekend_shift (weekday a) = 0 -> c = a)
            /\ acc' = acc ++ [mkUpcoming (Name_value (name record))
                                         (strftime_dmY c)])
      \/ (7 < days_between a today /\ acc' = acc)).
Proof.
  intros Htoday Hb Hok Hstep a.
  destruct (Z.lt_ge_cases (year (Birthday_date b)) 1000) as [Hshort|H1000];
    [rewrite (upcoming_step_short_year _ _ _ acc Hb Hok Hshort) in Hstep;
     discriminate|].
  rewrite (upcoming_step_eval _ _ _ acc Hb Hok H1000) in Hstep.
  cbv zeta in Hstep. fold a in Hstep.
  destruct (date_ok (mkdate (year today) (month (Birthday_date b))
                            (day (Birthday_date b)))) eqn:Hthis;
    [|cbn [year month day] in Hstep;
      destruct (date_new_bad _ _ _ Hthis) as (e & E & _);
      rewrite E in Hstep; discriminate].
  rewrite (date_new_ok _ Hthis) in Hstep. cbn [bind] in Hstep.
  destruct (date_ok a) eqn:Ha;
    [|destruct (date_new_bad (year a) (month a) (day a)) as (e & E & _);
      [destruct a; exact Ha | rewrite E in Hstep; discriminate]].
  rewrite (date_new_ok _ Ha) in Hstep. cbn [bind] in Hstep.
  pose proof (anniversary_not_before today _ Htoday Hok Hthis Ha) as Hge.
  fold a in Hge.
  split; [exact H1000|]. split; [reflexivity|]. split; [exact Hge|].
  unfold congratulate in Hstep.
  destruct ((0 <=? days_between a today) && (days_between a today <=? 7))
    eqn:W.
  - apply andb_true_iff in W. rewrite !Z.leb_le in W.
    destruct (weekend_shift_spec a Ha) as (c & Ec & Hc & Ho & Hsame).
    rewrite Ec in Hstep. cbn [bind] in Hstep. injection Hstep as <-.
    left. split; [lia|]. exists c. auto.
  - apply andb_false_iff in W. rewrite !Z.leb_gt in W.
    injection Hstep as <-. right. split; [lia | reflexivity].
Qed.

(** A loop whose every step appends one entry for the records that [keep]
    holds of, and nothing for the others, returns the entries of those
    records in their order. *)
Lemma upcoming_loop_filter (today : date) (keep : ContactRecord -> bool)
  (R : ContactRecord -> Upcoming -> Prop) (records : list ContactRecord) :
  (forall r acc acc',
      In r records -> upcoming_step today r acc = Ok acc' ->
      (keep r = true /\ exists e, R r e /\ acc' = acc ++ [e])
      \/ (keep r = false /\ acc' = acc)) ->
  forall acc out,
    upcoming_loop today records acc = Ok out ->
    exists entries,
      out = acc ++ entries /\ Forall2 R (filter keep records) entries.
Proof.
  induction records as [|r rest IH]; intros Hstep acc out; cbn.
  - intros [= <-]. exists []. rewrite app_nil_r. split; constructor.
  - destruct (upcoming_step today r acc) as [acc'|e] eqn:E; cbn [bind];
      [|discriminate].
    intros Hloop.
    destruct (IH (fun x u u' Hx => Hstep x u u' (or_intror Hx)) _ _ Hloop)
      as (entries & -> & Hall).
    destruct (Hstep r acc acc' (or_introl eq_refl) E)
      as [(-> & e & He & ->)|(-> & ->)].
    + exists (e :: entries). rewrite <- app_assoc.
      split; [reflexivity | constructor; assumption].
    + exists entries. split; [reflexivity | assumption].
Qed.

(** The bounds of the window: an anniversary 7 days after today is a
    candidate, one 8 days after today is not. *)
Lemma upcoming_step_bounds :
  days_between (mkdate 2024 6 17) (mkdate 2024 6 10) = 7
  /\ upcoming_step (mkdate 2024 6 10)
       (ann_with_birthday "17.06.1990" (mkdate 1990 6 17)) []
     = Ok [mkUpcoming (py "Ann") (py "17.06.2024")]
  /\ days_between (mkdate 2024 6 18) (mkdate 2024 6 10) = 8
  /\ upcoming_step (mkdate 2024 6 10)
       (ann_with_birthday "18.06.1990" (mkdate 1990 6 18)) []
     = Ok []
  /\ upcoming_step (mkdate 2024 6 10)
       (ann_with_birthday "10.06.1990" (mkdate 1990 6 10)) []
     = Ok [mkUpcoming (py "Ann") (py "10.06.2024")]
  /\ upcoming_step (mkdate 2024 6 10)
       (ann_with_birthday "09.06.1990" (mkdate 1990 6 9)) []
     = Ok [].
Proof. repeat split; vm_compute; reflexivity. Qed.

(** C1 fails on the code.  Bob's anniversary, 26.02.2025, is one day after
    today, 25.02.2025, and alone in the address book he is a candidate; with
    Ann, born on 29.02.2024, in the same address book the query raises
    [ValueError] and marks no candidate at all.  So it does for a single
    record with a birthday before the year 1000, whose anniversary is two
    days after today. *)
Theorem query_loses_candidate :
  Birthday_init (py "26.02.1990")
  = Ok (mkBirthday (mkdate 1990 2 26) (py "26.02.1990"))
  /\ anniversary (mkdate 2025 2 25) (mkdate 1990 2 26) = mkdate 2025 2 26
  /\ days_between (mkdate 2025 2 26) (mkdate 2025 2 25) = 1
  /\ get_upcoming_birthdays (mkdate 2025 2 25)
       [(py "Bob", bob_with_birthday "26.02.1990" (mkdate 1990 2 26))]
     = Ok [mkUpcoming (py "Bob") (py "26.02.2025")]
  /\ get_upcoming_birthdays (mkdate 2025 2 25)
       [(py "Bob", bob_with_birthday "26.02.1990" (mkdate 1990 2 26));
        (py "Ann", ann_with_birthday "29.02.2024" (mkdate 2024 2 29))]
     = raise ValueError "day is out of range for month"
  /\ Birthday_init (py "12.06.0999")
     = Ok (mkBirthday (mkdate 999 6 12) (py "12.06.0999"))
  /\ anniversary (mkdate 2024 6 10) (mkdate 999 6 12) = mkdate 2024 6 12
  /\ days_between (mkdate 2024 6 12) (mkdate 2024 6 10) = 2
  /\ get_upcoming_birthdays (mkdate 2024 6 10)
       [(py "Ann", ann_with_birthday "12.06.0999" (mkdate 999 6 12))]
     = raise ValueError
         "time data '12.06.999' does not match format '%d.%m.%Y'".
Proof. repeat split; vm_compute; reflexivity. Qed.

(** C2: whenever the query returns, the pairs it emits are those of the
    candidates among the records, one for each and in their order; the pair
    of a candidate carries its name and, formatted as DD.MM.YYYY, the
    anniversary moved 2 days on from a Saturday, 1 day on from a Sunday, and
    left as it is otherwise.  ([today] is the date of the system clock, in a
    year of four digits.) *)
Theorem query_congratulations (today : date) (book : AddressBook)
  (out : list Upcoming) :
  date_ok today = true -> 1000 <= year today ->
  Forall birthday_valid (values book) ->
  get_upcoming_birthdays today book = Ok out ->
  Forall2 (congratulation today) (filter (candidate today) (values book)) out.
Proof.
  intros Htoday Hyear Hall Hq. unfold get_upcoming_birthdays in Hq.
  destruct (upcoming_loop_filter today (candidate today)
              (congratulation today) (values book)) with (acc := @nil Upcoming)
      (out := out) as (entries & -> & Hentries); [|exact Hq|exact Hentries].
  intros r acc acc' Hin Hstep.
  pose proof (proj1 (Forall_forall _ _) Hall r Hin) as Hvalid.
  unfold candidate, congratulation.
  destruct (birthday r) as [b|] eqn:Hb.
  - destruct (upcoming_step_returns _ _ _ _ _ Htoday Hb (Hvalid b Hb) Hstep)
      as (_ & Ha & Hge & [(Hle & c & Hc & Ho & Hsame & ->)|(Hgt & ->)]).
    + left. rewrite Ha. cbn [andb].
      split; [apply andb_true_iff; rewrite !Z.leb_le; lia|].
      eexists. split; [|reflexivity]. exists b, c.
      repeat (split; [assumption || reflexivity|]).
      rewrite strftime_dmY_format; [reflexivity | assumption |].
      pose proof (anniversary_year today (Birthday_date b)).
      pose proof (weekend_shift_nonneg
                    (weekday (anniversary today (Birthday_date b)))).
      pose proof (year_le_toordinal _ _ Ha Hc ltac:(lia)). lia.
    + right. split; [|reflexivity].
      apply andb_false_iff. right. apply Z.leb_gt. lia.
  - rewrite (upcoming_step_no_birthday _ _ _ Hb) in Hstep.
    injection Hstep as <-. right. auto.
Qed.

Lemma query_congratulations_witness :
  date_ok (mkdate 2024 6 10) = true /\ 1000 <= year (mkdate 2024 6 10)
  /\ Forall birthday_valid
       (values [(py "Ann", ann_with_birthday "15.06.1990" (mkdate 1990 6 15));
                (py "Bob", bob_with_birthday "18.06.1990" (mkdate 1990 6 18))])
  /\ get_upcoming_birthdays (mkdate 2024 6 10)
       [(py "Ann", ann_with_birthday "15.06.1990" (mkdate 1990 6 15));
        (py "Bob", bob_with_birthday "18.06.1990" (mkdate 1990 6 18))]
     = Ok [mkUpcoming (py "Ann") (py "17.06.2024")]
  /\ Forall2 (congratulation (mkdate 2024 6 10))
       (filter (candidate (mkdate 2024 6 10))
          (values
             [(py "Ann", ann_with_birthday "15.06.1990" (mkdate 1990 6 15));
              (py "Bob", bob_with_birthday "18.06.1990" (mkdate 1990 6 18))]))
       [mkUpcoming (py "Ann") (py "17.06.2024")].
Proof.
  assert (H : Forall birthday_valid
                (values
                   [(py "Ann",
                     ann_with_birthday "15.06.1990" (mkdate 1990 6 15));
                    (py "Bob",
                     bob_with_birthday "18.06.1990" (mkdate 1990 6 18))])).
  { constructor; [|constructor; [|constructor]];
      intros b [= <-]; reflexivity. }
  assert (Hy : 1000 <= year (mkdate 2024 6 10)) by (cbn; lia).
  split; [reflexivity|]. split; [exact Hy|]. split; [exact H|].
  split; [reflexivity|].
  exact (query_congratulations (mkdate 2024 6 10) _ _ eq_refl Hy H eq_refl).
Defined.

(** The weekend of 15 and 16 June 2024 is congratulated on Monday 17. *)
Lemma upcoming_step_weekend :
  weekday (mkdate 2024 6 15) = 5 /\ weekday (mkdate 2024 6 16) = 6
  /\ weekday (mkdate 2024 6 17) = 0
  /\ upcoming_step (mkdate 2024 6 10)
       (ann_with_birthday "15.06.1990" (mkdate 1990 6 15)) []
     = Ok [mkUpcoming (py "Ann") (py "17.06.2024")]
  /\ upcoming_step (mkdate 2024 6 10)
       (ann_with_birthday "16.06.1990" (mkdate 1990 6 16)) []
     = Ok [mkUpcoming (py "Ann") (py "17.06.2024")]
  /\ upcoming_step (mkdate 2024 6 10)
       (ann_with_birthday "14.06.1990" (mkdate 1990 6 14)) []
     = Ok [mkUpcoming (py "Ann") (py "14.06.2024")].
Proof. repeat split; vm_compute; reflexivity. Qed.

(** The query raises nothing but [ValueError]: the dates it shifts are
    dates of the calendar, and no weekend lies at its very end. *)
Lemma congratulate_kind (today : date) (record : ContactRecord)
  (acc : list Upcoming) (a : date) (e : exn) :
  date_ok a = true -> congratulate today record acc a <> Err e.
Proof.
  intros Ha. unfold congratulate.
  destruct (_ && _); [|discriminate].
  destruct (weekend_shift_spec a Ha) as (c & -> & _). discriminate.
Qed.

Lemma upcoming_step_kind (today : date) (record : ContactRecord)
  (acc : list Upcoming) (e : exn) :
  upcoming_step today record acc = Err e -> kind e = ValueError.
Proof.
  unfold upcoming_step. destruct (birthday record) as [b|]; [|discriminate].
  destruct (strptime_dmY (strftime_dmY (Birthday_date b))) as [bday|e0] eqn:E;
    [|intros [= <-]; eapply strptime_dmY_err; eassumption].
  cbn [bind]. unfold replace_year.
  destruct (date_new (year today) (month bday) (day bday)) as [x|e1] eqn:E1;
    [|intros [= <-]; eapply date_new_err; eassumption].
  cbn [bind]. apply date_new_inv in E1. destruct E1 as [-> Hx].
  destruct (date_ltb _ today).
  - destruct (date_new _ _ _) as [a|e2] eqn:E2;
      [|intros [= <-]; eapply date_new_err; eassumption].
    cbn [bind]. apply date_new_inv in E2. destruct E2 as [_ Ha].
    intros H. destruct (congratulate_kind today record acc a e Ha H).
  - cbn [bind].
    intros H. destruct (congratulate_kind today record acc _ e Hx H).
Qed.

Lemma upcoming_loop_kind (today : date) (records : list ContactRecord)
  (acc : list Upcoming) (e : exn) :
  upcoming_loop today records acc = Err e -> kind e = ValueError.
Proof.
  revert acc. induction records as [|record rest IH]; intros acc; cbn.
  - discriminate.
  - destruct (upcoming_step today record acc) as [acc'|e0] eqn:E; cbn.
    + apply IH.
    + intros [= <-]. eapply upcoming_step_kind; eassumption.
Qed.

(** ** The command boundary *)

Lemma Phone_init_kind (text : str) (e : exn) :
  Phone_init text = Err e -> kind e = ValueError.
Proof.
  unfold Phone_init. destruct (negb _); [intros [= <-]; reflexivity|].
  discriminate.
Qed.

Lemma Birthday_init_kind (text : str) (e : exn) :
  Birthday_init text = Err e -> kind e = ValueError.
Proof.
  unfold Birthday_init.
  destruct (strptime_dmY text) as [d|e0] eqn:E; [discriminate|].
  rewrite (strptime_dmY_err _ _ E). intros [= <-]; reflexivity.
Qed.

Lemma mutated_kind (key : str) (r : result ContactRecord) (message : str)
  (book book' : AddressBook) (e : exn) :
  (forall e0, r = Err e0 -> kind e0 = ValueError) ->
  mutated key r message book = (Err e, book') -> kind e = ValueError.
Proof.
  intros Hr. unfold mutated. destruct r as [x|e0]; [discriminate|].
  intros [= <- _]. auto.
Qed.

Lemma add_phone_kind (self : ContactRecord) (text : str) (e : exn) :
  add_phone self text = Err e -> kind e = ValueError.
Proof.
  unfold add_phone. destruct (Phone_init text) eqn:E; [discriminate|].
  intros [= <-]. eapply Phone_init_kind; eassumption.
Qed.

Lemma edit_phone_kind (self : ContactRecord) (old new : str) (e : exn) :
  edit_phone self old new = Err e -> kind e = ValueError.
Proof.
  unfold edit_phone. destruct (List.find _ _) as [[idx p]|].
  - destruct (Phone_init new) eqn:E; [discriminate|].
    intros [= <-]. eapply Phone_init_kind; eassumption.
  - intros [= <-]; reflexivity.
Qed.

Lemma add_birthday_to_kind (self : ContactRecord) (text : str) (e : exn) :
  add_birthday_to self text = Err e -> kind e = ValueError.
Proof.
  unfold add_birthday_to. destruct (Birthday_init text) eqn:E; [discriminate|].
  intros [= <-]. eapply Birthday_init_kind; eassumption.
Qed.

Lemma add_contact_body_kind (args : list str) (book book' : AddressBook)
  (e : exn) :
  add_contact_body args book = (Err e, book') -> kind e = ValueError.
Proof.
  unfold add_contact_body.
  destruct args as [|nm [|phone rest]]; try (intros [= <- _]; reflexivity).
  destruct (find nm book) as [record|].
  - destruct phone; [discriminate|].
    apply mutated_kind. apply add_phone_kind.
  - destruct (Record_init nm) as [record|e0] eqn:E.
    + destruct phone; [discriminate|].
      apply mutated_kind. apply add_phone_kind.
    + intros [= <- _]. destruct nm; [injection E as <-; reflexivity|].
      discriminate.
Qed.

Lemma change_contact_body_kind (args : list str) (book book' : AddressBook)
  (e : exn) :
  change_contact_body args book = (Err e, book') -> kind e = ValueError.
Proof.
  unfold change_contact_body.
  destruct args as [|nm [|old [|new [|x rest]]]];
    try (intros [= <- _]; reflexivity).
  destruct (find nm book) as [record|]; [|discriminate].
  apply mutated_kind. intros e0.
  destruct (edit_phone record old new) as [r|e1] eqn:E; [discriminate|].
  intros [= <-]. eapply edit_phone_kind; eassumption.
Qed.

Lemma show_phones_body_kind (args : list str) (book book' : AddressBook)
  (e : exn) :
  show_phones_body args book = (Err e, book') -> kind e = IndexError.
Proof.
  unfold show_phones_body. destruct args as [|nm rest].
  - intros [= <- _]; reflexivity.
  - destruct (find nm book); discriminate.
Qed.

Lemma show_all_body_ok (book : AddressBook) :
  exists s, show_all_body book = (Ok s, book).
Proof.
  unfold show_all_body. destruct (join nl _); eexists; reflexivity.
Qed.

Lemma add_birthday_body_kind (args : list str) (book book' : AddressBook)
  (e : exn) :
  add_birthday_body args book = (Err e, book') -> kind e = ValueError.
Proof.
  unfold add_birthday_body.
  destruct args as [|nm [|date_str [|x rest]]];
    try (intros [= <- _]; reflexivity).
  destruct (find nm book) as [record|]; [|discriminate].
  apply mutated_kind. apply add_birthday_to_kind.
Qed.

Lemma show_birthday_body_kind (args : list str) (book book' : AddressBook)
  (e : exn) :
  show_birthday_body args book = (Err e, book') -> kind e = IndexError.
Proof.
  unfold show_birthday_body. destruct args as [|nm rest].
  - intros [= <- _]; reflexivity.
  - destruct (find nm book) as [record|]; [|discriminate].
    destruct (birthday record); discriminate.
Qed.

Lemma birthdays_body_kind (today : date) (args : list str)
  (book book' : AddressBook) (e : exn) :
  birthdays_body today args book = (Err e, book') -> kind e = ValueError.
Proof.
  unfold birthdays_body, get_upcoming_birthdays.
  destruct (upcoming_loop today (values book) []) as [[|u l]|e0] eqn:E;
    try discriminate.
  intros [= <- _]. eapply upcoming_loop_kind; eassumption.
Qed.

Lemma input_error_catches (body : AddressBook -> outcome)
  (book : AddressBook) :
  (forall e book', body book = (Err e, book') -> kind e <> OverflowError) ->
  (exists s book', input_error body book = (Ok s, book'))
  /\ (forall e book', body book = (Err e, book') ->
      input_error body book = (Ok (py "Error: " ++ message e), book')).
Proof.
  intros H. unfold input_error.
  destruct (body book) as [[s|e] b] eqn:E.
  - split; [eauto | discriminate].
  - specialize (H e b eq_refl).
    destruct (kind e) eqn:K; try congruence;
      (split; [eauto | intros e' b' [= <- <-]; reflexivity]).
Qed.

(** C9: every command returns a string whatever the arguments and the
    address book; an exception of its body, be it a failed validation or a
    missing argument, comes back as "Error: " followed by its message. *)
Theorem commands_never_raise :
  (forall (today : date) (args : list str) (book : AddressBook),
      Forall (returns_string book) (commands today args))
  /\ (forall (args : list str) (book : AddressBook),
         ((List.length args < 2)%nat ->
          add_contact args book
          = (Ok (py "Error: "
                 ++ message (not_enough_values "at least 2"
                               (List.length args))), book))
         /\ ((List.length args < 3)%nat ->
             change_contact args book
             = (Ok (py "Error: "
                    ++ message (not_enough_values "3" (List.length args))),
                book))
         /\ ((List.length args < 1)%nat ->
             show_phones args book
             = (Ok (py "Error: list index out of range"), book))
         /\ ((List.length args < 2)%nat ->
             add_birthday args book
             = (Ok (py "Error: "
                    ++ message (not_enough_values "2" (List.length args))),
                book))
         /\ ((List.length args < 1)%nat ->
             show_birthday args book
             = (Ok (py "Error: list index out of range"), book)))
  /\ add_contact [[]; py "1234567890"] []
     = (Ok (py "Error: Name cannot be empty."), [])
  /\ add_contact [py "Ann"; py "12345"] ann_book
     = (Ok (py "Error: Phone number must contain exactly 10 digits."),
        ann_book)
  /\ add_birthday [py "Ann"; py "2024-02-29"] ann_book
     = (Ok (py "Error: Invalid date format. Use DD.MM.YYYY"), ann_book)
  /\ change_contact [py "Ann"; py "0000000000"; py "3333333333"] ann_book
     = (Ok (py "Error: Old phone number not found."), ann_book).
Proof.
  split; [|split; [|repeat split; reflexivity]].
  - intros today args book. unfold commands, returns_string.
    repeat apply Forall_cons; try apply Forall_nil; cbn [fst snd].
    + apply input_error_catches. intros e b H.
      rewrite (add_contact_body_kind _ _ _ _ H). discriminate.
    + apply input_error_catches. intros e b H.
      rewrite (change_contact_body_kind _ _ _ _ H). discriminate.
    + apply input_error_catches. intros e b H.
      rewrite (show_phones_body_kind _ _ _ _ H). discriminate.
    + apply input_error_catches. intros e b H.
      destruct (show_all_body_ok book) as [s Hs]. congruence.
    + apply input_error_catches. intros e b H.
      rewrite (add_birthday_body_kind _ _ _ _ H). discriminate.
    + apply input_error_catches. intros e b H.
      rewrite (show_birthday_body_kind _ _ _ _ H). discriminate.
    + apply input_error_catches. intros e b H.
      rewrite (birthdays_body_kind _ _ _ _ _ H). discriminate.
  - intros args book. repeat split; intros Hlen.
    + destruct args as [|? [|? ?]]; cbn in Hlen; try lia; reflexivity.
    + destruct args as [|? [|? [|? ?]]]; cbn in Hlen; try lia; reflexivity.
    + destruct args; cbn in Hlen; try lia; reflexivity.
    + destruct args as [|? [|? ?]]; cbn in Hlen; try lia; reflexivity.
    + destruct args; cbn in Hlen; try lia; reflexivity.
Qed.

(** ** A birthday on 29 February *)

(** C3 fails on the code: with a birthday on 29 February and today in a
    year that is no leap year, the query raises [ValueError], and so it does
    in a leap year once 29 February has passed. *)
Theorem leap_day_birthday_raises :
  Birthday_init (py "29.02.2024")
  = Ok (mkBirthday (mkdate 2024 2 29) (py "29.02.2024"))
  /\ date_ok (mkdate 2025 2 25) = true
  /\ get_upcoming_birthdays (mkdate 2025 2 25)
       [(py "Ann", ann_with_birthday "29.02.2024" (mkdate 2024 2 29))]
     = raise ValueError "day is out of range for month"
  /\ get_upcoming_birthdays (mkdate 2024 3 1)
       [(py "Ann", ann_with_birthday "29.02.2024" (mkdate 2024 2 29))]
     = raise ValueError "day is out of range for month"
  /\ birthdays (mkdate 2025 2 25) []
       [(py "Ann", ann_with_birthday "29.02.2024" (mkdate 2024 2 29))]
     = (Ok (py "Error: day is out of range for month"),
        [(py "Ann", ann_with_birthday "29.02.2024" (mkdate 2024 2 29))]).
Proof. repeat split; vm_compute; reflexivity. Qed.

(** * Further properties of the code *)

(** ** Phones of a record *)

Lemma filter_forallb {A} (f : A -> bool) (l : list A) :
  forallb f (filter f l) = true.
Proof.
  induction l as [|x l IH]; cbn; [reflexivity|].
  destruct (f x) eqn:E; cbn; [rewrite E|]; assumption.
Qed.

Lemma filter_all {A} (f : A -> bool) (l : list A) :
  forallb f l = true -> filter f l = l.
Proof.
  induction l as [|x l IH]; cbn; [reflexivity|].
  intros H. apply andb_true_iff in H. destruct H as [-> H].
  rewrite IH by assumption. reflexivity.
Qed.

Lemma Phone_init_ok_inv (text : str) (p : Phone) :
  Phone_init text = Ok p ->
  p = mkPhone (re_sub_non_digits text)
  /\ List.length (re_sub_non_digits text) = 10%nat.
Proof.
  unfold Phone_init, is_valid.
  destruct (Z.eqb_spec (Z.of_nat (List.length (re_sub_non_digits text))) 10)
    as [E|E]; cbn; [|discriminate].
  intros [= <-]. split; [reflexivity | lia].
Qed.

Lemma Phone_init_valid (text : str) :
  List.length (re_sub_non_digits text) = 10%nat ->
  Phone_init text = Ok (mkPhone (re_sub_non_digits text)).
Proof.
  intros H. unfold Phone_init, is_valid. rewrite H. reflexivity.
Qed.

(** X1: a phone that [Phone] accepted holds ten digits and nothing else,
    and building a phone from its value gives the same phone again. *)
Theorem Phone_init_canonical (text : str) (p : Phone) :
  Phone_init text = Ok p ->
  phone_ok p /\ Phone_init (Phone_value p) = Ok p.
Proof.
  intros H. apply Phone_init_ok_inv in H. destruct H as [-> Hlen].
  unfold phone_ok, re_sub_non_digits in *. cbn [Phone_value].
  split; [split; [assumption | apply filter_forallb]|].
  unfold Phone_init, is_valid, re_sub_non_digits.
  rewrite (filter_all isdigit (filter isdigit text)) by apply filter_forallb.
  rewrite Hlen. reflexivity.
Qed.

Lemma Phone_init_canonical_witness :
  Phone_init (py "(123) 456-7890") = Ok (mkPhone (py "1234567890"))
  /\ phone_ok (mkPhone (py "1234567890"))
  /\ Phone_init (py "1234567890") = Ok (mkPhone (py "1234567890")).
Proof.
  split; [reflexivity|].
  exact (Phone_init_canonical (py "(123) 456-7890")
           (mkPhone (py "1234567890")) eq_refl).
Defined.

Lemma phone_ok_init (text : str) (p : Phone) :
  Phone_init text = Ok p -> phone_ok p.
Proof.
  intros H. apply Phone_init_ok_inv in H. destruct H as [-> Hlen].
  split; [assumption | apply filter_forallb].
Qed.

Lemma setitem_Forall {A} (P : A -> Prop) (l : list A) (i : nat) (x : A) :
  Forall P l -> P x -> Forall P (setitem l i x).
Proof.
  intros Hl Hx. revert i. induction Hl as [|y l Hy Hl IH]; intros i; cbn.
  - constructor.
  - destruct i; constructor; auto.
Qed.

Lemma Forall_filter {A} (P : A -> Prop) (f : A -> bool) (l : list A) :
  Forall P l -> Forall P (filter f l).
Proof.
  induction 1 as [|x l Hx Hl IH]; cbn; [constructor|].
  destruct (f x); [constructor|]; assumption.
Qed.

(** X2: the methods that change the phones of a record keep them valid:
    when every phone of the record holds ten digits, so does every phone
    after [add_phone], [remove_phone] and [edit_phone]. *)
Theorem phones_stay_valid (self : ContactRecord) :
  Forall phone_ok (phones self) ->
  (forall text self',
      add_phone self text = Ok self' -> Forall phone_ok (phones self'))
  /\ (forall text self',
         remove_phone self text = Ok self' -> Forall phone_ok (phones self'))
  /\ (forall old new self' b,
         edit_phone self old new = Ok (self', b) ->
         Forall phone_ok (phones self')).
Proof.
  intros Hall. repeat split.
  - intros text self'. unfold add_phone.
    destruct (Phone_init text) as [p|e] eqn:E; [|discriminate].
    intros [= <-]. cbn. apply Forall_app. split; [assumption|].
    constructor; [eapply phone_ok_init; eassumption | constructor].
  - intros text self'. unfold remove_phone. intros [= <-]. cbn.
    apply Forall_filter; assumption.
  - intros old new self' b. unfold edit_phone.
    destruct (List.find _ _) as [[idx p0]|]; [|discriminate].
    destruct (Phone_init new) as [p|e] eqn:E; [|discriminate].
    intros [= <- _]. cbn. apply setitem_Forall; [assumption|].
    eapply phone_ok_init; eassumption.
Qed.

Lemma phones_stay_valid_witness :
  Forall phone_ok (phones two_phones)
  /\ (forall text self',
         add_phone two_phones text = Ok self' ->
         Forall phone_ok (phones self')).
Proof.
  assert (H : Forall phone_ok (phones two_phones)).
  { repeat constructor. }
  split; [exact H|].
  exact (proj1 (phones_stay_valid two_phones H)).
Defined.

Lemma find_none_iff {A} (f : A -> bool) (l : list A) :
  List.find f l = None <-> (forall x, In x l -> f x = false).
Proof.
  induction l as [|x l IH]; cbn.
  - split; [intros _ y [] | reflexivity].
  - destruct (f x) eqn:E.
    + split; [discriminate|]. intros H.
      rewrite (H x (or_introl eq_refl)) in E. discriminate.
    + rewrite IH. split.
      * intros H y [<-|Hy]; auto.
      * intros H y Hy; apply H; right; assumption.
Qed.

Lemma find_first {A} (f : A -> bool) (l : list A) (x : A) :
  List.find f l = Some x <->
  exists before after,
    l = before ++ x :: after /\ f x = true
    /\ (forall y, In y before -> f y = false).
Proof.
  induction l as [|y l IH]; cbn.
  - split; [discriminate|]. intros ([|? ?] & after & [=] & _).
  - destruct (f y) eqn:E.
    + split.
      * intros [= <-]. exists [], l. split; [reflexivity|].
        split; [assumption | intros ? []].
      * intros ([|z before] & after & [= <- ?] & Hx & Hb).
        -- reflexivity.
        -- rewrite (Hb y (or_introl eq_refl)) in E. discriminate.
    + rewrite IH. split.
      * intros (before & after & -> & Hx & Hb).
        exists (y :: before), after. split; [reflexivity|].
        split; [assumption|]. intros z [<-|Hz]; auto.
      * intros ([|z before] & after & [= <- ?] & Hx & Hb).
        -- congruence.
        -- subst l. exists before, after. split; [reflexivity|].
           split; [assumption|]. intros w Hw; apply Hb; right; assumption.
Qed.

Lemma edit_phone_not_found (self : ContactRecord) (old new : str) :
  edit_phone self old new = Err PhoneNotFound <->
  (forall p, In p (phones self) ->
             str_eqb (Phone_value p) (re_sub_non_digits old) = false).
Proof.
  unfold edit_phone, enumerate.
  rewrite <- (find_enumerate_none
                (fun p => str_eqb (Phone_value p) (re_sub_non_digits old))
                (phones self) 0).
  destruct (List.find _ _) as [[idx p0]|].
  - split; [|discriminate].
    destruct (Phone_init new) as [p|e] eqn:E; [discriminate|].
    unfold Phone_init in E.
    destruct (negb _); [injection E as <-|]; discriminate.
  - split; reflexivity.
Qed.

(** X3: [find_phone] returns nothing exactly when no phone of the record has
    the digits of the text; what it returns is the first phone with these
    digits; and [edit_phone] reports a missing phone in exactly the cases
    in which [find_phone] finds none. *)
Theorem find_phone_spec (self : ContactRecord) (text : str) :
  (find_phone self text = None <->
   forall p, In p (phones self) -> Phone_value p <> re_sub_non_digits text)
  /\ (forall p,
         find_phone self text = Some p <->
         exists before after,
           phones self = before ++ p :: after
           /\ Phone_value p = re_sub_non_digits text
           /\ (forall q, In q before ->
                         Phone_value q <> re_sub_non_digits text))
  /\ (forall new,
         edit_phone self text new = Err PhoneNotFound <->
         find_phone self text = None).
Proof.
  unfold find_phone. repeat split.
  - intros H p Hp. apply str_eqb_neq.
    apply (proj1 (find_none_iff _ _) H p Hp).
  - intros H. apply find_none_iff. intros p Hp. apply str_eqb_neq. auto.
  - intros H. apply find_first in H.
    destruct H as (before & after & E & Hp & Hb).
    exists before, after. split; [assumption|].
    split; [apply str_eqb_eq; assumption|].
    intros q Hq. apply str_eqb_neq. auto.
  - intros (before & after & E & Hp & Hb). apply find_first.
    exists before, after. split; [assumption|].
    split; [apply str_eqb_eq; assumption|].
    intros q Hq. apply str_eqb_neq. auto.
  - intros H. apply find_none_iff.
    exact (proj1 (edit_phone_not_found _ _ _) H).
  - intros H. apply edit_phone_not_found.
    apply (proj1 (find_none_iff _ _) H).
Qed.

Lemma find_app {A} (f : A -> bool) (l1 l2 : list A) :
  List.find f (l1 ++ l2) =
  match List.find f l1 with
  | Some x => Some x
  | None => List.find f l2
  end.
Proof.
  induction l1 as [|x l1 IH]; cbn; [reflexivity|].
  destruct (f x); [reflexivity | exact IH].
Qed.

Lemma find_some_exists {A} (f : A -> bool) (l : list A) (x : A) :
  In x l -> f x = true -> exists y, List.find f l = Some y /\ f y = true.
Proof.
  intros Hin Hx. destruct (List.find f l) as [y|] eqn:E.
  - exists y. split; [reflexivity|]. apply find_some in E. tauto.
  - rewrite (proj1 (find_none_iff f l) E x Hin) in Hx. discriminate.
Qed.

Lemma find_filter_other {A} (f g : A -> bool) (l : list A) :
  (forall x, g x = true -> f x = true) ->
  List.find g (filter f l) = List.find g l.
Proof.
  intros H. induction l as [|x l IH]; cbn; [reflexivity|].
  destruct (f x) eqn:Ef; cbn.
  - destruct (g x); [reflexivity | exact IH].
  - destruct (g x) eqn:Eg; [|exact IH].
    rewrite (H x Eg) in Ef. discriminate.
Qed.

Lemma str_eqb_other (v a b : str) :
  a <> b -> str_eqb v a = true -> str_eqb v b = false.
Proof.
  intros Hne Ha. apply str_eqb_eq in Ha. subst v.
  apply str_eqb_neq. assumption.
Qed.

(** X4: a successful [add_phone] appends the ten digits of the text as the
    last phone and leaves name, birthday and the phones before untouched;
    [find_phone] then finds these digits, and the lookup of any other number
    gives what it gave before. *)
Theorem add_phone_find_phone (self self' : ContactRecord) (text : str) :
  add_phone self text = Ok self' ->
  phones self' = phones self ++ [mkPhone (re_sub_non_digits text)]
  /\ name self' = name self /\ birthday self' = birthday self
  /\ (exists p, find_phone self' text = Some p
                /\ Phone_value p = re_sub_non_digits text)
  /\ (forall other,
         re_sub_non_digits other <> re_sub_non_digits text ->
         find_phone self' other = find_phone self other).
Proof.
  unfold add_phone.
  destruct (Phone_init text) as [p|e] eqn:E; [|discriminate].
  apply Phone_init_ok_inv in E. destruct E as [-> _].
  intros [= <-]. cbn [phones name birthday set_phones].
  repeat (split; [reflexivity|]). unfold find_phone.
  cbn [phones set_phones]. split.
  - destruct (find_some_exists
                (fun ph => str_eqb (Phone_value ph) (re_sub_non_digits text))
                (phones self ++ [mkPhone (re_sub_non_digits text)])
                (mkPhone (re_sub_non_digits text))) as (q & Hq & Hv).
    + apply in_or_app; right; left; reflexivity.
    + apply str_eqb_refl.
    + exists q. split; [assumption | apply str_eqb_eq; assumption].
  - intros other Hne. rewrite find_app.
    destruct (List.find _ (phones self)); [reflexivity|]. cbn.
    replace (str_eqb (re_sub_non_digits text) (re_sub_non_digits other))
      with false; [reflexivity|].
    symmetry. apply str_eqb_neq. congruence.
Qed.

Lemma add_phone_find_phone_witness :
  add_phone two_phones (py "333 333 33 33")
  = Ok (set_phones two_phones
          [mkPhone (py "1111111111"); mkPhone (py "2222222222");
           mkPhone (py "3333333333")])
  /\ exists p,
       find_phone
         (set_phones two_phones
            [mkPhone (py "1111111111"); mkPhone (py "2222222222");
             mkPhone (py "3333333333")]) (py "333 333 33 33") = Some p
       /\ Phone_value p = re_sub_non_digits (py "333 333 33 33").
Proof.
  split; [reflexivity|].
  exact (proj1 (proj2 (proj2 (proj2
           (add_phone_find_phone two_phones _ (py "333 333 33 33")
              eq_refl))))).
Defined.

(** X5: after [remove_phone] the number is gone: [find_phone] finds nothing,
    [edit_phone] reports a missing phone, removing it again changes
    nothing, and the lookup of any other number gives what it gave
    before. *)
Theorem remove_phone_then (self : ContactRecord) (text : str) :
  exists self',
    remove_phone self text = Ok self'
    /\ find_phone self' text = None
    /\ remove_phone self' text = Ok self'
    /\ (forall new, edit_phone self' text new = Err PhoneNotFound)
    /\ (forall other,
           re_sub_non_digits other <> re_sub_non_digits text ->
           find_phone self' other = find_phone self other).
Proof.
  set (clean := re_sub_non_digits text).
  set (keep := fun phone => negb (str_eqb (Phone_value phone) clean)).
  exists (set_phones self (filter keep (phones self))).
  assert (Hgone : forall p, In p (filter keep (phones self)) ->
                            str_eqb (Phone_value p) clean = false).
  { intros p Hp. apply filter_In in Hp. destruct Hp as [_ Hk].
    unfold keep in Hk. apply negb_true_iff in Hk. exact Hk. }
  split; [reflexivity|]. split; [|split; [|split]].
  - unfold find_phone. cbn [phones set_phones]. fold clean.
    apply find_none_iff. exact Hgone.
  - unfold remove_phone. cbn [phones set_phones name birthday].
    fold clean. fold keep.
    rewrite (filter_all keep (filter keep (phones self)))
      by apply filter_forallb.
    reflexivity.
  - intros new. apply edit_phone_not_found. cbn [phones set_phones].
    exact Hgone.
  - intros other Hne. unfold find_phone. cbn [phones set_phones].
    apply find_filter_other. intros p Hp. unfold keep.
    apply negb_true_iff. apply (str_eqb_other _ _ _ Hne Hp).
Qed.

Lemma filter_app_last {A} (f : A -> bool) (l : list A) (x : A) :
  (forall y, In y l -> f y = true) -> f x = false ->
  filter f (l ++ [x]) = l.
Proof.
  intros Hl Hx. rewrite filter_app. cbn. rewrite Hx, app_nil_r.
  apply filter_all. apply forallb_forall. exact Hl.
Qed.

(** X6: adding a number that the record does not hold and removing it again
    gives the record back. *)
Theorem add_then_remove_phone (self self' : ContactRecord) (text : str) :
  find_phone self text = None ->
  add_phone self text = Ok self' ->
  remove_phone self' text = Ok self.
Proof.
  intros Hnone Hadd. unfold add_phone in Hadd.
  destruct (Phone_init text) as [p|e] eqn:E; [|discriminate].
  apply Phone_init_ok_inv in E. destruct E as [-> _].
  injection Hadd as <-. unfold remove_phone.
  cbn [phones set_phones name birthday].
  rewrite filter_app_last.
  - destruct self; reflexivity.
  - intros q Hq. apply negb_true_iff.
    apply (proj1 (find_none_iff _ _) Hnone q Hq).
  - cbn. rewrite str_eqb_refl. reflexivity.
Qed.

Lemma add_then_remove_phone_witness :
  find_phone two_phones (py "333 333 33 33") = None
  /\ add_phone two_phones (py "333 333 33 33")
     = Ok (set_phones two_phones
             [mkPhone (py "1111111111"); mkPhone (py "2222222222");
              mkPhone (py "3333333333")])
  /\ remove_phone
       (set_phones two_phones
          [mkPhone (py "1111111111"); mkPhone (py "2222222222");
           mkPhone (py "3333333333")]) (py "333 333 33 33")
     = Ok two_phones.
Proof.
  split; [reflexivity|]. split; [reflexivity|].
  exact (add_then_remove_phone two_phones _ (py "333 333 33 33")
           eq_refl eq_refl).
Defined.

Lemma find_enumerate_some {A} (f : A -> bool) (l : list A) (i idx : nat)
  (x : A) :
  List.find (fun ip => f (snd ip)) (enumerate_from i l) = Some (idx, x) ->
  exists before after,
    l = before ++ x :: after /\ idx = (i + List.length before)%nat
    /\ f x = true /\ (forall y, In y before -> f y = false).
Proof.
  revert i. induction l as [|y l IH]; intros i; cbn; [discriminate|].
  destruct (f y) eqn:E.
  - intros [= <- <-]. exists [], l. cbn.
    split; [reflexivity|]. split; [lia|]. split; [assumption | intros ? []].
  - intros H. apply IH in H. destruct H as (before & after & -> & -> & Hx & Hb).
    exists (y :: before), after. cbn.
    split; [reflexivity|]. split; [lia|]. split; [assumption|].
    intros z [<-|Hz]; auto.
Qed.

(** X7: a successful [edit_phone] returns [True], keeps the number of phones,
    the name and the birthday, makes the new number one that [find_phone]
    finds, and leaves the lookup of every number other than the old and the
    new one as it was. *)
Theorem edit_phone_success (self self' : ContactRecord) (old new : str)
  (b : bool) :
  edit_phone self old new = Ok (self', b) ->
  b = true
  /\ List.length (phones self') = List.length (phones self)
  /\ name self' = name self /\ birthday self' = birthday self
  /\ (exists p, find_phone self' new = Some p
                /\ Phone_value p = re_sub_non_digits new)
  /\ (forall other,
         re_sub_non_digits other <> re_sub_non_digits old ->
         re_sub_non_digits other <> re_sub_non_digits new ->
         find_phone self' other = find_phone self other).
Proof.
  unfold edit_phone, enumerate.
  destruct (List.find _ _) as [[idx p0]|] eqn:F; [|discriminate].
  apply (find_enumerate_some
           (fun p => str_eqb (Phone_value p) (re_sub_non_digits old))) in F.
  destruct F as (before & after & Hl & -> & Hp0 & Hb).
  destruct (Phone_init new) as [p|e] eqn:E; [|discriminate].
  apply Phone_init_ok_inv in E. destruct E as [-> _].
  intros [= <- <-]. cbn [phones name birthday set_phones].
  rewrite Hl. cbn [Nat.add]. rewrite setitem_middle.
  split; [reflexivity|]. split; [rewrite !length_app; reflexivity|].
  split; [reflexivity|]. split; [reflexivity|].
  unfold find_phone. cbn [phones set_phones]. rewrite Hl. split.
  - destruct (find_some_exists
                (fun ph => str_eqb (Phone_value ph) (re_sub_non_digits new))
                (before ++ mkPhone (re_sub_non_digits new) :: after)
                (mkPhone (re_sub_non_digits new))) as (q & Hq & Hv).
    + apply in_or_app; right; left; reflexivity.
    + apply str_eqb_refl.
    + exists q. split; [assumption | apply str_eqb_eq; assumption].
  - intros other Hold Hnew. rewrite !find_app.
    destruct (List.find _ before); [reflexivity|]. cbn.
    rewrite (str_eqb_other _ _ _ (not_eq_sym Hold) Hp0).
    replace (str_eqb (re_sub_non_digits new) (re_sub_non_digits other))
      with false; [reflexivity|].
    symmetry. apply str_eqb_neq. congruence.
Qed.

Lemma edit_phone_success_witness :
  edit_phone two_phones (py "111-111-1111") (py "3333333333")
  = Ok (set_phones two_phones
          [mkPhone (py "3333333333"); mkPhone (py "2222222222")], true)
  /\ List.length
       (phones (set_phones two_phones
                  [mkPhone (py "3333333333"); mkPhone (py "2222222222")]))
     = List.length (phones two_phones).
Proof.
  split; [reflexivity|].
  exact (proj1 (proj2 (edit_phone_success two_phones _ (py "111-111-1111")
                         (py "3333333333") true eq_refl))).
Defined.

(** ** Records of the address book *)

Lemma dict_get_del_other (k k0 : str) (d : AddressBook) :
  k0 <> k -> dict_get k0 (dict_del k d) = dict_get k0 d.
Proof.
  intros Hne. induction d as [|[k' v'] d IH]; cbn; [reflexivity|].
  destruct (str_eqb k' k) eqn:E; cbn.
  - apply str_eqb_eq in E. subst k'.
    destruct (str_eqb k k0) eqn:E0; [|reflexivity].
    apply str_eqb_eq in E0. congruence.
  - rewrite IH. reflexivity.
Qed.

Lemma dict_del_absent (k : str) (d : AddressBook) :
  dict_get k d = None -> dict_del k d = d.
Proof.
  induction d as [|[k' v'] d IH]; cbn; [reflexivity|].
  destruct (str_eqb k' k); [discriminate|].
  intros H. rewrite IH by assumption. reflexivity.
Qed.

Lemma dict_del_keys (k : str) (d : AddressBook) :
  NoDup (keys d) ->
  keys (dict_del k d) = filter (fun k' => negb (str_eqb k' k)) (keys d).
Proof.
  unfold keys.
  induction d as [|[k' v'] d IH]; cbn; intros ND; [reflexivity|].
  inversion ND as [|? ? Hnot ND']; subst.
  destruct (str_eqb k' k) eqn:E; cbn.
  - apply str_eqb_eq in E. subst k'. symmetry. apply filter_all.
    apply forallb_forall. intros x Hx. apply negb_true_iff.
    apply str_eqb_neq. intros ->. contradiction.
  - rewrite IH by assumption. reflexivity.
Qed.

Lemma dict_del_app_last (k : str) (v : ContactRecord) (d : AddressBook) :
  dict_get k d = None -> dict_del k (d ++ [(k, v)]) = d.
Proof.
  induction d as [|[k' v'] d IH]; cbn.
  - rewrite str_eqb_refl. reflexivity.
  - destruct (str_eqb k' k); [discriminate|].
    intros H. rewrite IH by assumption. reflexivity.
Qed.

Lemma dict_get_app_last (k : str) (v : ContactRecord) (d : AddressBook) :
  dict_get k d = None -> dict_get k (d ++ [(k, v)]) = Some v.
Proof.
  induction d as [|[k' v'] d IH]; cbn.
  - rewrite str_eqb_refl. reflexivity.
  - destruct (str_eqb k' k); [discriminate | exact IH].
Qed.

Lemma filter_NoDup {A} (f : A -> bool) (l : list A) :
  NoDup l -> NoDup (filter f l).
Proof.
  induction 1 as [|x l Hx Hl IH]; cbn; [constructor|].
  destruct (f x); [constructor|]; auto.
  intros Hin. apply filter_In in Hin. tauto.
Qed.

(** X8: [delete] takes the record of the name out of the address book and
    nothing else: the name is no longer found, every other name is looked up
    as before, the other keys keep their order, and an address book that
    does not hold the name is left as it is. *)
Theorem delete_spec (book : AddressBook) (nm : str) :
  NoDup (keys book) ->
  find nm (delete nm book) = None
  /\ (forall k, k <> nm -> find k (delete nm book) = find k book)
  /\ keys (delete nm book)
     = filter (fun k => negb (str_eqb k nm)) (keys book)
  /\ NoDup (keys (delete nm book))
  /\ (find nm book = None -> delete nm book = book).
Proof.
  intros ND. unfold find, delete.
  assert (Hkeys : keys (match dict_get nm book with
                        | Some _ => dict_del nm book
                        | None => book
                        end)
                  = filter (fun k => negb (str_eqb k nm)) (keys book)).
  { destruct (dict_get nm book) eqn:E; [apply dict_del_keys; assumption|].
    symmetry. apply filter_all. apply forallb_forall. intros k Hk.
    apply negb_true_iff, str_eqb_neq. intros ->.
    apply dict_get_none in E. contradiction. }
  split; [|split; [|split; [exact Hkeys|split]]].
  - apply dict_get_none. rewrite Hkeys. intros Hin.
    apply filter_In in Hin. destruct Hin as [_ Hin].
    rewrite str_eqb_refl in Hin. discriminate.
  - intros k Hk. destruct (dict_get nm book); [|reflexivity].
    apply dict_get_del_other; assumption.
  - rewrite Hkeys. apply filter_NoDup; assumption.
  - intros ->. reflexivity.
Qed.

Lemma delete_spec_witness :
  NoDup (keys [(py "Ann", two_phones); (py "Bob", three_phones)])
  /\ find (py "Ann")
       (delete (py "Ann") [(py "Ann", two_phones); (py "Bob", three_phones)])
     = None.
Proof.
  assert (ND : NoDup (keys [(py "Ann", two_phones); (py "Bob", three_phones)])).
  { repeat constructor; cbn; intuition discriminate. }
  split; [exact ND|].
  exact (proj1 (delete_spec _ (py "Ann") ND)).
Defined.

(** X9: [add_record] under a name the address book holds keeps the keys and
    their order (the record is replaced in place); under a new name it puts
    the record last, and deleting that name gives the address book back. *)
Theorem add_record_order (book : AddressBook) (r : ContactRecord) :
  (find (Name_value (name r)) book <> None ->
   keys (add_record r book) = keys book)
  /\ (find (Name_value (name r)) book = None ->
      add_record r book = book ++ [(Name_value (name r), r)]
      /\ delete (Name_value (name r)) (add_record r book) = book).
Proof.
  unfold find, add_record, delete. split.
  - apply dict_set_present.
  - intros H. rewrite (dict_set_absent _ _ _ H).
    split; [reflexivity|].
    rewrite (dict_get_app_last _ _ _ H). apply dict_del_app_last, H.
Qed.

(** ** The query on an address book *)

(** X10: records without a birthday play no part in the query: it answers on
    the address book as on the address book without them. *)
Theorem query_skips_no_birthday (today : date) (book : AddressBook) :
  get_upcoming_birthdays today book
  = get_upcoming_birthdays today (filter has_birthday book).
Proof.
  unfold get_upcoming_birthdays, values. generalize (@nil Upcoming).
  induction book as [|[k r] book IH]; intros acc; cbn; [reflexivity|].
  unfold has_birthday at 1. cbn [snd].
  destruct (birthday r) as [b|] eqn:E; cbn.
  - destruct (upcoming_step today r acc); cbn; [apply IH | reflexivity].
  - rewrite (upcoming_step_no_birthday _ _ _ E). cbn. apply IH.
Qed.

Lemma plain_date_ok (y : Z) (b : date) :
  date_ok b = true -> 1 <= y <= 9999 ->
  ~ (month b = 2 /\ day b = 29) ->
  date_ok (mkdate y (month b) (day b)) = true.
Proof.
  intros Hb Hy Hplain.
  destruct (date_ok (mkdate y (month b) (day b))) eqn:E; [reflexivity|].
  destruct (Hplain (leap_day_only y b Hb Hy E)).
Qed.

Lemma upcoming_step_plain (today : date) (record : ContactRecord)
  (acc : list Upcoming) :
  date_ok today = true -> year today < 9999 -> birthday_plain record ->
  exists acc', upcoming_step today record acc = Ok acc'.
Proof.
  intros Htoday Hyear Hplain.
  destruct (birthday record) as [b|] eqn:Hb;
    [|exists acc; apply upcoming_step_no_birthday; assumption].
  destruct (Hplain b Hb) as (Hok & H1000 & Hnot).
  pose proof (date_ok_fields _ Htoday) as (Hy & _ & _).
  rewrite (upcoming_step_eval _ _ _ acc Hb Hok H1000). cbv zeta.
  rewrite (date_new_ok _ (plain_date_ok (year today) _ Hok ltac:(lia) Hnot)).
  cbn [bind].
  assert (Ha : date_ok (anniversary today (Birthday_date b)) = true).
  { unfold anniversary. destruct (date_ltb _ today).
    - apply plain_date_ok; [assumption | lia | assumption].
    - apply plain_date_ok; [assumption | lia | assumption]. }
  rewrite (date_new_ok _ Ha). cbn [bind].
  destruct (congratulate today record acc _) as [acc'|e] eqn:E.
  - exists acc'. reflexivity.
  - destruct (congratulate_kind _ _ _ _ e Ha E).
Qed.

(** X11: the query answers, without an exception, on every address book whose
    birthdays are dates of the calendar in a year of four digits, other than
    29 February, for every date [today] before the year 9999. *)
Theorem query_succeeds (today : date) (book : AddressBook) :
  date_ok today = true -> year today < 9999 ->
  Forall birthday_plain (values book) ->
  exists out, get_upcoming_birthdays today book = Ok out.
Proof.
  intros Htoday Hyear. unfold get_upcoming_birthdays.
  generalize (@nil Upcoming). induction (values book) as [|r rest IH];
    intros acc Hall; cbn.
  - exists acc. reflexivity.
  - inversion Hall as [|? ? Hr Hrest]; subst.
    destruct (upcoming_step_plain today r acc Htoday Hyear Hr) as [acc' ->].
    cbn. apply IH. assumption.
Qed.

Lemma query_succeeds_witness :
  date_ok (mkdate 2025 2 25) = true /\ 2025 < 9999
  /\ Forall birthday_plain
       (values [(py "Ann",
                 ann_with_birthday "28.02.2024" (mkdate 2024 2 28))])
  /\ exists out,
       get_upcoming_birthdays (mkdate 2025 2 25)
         [(py "Ann", ann_with_birthday "28.02.2024" (mkdate 2024 2 28))]
       = Ok out.
Proof.
  assert (H : Forall birthday_plain
                (values [(py "Ann",
                          ann_with_birthday "28.02.2024"
                            (mkdate 2024 2 28))])).
  { constructor; [|constructor]. intros b [= <-]. cbn.
    split; [reflexivity|]. split; [lia | intros [_ E]; discriminate]. }
  split; [reflexivity|]. split; [reflexivity|]. split; [exact H|].
  exact (query_succeeds (mkdate 2025 2 25) _ eq_refl eq_refl H).
Defined.

Lemma weekday_after_weekend (o : Z) :
  0 <= (o + weekend_shift ((o + 6) mod 7) + 6) mod 7 <= 4
  /\ 0 <= weekend_shift ((o + 6) mod 7) <= 2.
Proof.
  unfold weekend_shift.
  pose proof (Z.div_mod (o + 6) 7 ltac:(lia)) as E.
  pose proof (Z.mod_pos_bound (o + 6) 7 ltac:(lia)) as B.
  destruct (Z.eqb_spec ((o + 6) mod 7) 5) as [E5|N5].
  - replace (o + 2 + 6) with (0 + ((o + 6) / 7 + 1) * 7) by lia.
    rewrite Z.mod_add by lia. cbn. lia.
  - destruct (Z.eqb_spec ((o + 6) mod 7) 6) as [E6|N6].
    + replace (o + 1 + 6) with (0 + ((o + 6) / 7 + 1) * 7) by lia.
      rewrite Z.mod_add by lia. cbn. lia.
    + rewrite Z.add_0_r. lia.
Qed.

Lemma upcoming_step_entry (today : date) (record : ContactRecord)
  (acc acc' : list Upcoming) :
  1000 <= year today ->
  birthday_valid record ->
  upcoming_step today record acc = Ok acc' ->
  acc' = acc
  \/ exists c,
       acc' = acc ++ [mkUpcoming (Name_value (name record)) (dd_mm_yyyy c)]
       /\ date_ok c = true /\ 0 <= weekday c <= 4
       /\ 0 <= days_between c today <= 9.
Proof.
  intros Hyear Hvalid.
  destruct (birthday record) as [b|] eqn:Hb;
    [|rewrite (upcoming_step_no_birthday _ _ _ Hb); intros [= <-]; auto].
  destruct (Z.lt_ge_cases (year (Birthday_date b)) 1000) as [Hshort|H1000];
    [rewrite (upcoming_step_short_year _ _ _ acc Hb (Hvalid b Hb) Hshort);
     discriminate|].
  rewrite (upcoming_step_eval _ _ _ acc Hb (Hvalid b Hb) H1000). cbv zeta.
  destruct (date_new _ _ _) as [x|e]; [|discriminate]. cbn [bind].
  pose proof (anniversary_year today (Birthday_date b)) as Hay.
  destruct (date_new _ _ _) as [a|e] eqn:Ea; [|discriminate]. cbn [bind].
  apply date_new_inv in Ea. destruct Ea as [Ea Ha].
  assert (Hya : 1000 <= year a) by (rewrite Ea; cbn [year]; lia).
  clear Ea Hay. unfold congratulate.
  destruct ((0 <=? days_between a today) && (days_between a today <=? 7))
    eqn:W; [|intros [= <-]; auto].
  apply andb_true_iff in W. rewrite !Z.leb_le in W.
  destruct (weekend_shift_spec a Ha) as (c & -> & Hc & Ho & _).
  cbn [bind]. intros [= <-]. right. exists c.
  pose proof (weekday_after_weekend (toordinal a)) as [Hw Hs].
  pose proof (weekend_shift_nonneg (weekday a)) as Hshift.
  rewrite (strftime_dmY_format _ Hc)
    by (pose proof (year_le_toordinal _ _ Ha Hc ltac:(lia)); lia).
  fold (weekday a) in Hw, Hs.
  assert (Ew : weekday c
               = (toordinal a + weekend_shift (weekday a) + 6) mod 7)
    by (unfold weekday at 1; rewrite Ho; reflexivity).
  rewrite Ew. unfold days_between in *. rewrite Ho.
  repeat split; auto; lia.
Qed.

(** X12: what the query answers is made of the records of the address book:
    every entry carries the name of one of them and, as DD.MM.YYYY, a date
    from Monday to Friday that lies 0 to 9 days after [today]; and there are
    no more entries than records.  ([today] is the date of the system clock,
    in a year of four digits.) *)
Theorem query_entries (today : date) (book : AddressBook)
  (out : list Upcoming) :
  1000 <= year today ->
  Forall birthday_valid (values book) ->
  get_upcoming_birthdays today book = Ok out ->
  Forall (entry_ok today book) out
  /\ (List.length out <= List.length book)%nat.
Proof.
  unfold get_upcoming_birthdays. intros Hyear Hall Hq.
  assert (G : forall records acc,
             (forall r, In r records -> In r (values book)) ->
             Forall birthday_valid records ->
             Forall (entry_ok today book) acc ->
             upcoming_loop today records acc = Ok out ->
             Forall (entry_ok today book) out
             /\ (List.length out
                 <= List.length acc + List.length records)%nat).
  { induction records as [|r rest IH]; intros acc Hsub Hval Hacc; cbn.
    - intros [= <-]. split; [assumption | lia].
    - inversion Hval as [|? ? Hr Hrest]; subst.
      destruct (upcoming_step today r acc) as [acc'|e] eqn:E; cbn;
        [|discriminate].
      intros Hloop.
      destruct (upcoming_step_entry _ _ _ _ Hyear Hr E)
        as [->|(c & -> & Hc & Hw & Hd)].
      + destruct (IH acc (fun x Hx => Hsub x (or_intror Hx)) Hrest Hacc Hloop).
        split; [assumption | lia].
      + assert (Hacc' : Forall (entry_ok today book)
                          (acc ++ [mkUpcoming (Name_value (name r))
                                              (dd_mm_yyyy c)])).
        { apply Forall_app. split; [exact Hacc|].
          constructor; [|constructor]. exists r, c. cbn.
          repeat split; auto; try lia. apply Hsub. left. reflexivity. }
        destruct (IH _ (fun x Hx => Hsub x (or_intror Hx)) Hrest Hacc' Hloop)
          as [H1 H2].
        rewrite length_app in H2. cbn in H2. split; [assumption | lia]. }
  destruct (G (values book) [] (fun r H => H) Hall (Forall_nil _) Hq)
    as [H1 H2].
  split; [assumption|]. unfold values in H2. rewrite length_map in H2.
  cbn in H2. lia.
Qed.

Lemma query_entries_witness :
  1000 <= year (mkdate 2024 6 10)
  /\ Forall birthday_valid
    (values [(py "Ann", ann_with_birthday "15.06.1990" (mkdate 1990 6 15))])
  /\ get_upcoming_birthdays (mkdate 2024 6 10)
       [(py "Ann", ann_with_birthday "15.06.1990" (mkdate 1990 6 15))]
     = Ok [mkUpcoming (py "Ann") (py "17.06.2024")]
  /\ Forall
       (entry_ok (mkdate 2024 6 10)
          [(py "Ann", ann_with_birthday "15.06.1990" (mkdate 1990 6 15))])
       [mkUpcoming (py "Ann") (py "17.06.2024")].
Proof.
  assert (H : Forall birthday_valid
                (values [(py "Ann",
                          ann_with_birthday "15.06.1990"
                            (mkdate 1990 6 15))])).
  { constructor; [|constructor]. intros b [= <-]. reflexivity. }
  assert (Hy : 1000 <= year (mkdate 2024 6 10)) by (cbn; lia).
  split; [exact Hy|]. split; [exact H|]. split; [reflexivity|].
  exact (proj1 (query_entries (mkdate 2024 6 10) _ _ Hy H eq_refl)).
Defined.

(** ** Commands on the address book *)

Lemma dict_set_app_last (k : str) (v v' : ContactRecord) (d : AddressBook) :
  dict_get k d = None -> dict_set k v' (d ++ [(k, v)]) = d ++ [(k, v')].
Proof.
  induction d as [|[k0 v0] d IH]; cbn.
  - rewrite str_eqb_refl. reflexivity.
  - destruct (str_eqb k0 k); [discriminate|].
    intros H. rewrite IH by assumption. reflexivity.
Qed.

Lemma ten_digits_not_empty (text : str) :
  List.length (re_sub_non_digits text) = 10%nat -> text <> [].
Proof. intros H ->. discriminate H. Qed.

(** X13: adding a new name with a valid phone stores a record with that
    phone at the end of the address book and answers "Contact added.";
    adding the same name again with another valid phone answers "Contact
    updated." and appends the phone to the same record, which [phone] then
    shows with both numbers in the order given. *)
Theorem add_contact_twice (book : AddressBook) (N p1 p2 : str) :
  N <> [] -> find N book = None ->
  List.length (re_sub_non_digits p1) = 10%nat ->
  List.length (re_sub_non_digits p2) = 10%nat ->
  let d1 := re_sub_non_digits p1 in
  let d2 := re_sub_non_digits p2 in
  let once := book ++ [(N, mkRecord (mkName N) [mkPhone d1] None)] in
  let twice :=
    book ++ [(N, mkRecord (mkName N) [mkPhone d1; mkPhone d2] None)] in
  add_contact [N; p1] book = (Ok (py "Contact added."), once)
  /\ add_contact [N; p2] once = (Ok (py "Contact updated."), twice)
  /\ show_phones [N] twice
     = (Ok (py "Phone numbers for " ++ N ++ py ": " ++ d1 ++ py ", " ++ d2),
        twice).
Proof.
  intros HN Hfind H1 H2 d1 d2 once twice.
  pose proof (ten_digits_not_empty _ H1) as Hp1.
  pose proof (ten_digits_not_empty _ H2) as Hp2.
  unfold find in Hfind.
  assert (Hget1 : dict_get N once
                  = Some (mkRecord (mkName N) [mkPhone d1] None))
    by (apply dict_get_app_last; assumption).
  assert (Hget2 : dict_get N twice
                  = Some (mkRecord (mkName N) [mkPhone d1; mkPhone d2] None))
    by (apply dict_get_app_last; assumption).
  repeat split.
  - unfold add_contact, input_error, add_contact_body, find.
    rewrite Hfind. destruct N as [|c N]; [congruence|].
    cbn [Record_init Name_init bind]. unfold add_record.
    cbn [name Name_value].
    rewrite (dict_set_absent _ _ _ Hfind).
    destruct p1 as [|x p1]; [congruence|].
    unfold add_phone. rewrite (Phone_init_valid _ H1). cbn [bind mutated].
    cbn [set_phones name phones birthday app].
    rewrite (dict_set_app_last _ _ _ _ Hfind). reflexivity.
  - unfold add_contact, input_error, add_contact_body, find.
    rewrite Hget1. destruct p2 as [|x p2]; [congruence|].
    unfold add_phone. rewrite (Phone_init_valid _ H2). cbn [bind mutated].
    cbn [set_phones name phones birthday app]. unfold once.
    rewrite (dict_set_app_last _ _ _ _ Hfind). reflexivity.
  - unfold show_phones, input_error, show_phones_body, find.
    rewrite Hget2. reflexivity.
Qed.

Lemma add_contact_twice_witness :
  py "Alice" <> [] /\ find (py "Alice") ann_book = None
  /\ List.length (re_sub_non_digits (py "(123) 456-7890")) = 10%nat
  /\ List.length (re_sub_non_digits (py "098-765-4321")) = 10%nat
  /\ add_contact [py "Alice"; py "(123) 456-7890"] ann_book
     = (Ok (py "Contact added."),
        ann_book
        ++ [(py "Alice",
             mkRecord (mkName (py "Alice")) [mkPhone (py "1234567890")]
                      None)])
  /\ add_contact [py "Alice"; py "098-765-4321"]
       (ann_book
        ++ [(py "Alice",
             mkRecord (mkName (py "Alice")) [mkPhone (py "1234567890")]
                      None)])
     = (Ok (py "Contact updated."),
        ann_book
        ++ [(py "Alice",
             mkRecord (mkName (py "Alice"))
                      [mkPhone (py "1234567890"); mkPhone (py "0987654321")]
                      None)]).
Proof.
  assert (HN : py "Alice" <> []) by discriminate.
  split; [exact HN|]. do 3 (split; [reflexivity|]).
  pose proof (add_contact_twice ann_book (py "Alice") (py "(123) 456-7890")
                (py "098-765-4321") HN eq_refl eq_refl eq_refl) as H.
  cbv zeta in H. split; [exact (proj1 H) | exact (proj1 (proj2 H))].
Defined.

Lemma input_error_book (body : AddressBook -> outcome) (book : AddressBook) :
  snd (input_error body book) = snd (body book).
Proof.
  unfold input_error. destruct (body book) as [[s|e] b]; [reflexivity|].
  destruct (kind e); reflexivity.
Qed.

Lemma input_error_ok (body : AddressBook -> outcome) (book book' : AddressBook)
  (s : str) :
  body book = (Ok s, book') -> input_error body book = (Ok s, book').
Proof. intros H. unfold input_error. rewrite H. reflexivity. Qed.

Lemma input_error_value (body : AddressBook -> outcome)
  (book book' : AddressBook) (m : str) :
  body book = (Err (Raise ValueError m), book') ->
  input_error body book = (Ok (py "Error: " ++ m), book').
Proof. intros H. unfold input_error. rewrite H. reflexivity. Qed.

(** X14: [change] and [add-birthday] do all or nothing.  Either the answer
    is the success message and the record found under the name has been
    edited in its place, or the address book is exactly what it was. *)
Theorem change_and_birthday_atomic (args : list str) (book : AddressBook) :
  (exists s book',
      change_contact args book = (Ok s, book')
      /\ (book' = book
          \/ (s = py "Phone number updated."
              /\ exists nm old new record record',
                  args = [nm; old; new]
                  /\ find nm book = Some record
                  /\ edit_phone record old new = Ok (record', true)
                  /\ book' = dict_set nm record' book
                  /\ keys book' = keys book
                  /\ find nm book' = Some record')))
  /\ (exists s book',
         add_birthday args book = (Ok s, book')
         /\ (book' = book
             \/ (s = py "Birthday added."
                 /\ exists nm date_str record b,
                     args = [nm; date_str]
                     /\ find nm book = Some record
                     /\ Birthday_init date_str = Ok b
                     /\ book'
                        = dict_set nm
                            (mkRecord (name record) (phones record) (Some b))
                            book
                     /\ keys book' = keys book))).
Proof.
  split.
  - unfold change_contact, input_error, change_contact_body.
    destruct args as [|nm [|old [|new [|x rest]]]];
      try (eexists; eexists; split; [reflexivity | left; reflexivity]).
    destruct (find nm book) as [record|] eqn:F;
      [|eexists; eexists; split; [reflexivity | left; reflexivity]].
    destruct (edit_phone record old new) as [[record' b]|e] eqn:E;
      cbn [bind mutated fst].
    + eexists; eexists; split; [reflexivity|]. right.
      split; [reflexivity|].
      assert (b = true) as ->.
      { unfold edit_phone in E. destruct (List.find _ _) as [[? ?]|];
          [|discriminate].
        destruct (Phone_init new); [|discriminate].
        injection E as _ <-. reflexivity. }
      exists nm, old, new, record, record'. unfold find in *.
      repeat split; auto.
      * apply dict_set_present. congruence.
      * apply dict_get_set_same.
    + rewrite (edit_phone_kind _ _ _ _ E).
      eexists; eexists; split; [reflexivity | left; reflexivity].
  - unfold add_birthday, input_error, add_birthday_body.
    destruct args as [|nm [|date_str [|x rest]]];
      try (eexists; eexists; split; [reflexivity | left; reflexivity]).
    destruct (find nm book) as [record|] eqn:F;
      [|eexists; eexists; split; [reflexivity | left; reflexivity]].
    unfold add_birthday_to.
    destruct (Birthday_init date_str) as [b|e] eqn:E; cbn [bind mutated].
    + eexists; eexists; split; [reflexivity|]. right.
      split; [reflexivity|].
      exists nm, date_str, record, b. unfold find in *.
      repeat split; auto.
      apply dict_set_present. congruence.
    + rewrite (Birthday_init_kind _ _ E).
      eexists; eexists; split; [reflexivity | left; reflexivity].
Qed.

(** X15: a birthday text that [Birthday] accepts, added to a contact of the
    address book, is what [show-birthday] shows for the contact afterwards,
    character by character; the keys and the phones of the contact stay as
    they were. *)
Theorem add_birthday_show_birthday (book : AddressBook) (N text : str)
  (record : ContactRecord) (d : date) :
  find N book = Some record ->
  birthday_text text d ->
  let record' :=
    mkRecord (name record) (phones record) (Some (mkBirthday d text)) in
  add_birthday [N; text] book
  = (Ok (py "Birthday added."), dict_set N record' book)
  /\ show_birthday [N] (dict_set N record' book)
     = (Ok (N ++ py "'s birthday: " ++ text), dict_set N record' book)
  /\ keys (dict_set N record' book) = keys book.
Proof.
  intros F Ht record'. unfold find in F. repeat split.
  - unfold add_birthday, input_error, add_birthday_body, find. rewrite F.
    unfold add_birthday_to, Birthday_init.
    rewrite (strptime_dmY_accepts _ _ Ht). reflexivity.
  - unfold show_birthday, input_error, show_birthday_body, find.
    rewrite dict_get_set_same. reflexivity.
  - apply dict_set_present. congruence.
Qed.

Lemma add_birthday_show_birthday_witness :
  find (py "Ann") ann_book = Some two_phones
  /\ birthday_text (py "15.06.1990") (mkdate 1990 6 15)
  /\ show_birthday [py "Ann"]
       (dict_set (py "Ann")
          (mkRecord (name two_phones) (phones two_phones)
             (Some (mkBirthday (mkdate 1990 6 15) (py "15.06.1990"))))
          ann_book)
     = (Ok (py "Ann's birthday: 15.06.1990"),
        dict_set (py "Ann")
          (mkRecord (name two_phones) (phones two_phones)
             (Some (mkBirthday (mkdate 1990 6 15) (py "15.06.1990"))))
          ann_book).
Proof.
  assert (Ht : birthday_text (py "15.06.1990") (mkdate 1990 6 15)).
  { apply strptime_dmY_sound. reflexivity. }
  split; [reflexivity|]. split; [exact Ht|].
  exact (proj1 (proj2 (add_birthday_show_birthday ann_book (py "Ann")
                         (py "15.06.1990") two_phones (mkdate 1990 6 15)
                         eq_refl Ht))).
Defined.

Lemma join_head (sep : str) (c : char) (p : str) (rest : list str) :
  exists t, join sep ((c :: p) :: rest) = c :: t.
Proof. destruct rest; cbn; eexists; reflexivity. Qed.

(** X16: [all] answers "Address book is empty." exactly on the empty address
    book; otherwise it answers the lines of the records, in the order of the
    address book. *)
Theorem show_all_spec (book : AddressBook) :
  show_all book
  = (Ok (match book with
         | [] => py "Address book is empty."
         | _ => join nl (map Record_str (values book))
         end), book)
  /\ (fst (show_all book) = Ok (py "Address book is empty.") <-> book = []).
Proof.
  unfold show_all, input_error, show_all_body.
  destruct book as [|[k r] book]; [split; [reflexivity | tauto]|].
  destruct (join_head nl 67 (skipn 1 (Record_str r))
              (map Record_str (values book))) as [t Ht].
  change (67 :: skipn 1 (Record_str r)) with (Record_str r) in Ht.
  match goal with
  | |- context [match ?j with [] => _ | _ :: _ => _ end] =>
      assert (E : j = 67 :: t) by exact Ht; rewrite !E
  end.
  cbn [fst]. split; [reflexivity|].
  split; [intros [= E0]; discriminate E0 | discriminate].
Qed.

(** X17: for a name that the address book does not hold, [change],
    [phone], [add-birthday] and [show-birthday] answer "Contact not found."
    and leave the address book as it is; [change] and [add-birthday] do so
    without looking at the phone numbers or the date they were given. *)
Theorem unknown_contact (book : AddressBook) (N : str) :
  find N book = None ->
  (forall old new,
      change_contact [N; old; new] book
      = (Ok (py "Contact not found."), book))
  /\ (forall rest,
         show_phones (N :: rest) book = (Ok (py "Contact not found."), book))
  /\ (forall date_str,
         add_birthday [N; date_str] book
         = (Ok (py "Contact not found."), book))
  /\ (forall rest,
         show_birthday (N :: rest) book
         = (Ok (py "Contact not found."), book)).
Proof.
  intros F. repeat split; intros.
  - unfold change_contact, input_error, change_contact_body.
    rewrite F. reflexivity.
  - unfold show_phones, input_error, show_phones_body.
    rewrite F. reflexivity.
  - unfold add_birthday, input_error, add_birthday_body.
    rewrite F. reflexivity.
  - unfold show_birthday, input_error, show_birthday_body.
    rewrite F. reflexivity.
Qed.

Lemma unknown_contact_witness :
  find (py "Bob") ann_book = None
  /\ add_birthday [py "Bob"; py "no date"] ann_book
     = (Ok (py "Contact not found."), ann_book).
Proof.
  split; [reflexivity|].
  exact (proj1 (proj2 (proj2 (unknown_contact ann_book (py "Bob") eq_refl)))
           (py "no date")).
Defined.

(** ** What the commands keep true of the address book *)

Lemma dict_get_In (k : str) (v : ContactRecord) (d : AddressBook) :
  dict_get k d = Some v -> In (k, v) d.
Proof.
  induction d as [|[k' v'] d IH]; cbn; [discriminate|].
  destruct (str_eqb k' k) eqn:E.
  - apply str_eqb_eq in E. intros [= <-]. left. congruence.
  - intros H. right. auto.
Qed.

Lemma dict_set_Forall (P : str * ContactRecord -> Prop) (k : str)
  (v : ContactRecord) (d : AddressBook) :
  Forall P d -> P (k, v) -> Forall P (dict_set k v d).
Proof.
  intros Hd Hv. induction Hd as [|[k' v'] d Hx Hd IH]; cbn.
  - constructor; [assumption | constructor].
  - destruct (str_eqb k' k) eqn:E.
    + apply str_eqb_eq in E. subst k'. constructor; assumption.
    + constructor; assumption.
Qed.

Lemma book_ok_set (book : AddressBook) (k : str) (v : ContactRecord) :
  book_ok book -> Name_value (name v) = k -> record_ok v ->
  book_ok (dict_set k v book).
Proof.
  intros [ND Hall] Hk Hv. split.
  - apply dict_set_NoDup; assumption.
  - apply dict_set_Forall; [assumption | cbn; auto].
Qed.

Lemma book_ok_find (book : AddressBook) (k : str) (v : ContactRecord) :
  book_ok book -> find k book = Some v ->
  Name_value (name v) = k /\ record_ok v.
Proof.
  intros [_ Hall] F. apply dict_get_In in F.
  apply (proj1 (Forall_forall _ _) Hall (k, v) F).
Qed.

Lemma add_phone_ok (self self' : ContactRecord) (text : str) :
  record_ok self -> add_phone self text = Ok self' ->
  record_ok self' /\ name self' = name self.
Proof.
  intros (Hn & Hp & Hb). unfold add_phone.
  destruct (Phone_init text) as [p|e] eqn:E; [|discriminate].
  intros [= <-]. cbn. split; [|reflexivity].
  split; [assumption|]. split; [|assumption].
  apply Forall_app. split; [assumption|].
  constructor; [eapply phone_ok_init; eassumption | constructor].
Qed.

Lemma edit_phone_ok (self self' : ContactRecord) (old new : str) (b : bool) :
  record_ok self -> edit_phone self old new = Ok (self', b) ->
  record_ok self' /\ name self' = name self.
Proof.
  intros (Hn & Hp & Hb). unfold edit_phone.
  destruct (List.find _ _) as [[idx p0]|]; [|discriminate].
  destruct (Phone_init new) as [p|e] eqn:E; [|discriminate].
  intros [= <- _]. cbn. split; [|reflexivity].
  split; [assumption|]. split; [|assumption].
  apply setitem_Forall; [assumption|]. eapply phone_ok_init; eassumption.
Qed.

Lemma Birthday_init_ok (text : str) (b : Birthday) :
  Birthday_init text = Ok b -> birthday_ok b.
Proof.
  unfold Birthday_init.
  destruct (strptime_dmY text) as [d|e] eqn:E.
  - intros [= <-]. apply strptime_dmY_sound. assumption.
  - destruct (kind e); discriminate.
Qed.

Lemma add_birthday_to_ok (self self' : ContactRecord) (text : str) :
  record_ok self -> add_birthday_to self text = Ok self' ->
  record_ok self' /\ name self' = name self.
Proof.
  intros (Hn & Hp & Hb). unfold add_birthday_to.
  destruct (Birthday_init text) as [b|e] eqn:E; [|discriminate].
  intros [= <-]. cbn. split; [|reflexivity].
  split; [assumption|]. split; [assumption|].
  intros b' [= <-]. eapply Birthday_init_ok; eassumption.
Qed.

Lemma Record_init_ok (nm : str) (r : ContactRecord) :
  Record_init nm = Ok r -> record_ok r /\ Name_value (name r) = nm.
Proof.
  destruct nm as [|c nm]; [discriminate|]. intros [= <-]. cbn.
  repeat split; [discriminate | constructor | discriminate].
Qed.

Lemma mutated_book_ok (book : AddressBook) (key : str)
  (r : result ContactRecord) (message : str) :
  book_ok book ->
  (forall v, r = Ok v -> Name_value (name v) = key /\ record_ok v) ->
  book_ok (snd (mutated key r message book)).
Proof.
  intros Hbook Hr. unfold mutated. destruct r as [v|e]; cbn; [|assumption].
  destruct (Hr v eq_refl). apply book_ok_set; assumption.
Qed.

Lemma add_contact_book_ok (args : list str) (book : AddressBook) :
  book_ok book -> book_ok (snd (add_contact args book)).
Proof.
  intros Hbook. unfold add_contact. rewrite input_error_book.
  unfold add_contact_body.
  destruct args as [|nm [|phone rest]]; try assumption.
  destruct (find nm book) as [record|] eqn:F.
  - destruct phone; [assumption|].
    destruct (book_ok_find _ _ _ Hbook F) as [Hk Hr].
    apply mutated_book_ok; [assumption|]. intros v Hv.
    destruct (add_phone_ok _ _ _ Hr Hv) as [Hv' Hn].
    split; [congruence | assumption].
  - destruct (Record_init nm) as [record|e] eqn:E; [|assumption].
    destruct (Record_init_ok _ _ E) as [Hr Hk].
    assert (Hbook' : book_ok (add_record record book)).
    { unfold add_record. apply book_ok_set; auto. }
    destruct phone; [assumption|].
    apply mutated_book_ok; [assumption|]. intros v Hv.
    destruct (add_phone_ok _ _ _ Hr Hv) as [Hv' Hn].
    split; [congruence | assumption].
Qed.

Lemma change_contact_book_ok (args : list str) (book : AddressBook) :
  book_ok book -> book_ok (snd (change_contact args book)).
Proof.
  intros Hbook. unfold change_contact. rewrite input_error_book.
  unfold change_contact_body.
  destruct args as [|nm [|old [|new [|x rest]]]]; try assumption.
  destruct (find nm book) as [record|] eqn:F; [|assumption].
  destruct (book_ok_find _ _ _ Hbook F) as [Hk Hr].
  apply mutated_book_ok; [assumption|]. intros v.
  destruct (edit_phone record old new) as [[record' b]|e] eqn:E;
    [|discriminate].
  cbn. intros [= <-].
  destruct (edit_phone_ok _ _ _ _ _ Hr E) as [Hv' Hn].
  split; [congruence | assumption].
Qed.

Lemma add_birthday_book_ok (args : list str) (book : AddressBook) :
  book_ok book -> book_ok (snd (add_birthday args book)).
Proof.
  intros Hbook. unfold add_birthday. rewrite input_error_book.
  unfold add_birthday_body.
  destruct args as [|nm [|date_str [|x rest]]]; try assumption.
  destruct (find nm book) as [record|] eqn:F; [|assumption].
  destruct (book_ok_find _ _ _ Hbook F) as [Hk Hr].
  apply mutated_book_ok; [assumption|]. intros v Hv.
  destruct (add_birthday_to_ok _ _ _ Hr Hv) as [Hv' Hn].
  split; [congruence | assumption].
Qed.

Lemma lookup_commands_book (today : date) (args : list str)
  (book : AddressBook) :
  snd (show_phones args book) = book
  /\ snd (show_all book) = book
  /\ snd (show_birthday args book) = book
  /\ snd (birthdays today args book) = book.
Proof.
  unfold show_phones, show_all, show_birthday, birthdays.
  rewrite !input_error_book. repeat split.
  - unfold show_phones_body. destruct args as [|nm rest]; [reflexivity|].
    destruct (find nm book); reflexivity.
  - unfold show_all_body. destruct (join nl _); reflexivity.
  - unfold show_birthday_body. destruct args as [|nm rest]; [reflexivity|].
    destruct (find nm book) as [record|]; [|reflexivity].
    destruct (birthday record); reflexivity.
  - unfold birthdays_body.
    destruct (get_upcoming_birthdays today book) as [[|u l]|e]; reflexivity.
Qed.

(** X18: every command leaves the address book well formed when it finds it
    so: each key once, every record under its own, non-empty name, every
    phone ten digits, every birthday the text it was given with the date of
    the calendar that the text stands for. *)
Theorem commands_keep_book_ok (today : date) (args : list str)
  (book : AddressBook) :
  book_ok book ->
  Forall (fun c => book_ok (snd (snd c book))) (commands today args).
Proof.
  intros Hbook. unfold commands.
  destruct (lookup_commands_book today args book) as (E1 & E2 & E3 & E4).
  repeat apply Forall_cons; try apply Forall_nil; cbn [snd fst].
  - apply add_contact_book_ok; assumption.
  - apply change_contact_book_ok; assumption.
  - rewrite E1; assumption.
  - rewrite E2; assumption.
  - apply add_birthday_book_ok; assumption.
  - rewrite E3; assumption.
  - rewrite E4; assumption.
Qed.

Lemma ann_book_ok : book_ok ann_book.
Proof.
  split.
  - repeat constructor. intros [].
  - constructor; [|constructor]. cbn. split; [reflexivity|].
    split; [discriminate|]. split; [|discriminate].
    repeat constructor.
Qed.

Lemma commands_keep_book_ok_witness :
  book_ok ann_book
  /\ book_ok (snd (add_contact [py "Bob"; py "12345"] ann_book)).
Proof.
  split; [exact ann_book_ok|].
  exact (Forall_inv (commands_keep_book_ok (mkdate 2024 6 10)
                       [py "Bob"; py "12345"] ann_book ann_book_ok)).
Defined.

(** ** The interpreter *)

Lemma word_cons (c : char) (w : str) :
  isspace c = false -> word w -> word (c :: w).
Proof.
  intros Hc [_ Hw]. split; [discriminate|]. cbn. rewrite Hc. exact Hw.
Qed.

Lemma word_single (c : char) : isspace c = false -> word [c].
Proof. intros Hc. split; [discriminate|]. cbn. rewrite Hc. reflexivity. Qed.

Lemma split_words (s : str) : Forall word (split s).
Proof.
  induction s as [|c s IH]; cbn [split]; [constructor|].
  destruct (isspace c) eqn:Ec; [assumption|].
  destruct s as [|c' s'];
    [constructor; [apply word_single; assumption | constructor]|].
  destruct (isspace c') eqn:Ec'.
  - constructor; [apply word_single; assumption | assumption].
  - destruct (split (c' :: s')) as [|w ws].
    + constructor; [apply word_single; assumption | constructor].
    + inversion IH as [|? ? Hw Hws]; subst.
      constructor; [apply word_cons; assumption | assumption].
Qed.

Lemma split_word (w : str) : word w -> split w = [w].
Proof.
  intros [Hne Hw]. induction w as [|c w IH]; [congruence|].
  cbn in Hw. apply andb_true_iff in Hw. destruct Hw as [Hc Hw].
  apply negb_true_iff in Hc. cbn [split]. rewrite Hc.
  destruct w as [|c' w']; [reflexivity|].
  assert (Hc' : isspace c' = false).
  { cbn in Hw. apply andb_true_iff in Hw. destruct Hw as [H _].
    apply negb_true_iff in H. exact H. }
  rewrite Hc'. rewrite IH by (try discriminate; assumption). reflexivity.
Qed.

Lemma split_word_app (w : str) (sp : char) (s : str) :
  word w -> isspace sp = true -> split (w ++ sp :: s) = w :: split s.
Proof.
  intros [Hne Hw] Hsp. induction w as [|c w IH]; [congruence|].
  cbn in Hw. apply andb_true_iff in Hw. destruct Hw as [Hc Hw].
  apply negb_true_iff in Hc. cbn [app split]. rewrite Hc.
  destruct w as [|c' w'].
  - cbn [app]. rewrite Hsp. cbn [split]. rewrite Hsp. reflexivity.
  - assert (Hc' : isspace c' = false).
    { cbn in Hw. apply andb_true_iff in Hw. destruct Hw as [H _].
      apply negb_true_iff in H. exact H. }
    cbn [app]. rewrite Hc'.
    change (c' :: w' ++ sp :: s) with ((c' :: w') ++ sp :: s).
    rewrite IH by (try discriminate; assumption). reflexivity.
Qed.

Lemma split_join (ws : list str) :
  Forall word ws -> split (join (py " ") ws) = ws.
Proof.
  induction 1 as [|w ws Hw Hws IH]; [reflexivity|].
  destruct ws as [|w' ws'].
  - cbn [join]. apply split_word. assumption.
  - change (join (py " ") (w :: w' :: ws'))
      with (w ++ 32 :: join (py " ") (w' :: ws')).
    rewrite split_word_app by (try assumption; reflexivity).
    rewrite IH. reflexivity.
Qed.

Lemma split_lstrip (s : str) : split (lstrip s) = split s.
Proof.
  induction s as [|c s IH]; [reflexivity|].
  cbn [lstrip]. destruct (isspace c) eqn:E; [|reflexivity].
  rewrite IH. cbn [split]. rewrite E. reflexivity.
Qed.

Lemma split_app_space (s : str) (c : char) :
  isspace c = true -> split (s ++ [c]) = split s.
Proof.
  intros Hc. induction s as [|x s IH].
  - cbn. rewrite Hc. reflexivity.
  - cbn [app split]. destruct (isspace x); [exact IH|].
    destruct s as [|y s'].
    + cbn [app]. rewrite Hc. cbn [split]. rewrite Hc. reflexivity.
    + cbn [app]. destruct (isspace y); rewrite <- IH; reflexivity.
Qed.

Lemma split_rev_lstrip_rev (s : str) : split (rev (lstrip (rev s))) = split s.
Proof.
  induction s as [|c s IH] using rev_ind; [reflexivity|].
  rewrite rev_unit. cbn [lstrip]. destruct (isspace c) eqn:E.
  - rewrite IH. symmetry. apply split_app_space. assumption.
  - rewrite <- rev_unit, rev_involutive. reflexivity.
Qed.

Lemma split_strip (s : str) : split (strip s) = split s.
Proof. unfold strip. rewrite split_rev_lstrip_rev. apply split_lstrip. Qed.

Lemma split_nil_iff (s : str) :
  split s = [] <-> forallb isspace s = true.
Proof.
  induction s as [|c s IH]; cbn [split forallb]; [tauto|].
  destruct (isspace c); cbn [andb]; [exact IH|].
  split; [|discriminate].
  destruct s as [|c' s']; [discriminate|].
  destruct (isspace c'); [discriminate|].
  destruct (split (c' :: s')); discriminate.
Qed.

(** X20: [parse_input] raises [IndexError] exactly on a line that holds
    nothing but white space; on any other line it returns the first word of
    the line as the command and the other words as the arguments, so that
    no argument is empty. *)
Theorem parse_input_spec (user_input : str) :
  (forallb isspace user_input = true ->
   parse_input user_input = Err list_index_out_of_range)
  /\ (forallb isspace user_input = false ->
      exists command args,
        parse_input user_input = Ok (command, args)
        /\ split user_input = command :: args
        /\ word command /\ Forall word args).
Proof.
  unfold parse_input. rewrite split_strip. split; intros H.
  - apply split_nil_iff in H. rewrite H. reflexivity.
  - pose proof (split_words user_input) as Hw.
    destruct (split user_input) as [|command args] eqn:E.
    + apply split_nil_iff in E. congruence.
    + exists command, args. inversion Hw; subst. auto.
Qed.

(** X19: a line made of a command word and argument words with single
    spaces between them is parsed back into that command and those
    arguments. *)
Theorem parse_input_join (command : str) (args : list str) :
  word command -> Forall word args ->
  parse_input (join (py " ") (command :: args)) = Ok (command, args).
Proof.
  intros Hc Ha. unfold parse_input.
  rewrite split_strip, split_join by (constructor; assumption).
  reflexivity.
Qed.

Lemma parse_input_join_witness :
  word (py "add") /\ Forall word [py "Ann"; py "1234567890"]
  /\ parse_input (join (py " ") [py "add"; py "Ann"; py "1234567890"])
     = Ok (py "add", [py "Ann"; py "1234567890"]).
Proof.
  assert (Hc : word (py "add")) by (split; [discriminate | reflexivity]).
  assert (Ha : Forall word [py "Ann"; py "1234567890"])
    by (repeat constructor; discriminate).
  split; [exact Hc|]. split; [exact Ha|].
  exact (parse_input_join (py "add") [py "Ann"; py "1234567890"] Hc Ha).
Defined.

Lemma commands_return (today : date) (args : list str) (book : AddressBook) :
  Forall (fun c => exists s book', snd c book = (Ok s, book'))
         (commands today args).
Proof.
  unfold commands.
  repeat apply Forall_cons; try apply Forall_nil; cbn [fst snd];
    apply input_error_catches; intros e b H.
  - rewrite (add_contact_body_kind _ _ _ _ H). discriminate.
  - rewrite (change_contact_body_kind _ _ _ _ H). discriminate.
  - rewrite (show_phones_body_kind _ _ _ _ H). discriminate.
  - destruct (show_all_body_ok book) as [s Hs]. congruence.
  - rewrite (add_birthday_body_kind _ _ _ _ H). discriminate.
  - rewrite (show_birthday_body_kind _ _ _ _ H). discriminate.
  - rewrite (birthdays_body_kind _ _ _ _ _ H). discriminate.
Qed.

Lemma print_result_continue (o : outcome) :
  (exists s book', o = (Ok s, book')) ->
  exists printed book', print_result o = Continue printed book'.
Proof. intros (s & b & ->). exists s, b. reflexivity. Qed.

Lemma parse_input_words (user_input command : str) (args : list str) :
  split user_input = command :: args ->
  parse_input user_input = Ok (command, args).
Proof.
  intros H. unfold parse_input. rewrite split_strip, H. reflexivity.
Qed.

(** X21: a turn of [main] fails, with an [IndexError] that nothing catches,
    exactly on a line of white space; it ends the loop with "Good bye!" when
    the first word is close or exit, whatever follows; on every other line
    it prints one answer and goes on, and the answer to a first word that is
    no command is "Invalid command." with the address book untouched. *)
Theorem main_turn_spec (today : date) (user_input : str)
  (book : AddressBook) :
  (forallb isspace user_input = true ->
   main_turn today user_input book = Uncaught list_index_out_of_range book)
  /\ (forall command args,
         split user_input = command :: args ->
         ((command = py "close" \/ command = py "exit") ->
          main_turn today user_input book = Break (py "Good bye!"))
         /\ (command <> py "close" -> command <> py "exit" ->
             exists printed book',
               main_turn today user_input book = Continue printed book')
         /\ (~ In command
               (map py ["close"; "exit"; "hello"; "add"; "change"; "phone";
                        "all"; "add-birthday"; "show-birthday";
                        "birthdays"]%string) ->
             main_turn today user_input book
             = Continue (py "Invalid command.") book)).
Proof.
  split.
  - intros H. unfold main_turn, parse_input.
    rewrite split_strip. apply split_nil_iff in H. rewrite H. reflexivity.
  - intros command args Hs. unfold main_turn.
    rewrite (parse_input_words _ _ _ Hs).
    pose proof (commands_return today args book) as R.
    unfold commands in R.
    repeat match type of R with
           | Forall _ (_ :: _) =>
               let H := fresh "R" in
               pose proof (Forall_inv R) as H;
               apply Forall_inv_tail in R; cbn [snd] in H
           end.
    split; [|split].
    + intros [-> | ->]; reflexivity.
    + intros N1 N2.
      apply str_eqb_neq in N1, N2. rewrite N1, N2. cbn [orb].
      repeat match goal with
             | |- context [if str_eqb command ?x then _ else _] =>
                 destruct (str_eqb command x)
             end;
        try (apply print_result_continue; assumption);
        eexists; eexists; reflexivity.
    + intros Hnot. cbn [map In] in Hnot.
      repeat match goal with
             | |- context [str_eqb command ?x] =>
                 let E := fresh in
                 destruct (str_eqb command x) eqn:E;
                 [apply str_eqb_eq in E; symmetry in E; tauto|]
             end.
      reflexivity.
Qed.

(** X22: the loop of [main] handles the lines one after the other: the run
    on more lines is the run on the first ones followed, when that one still
    waits for input, by the run on the others from the address book
    reached; after "Good bye!" or an uncaught exception no further line is
    read. *)
Theorem main_loop_app (today : date) (pre post : list str)
  (book : AddressBook) :
  main_loop today (pre ++ post) book =
  match main_loop today pre book with
  | (out, Waiting book') =>
      (out ++ fst (main_loop today post book'),
       snd (main_loop today post book'))
  | (out, st) => (out, st)
  end.
Proof.
  revert book. induction pre as [|line pre IH]; intros book; cbn [app main_loop].
  - destruct (main_loop today post book); reflexivity.
  - destruct (main_turn today line book) as [printed book'| |]; try reflexivity.
    rewrite IH.
    destruct (main_loop today pre book') as [out [b| |]]; reflexivity.
Qed.

Lemma main_turn_book_ok (today : date) (user_input printed : str)
  (book book' : AddressBook) :
  book_ok book ->
  main_turn today user_input book = Continue printed book' ->
  book_ok book'.
Proof.
  intros Hbook. unfold main_turn.
  destruct (parse_input user_input) as [[command args]|e]; [|discriminate].
  destruct (lookup_commands_book today args book) as (E1 & E2 & E3 & E4).
  assert (P : forall o, print_result o = Continue printed book' ->
                        snd o = book').
  { intros [[s|e] b]; cbn; congruence. }
  repeat match goal with
         | |- context [if ?c then _ else _] => destruct c
         end; try discriminate;
    try (intros [= _ <-]; assumption);
    intros H; apply P in H; subst book'.
  - apply add_contact_book_ok; assumption.
  - apply change_contact_book_ok; assumption.
  - rewrite E1; assumption.
  - rewrite E2; assumption.
  - apply add_birthday_book_ok; assumption.
  - rewrite E3; assumption.
  - rewrite E4; assumption.
Qed.

Lemma main_loop_book_ok (today : date) (inputs : list str)
  (book : AddressBook) :
  book_ok book ->
  match snd (main_loop today inputs book) with
  | Waiting book' => book_ok book'
  | _ => True
  end.
Proof.
  revert book. induction inputs as [|line rest IH]; intros book Hbook;
    cbn [main_loop]; [exact Hbook|].
  destruct (main_turn today line book) as [printed book'| |] eqn:E;
    cbn; auto.
  pose proof (IH book' (main_turn_book_ok _ _ _ _ _ Hbook E)) as H.
  destruct (main_loop today rest book') as [out st]. exact H.
Qed.

(** X23: whatever is typed, the address book that a session of [main] has
    built is well formed: each key once, every record under its own,
    non-empty name, every phone exactly ten digits, every birthday a date of
    the calendar with the text it was typed as. *)
Theorem main_book_ok (today : date) (inputs : list str) :
  match snd (main today inputs) with
  | Waiting book => book_ok book
  | _ => True
  end.
Proof.
  unfold main.
  assert (H0 : book_ok []) by (split; constructor).
  pose proof (main_loop_book_ok today inputs [] H0) as H.
  destruct (main_loop today inputs []) as [out st]. exact H.
Qed.

(** X24: typed at the prompt, [add] with a name the address book does not
    hold and a phone that has not ten digits always prints the error of the
    phone and yet leaves a record without phones under the name: a word of a
    line is never empty, so neither guard of the command is met. *)
Theorem main_turn_add_not_atomic (today : date) (user_input N phone : str)
  (rest : list str) (book : AddressBook) :
  split user_input = py "add" :: N :: phone :: rest ->
  find N book = None ->
  List.length (re_sub_non_digits phone) <> 10%nat ->
  main_turn today user_input book
  = Continue (py "Error: Phone number must contain exactly 10 digits.")
             (book ++ [(N, mkRecord (mkName N) [] None)]).
Proof.
  intros Hs F Hlen.
  pose proof (split_words user_input) as Hw. rewrite Hs in Hw.
  inversion Hw as [|? ? _ Hw1]; subst.
  inversion Hw1 as [|? ? [HN _] Hw2]; subst.
  inversion Hw2 as [|? ? [Hp _] _]; subst.
  unfold main_turn. rewrite (parse_input_words _ _ _ Hs).
  change (str_eqb (py "add") (py "close") || str_eqb (py "add") (py "exit"))
    with false.
  change (str_eqb (py "add") (py "hello")) with false.
  change (str_eqb (py "add") (py "add")) with true. cbv iota.
  unfold add_contact, input_error, add_contact_body. rewrite F.
  destruct N as [|c N]; [congruence|].
  cbn [Record_init Name_init bind]. unfold add_record. cbn [name Name_value].
  unfold find in F. rewrite (dict_set_absent _ _ _ F).
  destruct phone as [|x phone]; [congruence|].
  unfold add_phone, Phone_init, is_valid.
  destruct (Z.eqb_spec
              (Z.of_nat (List.length (re_sub_non_digits (x :: phone)))) 10)
    as [E|E]; [lia|].
  reflexivity.
Qed.

Lemma main_turn_add_not_atomic_witness :
  split (py "add Bob 12345") = [py "add"; py "Bob"; py "12345"]
  /\ find (py "Bob") ann_book = None
  /\ List.length (re_sub_non_digits (py "12345")) <> 10%nat
  /\ main_turn (mkdate 2024 6 10) (py "add Bob 12345") ann_book
     = Continue (py "Error: Phone number must contain exactly 10 digits.")
         (ann_book ++ [(py "Bob", mkRecord (mkName (py "Bob")) [] None)]).
Proof.
  assert (Hl : List.length (re_sub_non_digits (py "12345")) <> 10%nat)
    by (vm_compute; discriminate).
  split; [reflexivity|]. split; [reflexivity|]. split; [exact Hl|].
  exact (main_turn_add_not_atomic (mkdate 2024 6 10) (py "add Bob 12345")
           (py "Bob") (py "12345") [] ann_book eq_refl eq_refl Hl).
Defined.

(** ** More on birthdays and the query *)

Lemma upcoming_loop_steps (today : date) (records : list ContactRecord)
  (r : ContactRecord) (acc out : list Upcoming) :
  upcoming_loop today records acc = Ok out -> In r records ->
  exists acc1 acc2, upcoming_step today r acc1 = Ok acc2.
Proof.
  revert acc. induction records as [|x rest IH]; intros acc; cbn;
    [intros _ []|].
  destruct (upcoming_step today x acc) as [acc'|e] eqn:E; cbn [bind];
    [|discriminate].
  intros Hloop [->|Hin]; [exists acc, acc'; exact E|].
  exact (IH _ Hloop Hin).
Qed.

(** X25: the query first writes the date of a birthday as text and reads it
    back.  For a birthday before the year 1000, which [Birthday] accepts
    with the year zero-filled (12.06.0999), the text written is shorter than
    DD.MM.YYYY and reading it back raises [ValueError]: the query fails on
    every address book that holds a record with such a birthday, whatever
    the date of today, and the command shows the error. *)
Theorem short_year_stops_query (today : date) (book : AddressBook)
  (r : ContactRecord) (text : str) (b : Birthday) (args : list str) :
  Birthday_init text = Ok b -> year (Birthday_date b) < 1000 ->
  In r (values book) -> birthday r = Some b ->
  (List.length (strftime_dmY (Birthday_date b)) < 10)%nat
  /\ (exists e,
        get_upcoming_birthdays today book = Err e /\ kind e = ValueError
        /\ birthdays today args book
           = (Ok (py "Error: " ++ message e), book))
  /\ get_upcoming_birthdays today [(Name_value (name r), r)]
     = Err (Raise ValueError
              (py "time data '" ++ strftime_dmY (Birthday_date b)
               ++ py "' does not match format '%d.%m.%Y'")).
Proof.
  intros Hinit Hshort Hin Hb. apply Birthday_init_ok in Hinit.
  destruct Hinit as (dt & mt & yt & _ & _ & _ & _ & Hok).
  split; [|split].
  - rewrite (strftime_dmY_fields _ Hok), !length_app.
    change (List.length (py ".")) with 1%nat. cbn [List.length].
    pose proof (unpadded_short _ Hshort). lia.
  - unfold birthdays, input_error, birthdays_body, get_upcoming_birthdays.
    destruct (upcoming_loop today (values book) []) as [out|e] eqn:E.
    + destruct (upcoming_loop_steps _ _ _ _ _ E Hin) as (acc1 & acc2 & Hstep).
      rewrite (upcoming_step_short_year _ _ _ acc1 Hb Hok Hshort) in Hstep.
      discriminate.
    + pose proof (upcoming_loop_kind _ _ _ _ E) as K.
      exists e. rewrite K. auto.
  - unfold get_upcoming_birthdays. cbn [values map snd upcoming_loop].
    rewrite (upcoming_step_short_year _ _ _ [] Hb Hok Hshort). reflexivity.
Qed.

Lemma short_year_stops_query_witness :
  Birthday_init (py "12.06.0999")
  = Ok (mkBirthday (mkdate 999 6 12) (py "12.06.0999"))
  /\ year (mkdate 999 6 12) < 1000
  /\ get_upcoming_birthdays (mkdate 2024 6 10)
       [(py "Ann", ann_with_birthday "12.06.0999" (mkdate 999 6 12))]
     = Err (Raise ValueError
              (py "time data '" ++ strftime_dmY (mkdate 999 6 12)
               ++ py "' does not match format '%d.%m.%Y'")).
Proof.
  assert (Hy : year (mkdate 999 6 12) < 1000) by (cbn; lia).
  split; [reflexivity|]. split; [exact Hy|].
  exact (proj2 (proj2
           (short_year_stops_query (mkdate 2024 6 10)
              [(py "Ann", ann_with_birthday "12.06.0999" (mkdate 999 6 12))]
              (ann_with_birthday "12.06.0999" (mkdate 999 6 12))
              (py "12.06.0999")
              (mkBirthday (mkdate 999 6 12) (py "12.06.0999")) []
              eq_refl Hy (or_introl eq_refl) eq_refl))).
Defined.

Lemma Forall2_names (records : list ContactRecord) (out : list Upcoming) :
  Forall2 (fun r e => up_name e = Name_value (name r)) records out ->
  map up_name out = map (fun r => Name_value (name r)) records.
Proof.
  induction 1 as [|r e records out H _ IH]; cbn; [reflexivity|].
  rewrite H, IH. reflexivity.
Qed.

(** X26: whenever the query returns, the records it congratulates are, in
    their order, exactly those whose anniversary is at most 7 days after
    today: the anniversary is never before today, so the lower bound of the
    test [0 <= days <= 7] excludes no record. *)
Theorem lower_bound_never_decides (today : date) (book : AddressBook)
  (out : list Upcoming) :
  date_ok today = true ->
  Forall birthday_valid (values book) ->
  get_upcoming_birthdays today book = Ok out ->
  map up_name out
  = map (fun r => Name_value (name r))
        (filter (within_week today) (values book)).
Proof.
  intros Htoday Hall Hq. unfold get_upcoming_birthdays in Hq.
  apply Forall2_names.
  destruct (upcoming_loop_filter today (within_week today)
              (fun r e => up_name e = Name_value (name r)) (values book))
    with (acc := @nil Upcoming) (out := out)
    as (entries & -> & Hentries); [|exact Hq|exact Hentries].
  intros r acc acc' Hin Hstep.
  pose proof (proj1 (Forall_forall _ _) Hall r Hin) as Hvalid.
  unfold within_week.
  destruct (birthday r) as [b|] eqn:Hb.
  - destruct (upcoming_step_returns _ _ _ _ _ Htoday Hb (Hvalid b Hb) Hstep)
      as (_ & _ & _ & [(Hle & c & _ & _ & _ & ->)|(Hgt & ->)]).
    + left. split; [apply Z.leb_le; exact Hle|].
      eexists. split; [|reflexivity]. reflexivity.
    + right. split; [apply Z.leb_gt; exact Hgt | reflexivity].
  - rewrite (upcoming_step_no_birthday _ _ _ Hb) in Hstep.
    injection Hstep as <-. right. auto.
Qed.

Lemma lower_bound_never_decides_witness :
  date_ok (mkdate 2024 6 10) = true
  /\ Forall birthday_valid
       (values [(py "Ann", ann_with_birthday "09.06.1990" (mkdate 1990 6 9));
                (py "Bob", bob_with_birthday "10.06.1990" (mkdate 1990 6 10))])
  /\ get_upcoming_birthdays (mkdate 2024 6 10)
       [(py "Ann", ann_with_birthday "09.06.1990" (mkdate 1990 6 9));
        (py "Bob", bob_with_birthday "10.06.1990" (mkdate 1990 6 10))]
     = Ok [mkUpcoming (py "Bob") (py "10.06.2024")]
  /\ map up_name [mkUpcoming (py "Bob") (py "10.06.2024")]
     = map (fun r => Name_value (name r))
         (filter (within_week (mkdate 2024 6 10))
            (values
               [(py "Ann", ann_with_birthday "09.06.1990" (mkdate 1990 6 9));
                (py "Bob",
                 bob_with_birthday "10.06.1990" (mkdate 1990 6 10))])).
Proof.
  assert (H : Forall birthday_valid
                (values
                   [(py "Ann",
                     ann_with_birthday "09.06.1990" (mkdate 1990 6 9));
                    (py "Bob",
                     bob_with_birthday "10.06.1990" (mkdate 1990 6 10))])).
  { constructor; [|constructor; [|constructor]];
      intros b [= <-]; reflexivity. }
  split; [reflexivity|]. split; [exact H|]. split; [reflexivity|].
  exact (lower_bound_never_decides (mkdate 2024 6 10) _ _ eq_refl H eq_refl).
Defined.

Lemma upcoming_step_acc (today : date) (record : ContactRecord)
  (acc : list Upcoming) :
  upcoming_step today record acc =
  match upcoming_step today record [] with
  | Ok entries => Ok (acc ++ entries)
  | Err e => Err e
  end.
Proof.
  unfold upcoming_step.
  destruct (birthday record) as [b|]; [|rewrite app_nil_r; reflexivity].
  destruct (strptime_dmY _) as [bday|e]; [|reflexivity]. cbn [bind].
  destruct (replace_year bday (year today)) as [x|e]; [|reflexivity].
  cbn [bind].
  destruct (if date_ltb x today then _ else _) as [a|e]; [|reflexivity].
  cbn [bind].
  destruct (_ && _); [|rewrite app_nil_r; reflexivity].
  destruct (if weekday a =? 5 then _ else _) as [c|e]; reflexivity.
Qed.

Lemma upcoming_loop_acc (today : date) (records : list ContactRecord)
  (acc : list Upcoming) :
  upcoming_loop today records acc =
  match upcoming_loop today records [] with
  | Ok entries => Ok (acc ++ entries)
  | Err e => Err e
  end.
Proof.
  revert acc. induction records as [|r rest IH]; intros acc; cbn [upcoming_loop].
  - rewrite app_nil_r. reflexivity.
  - rewrite (upcoming_step_acc today r acc).
    destruct (upcoming_step today r []) as [d|e]; cbn [bind app];
      [|reflexivity].
    rewrite (IH (acc ++ d)), (IH d).
    destruct (upcoming_loop today rest []); [|reflexivity].
    rewrite app_assoc. reflexivity.
Qed.

Lemma upcoming_loop_app2 (today : date) (r1 r2 : list ContactRecord)
  (acc : list Upcoming) :
  upcoming_loop today (r1 ++ r2) acc =
  (acc' <- upcoming_loop today r1 acc ;; upcoming_loop today r2 acc').
Proof.
  revert acc. induction r1 as [|r rest IH]; intros acc; cbn; [reflexivity|].
  destruct (upcoming_step today r acc); cbn; [apply IH | reflexivity].
Qed.

(** X27: the query answers in the order of the address book, and an
    exception for one record is the answer for all: on two address books
    put together it gives the entries of the first followed by those of the
    second, or the first exception that either raises. *)
Theorem query_in_order (today : date) (book1 book2 : AddressBook) :
  get_upcoming_birthdays today (book1 ++ book2) =
  match get_upcoming_birthdays today book1 with
  | Err e => Err e
  | Ok out1 =>
      match get_upcoming_birthdays today book2 with
      | Ok out2 => Ok (out1 ++ out2)
      | Err e => Err e
      end
  end.
Proof.
  unfold get_upcoming_birthdays, values. rewrite map_app, upcoming_loop_app2.
  destruct (upcoming_loop today (map snd book1) []) as [out1|e]; cbn [bind];
    [|reflexivity].
  apply upcoming_loop_acc.
Qed.
